(** * Flashcard session, gesture recogniser and persistence helpers

    A shallow embedding of the study-session core of the flashcard app:
    - [Double]             : the arithmetic of JavaScript numbers
    - [UseFlashcardState]  : src/hooks/useFlashcardState.ts
    - [FlashcardUtils]     : the flashcardUtils object (utils/flashcardUtils)
    - [UseFlashcards]      : the useFlashcards hook
    - [UseFlashcardGestures] : src/hooks/useFlashcardGestures.ts
    - [FlashCardComponent] : src/components/FlashCard.tsx
    - [FlashcardsScreen]   : src/screens/FlashcardsScreen.tsx

    JavaScript numbers are IEEE 754 doubles.  Indices, counters and
    millisecond timestamps are integers, which doubles hold exactly; they
    are modelled by [Z].  Other numbers (progress, pixel translations,
    velocities) are modelled by the rational they denote ([Q], compared
    with [==], [<=] and [<] of [Q_scope]), and a division or a
    multiplication whose result the code rounds or compares is followed by
    the rounding to the nearest double ([Double.div], [Double.mul]): the
    percentages [(index / length) * 100] of progress and score, and the
    vertical test [absTranslationX * 0.7].  The other quotients and products
    are kept exact: the products with 0.25 (exact in doubles as well), the
    running average of the statistics, [Math.random() * n] under
    [Math.floor], and the values assigned while a card is dragged. *)

From Stdlib Require Import ZArith QArith Qround Qabs Qpower Lia Lqa Bool List.
From Stdlib Require Import PrimFloat FloatOps SpecFloat Uint63.
From stdpp Require Import base option list gmap strings.

Local Open Scope Z_scope.

(** ** IEEE 754 double precision *)

Module Double.

(** A finite double is a rational [m * 2^e] with [|m| < 2^53] and
    [e >= -1074].  An arithmetic operation returns its exact result rounded
    to the nearest such value, ties going to the even significand.  The
    expressions embedded below stay far from the overflow threshold
    [2^1024] (quotients of an index by a length, times 100, and a product
    with 0.7), so infinities are not represented. *)

Definition pow2 (e : Z) : Q := (2 ^ e)%Q.

(** For [x > 0], the integer [E] with [2^E <= x < 2^(E+1)]. *)
Definition ilog2 (x : Q) : Z :=
  let d := Z.log2 (Qnum x) - Z.log2 (Zpos (Qden x)) in
  if Qle_bool (pow2 d) x then d else d - 1.

(** The integer nearest to [x], a tie going to the even one. *)
Definition nearest_even (x : Q) : Z :=
  let f := Qfloor x in
  match (x - inject_Z f ?= 1 # 2)%Q with
  | Lt => f
  | Eq => if Z.even f then f else f + 1
  | Gt => f + 1
  end.

(** Exponent of the unit in the last place of the doubles around [x > 0]:
    53 significant bits, and [2^-1074] for the subnormal numbers. *)
Definition ulp_exponent (x : Q) : Z := Z.max (ilog2 x - 52) (-1074).

Definition round_pos (x : Q) : Q :=
  let e := ulp_exponent x in
  (inject_Z (nearest_even (x / pow2 e)) * pow2 e)%Q.

(** Round to nearest, ties to even.  It is also the value of a decimal
    literal: [0.7] is [round (7 # 10)]. *)
Definition round (x : Q) : Q :=
  match (x ?= 0)%Q with
  | Eq => 0%Q
  | Gt => round_pos x
  | Lt => (- round_pos (- x))%Q
  end.

(** [x * y] and [x / y] on doubles. *)
Definition mul (x y : Q) : Q := round (x * y).
Definition div (x y : Q) : Q := round (x / y).

#[global] Arguments pow2 : simpl never.
#[global] Arguments round_pos : simpl never.
#[global] Arguments round : simpl never.
#[global] Arguments mul : simpl never.
#[global] Arguments div : simpl never.

End Double.

(** *** The binary64 numbers of the machine, for comparison *)

Module Binary64.

(** The rational a primitive float denotes; [None] for an infinity or a
    NaN. *)
Definition value (f : float) : option Q :=
  match Prim2SF f with
  | S754_zero _ => Some 0%Q
  | S754_finite s m e =>
      Some ((if s then - (1) else 1) * inject_Z (Zpos m) * Double.pow2 e)%Q
  | _ => None
  end.

Definition of_Z (z : Z) : float := PrimFloat.of_uint63 (Uint63.of_Z z).

Definition agrees (f : float) (q : Q) : bool :=
  match value f with
  | Some v => Qeq_bool v q
  | None => false
  end.

(** [(i / n) * 100] and [x * 0.7] as the floating-point unit computes them;
    the literal is the double 0.7. *)
Definition percent (i n : Z) : float := (of_Z i / of_Z n * of_Z 100)%float.
Definition seventy_percent (x : Z) : float :=
  (of_Z x * 0x1.6666666666666p-1)%float.

(** The integers from 0 to [n]. *)
Definition upto (n : nat) : list Z := map Z.of_nat (seq 0 (S n)).

End Binary64.

(** ** JavaScript arithmetic helpers *)

Module JS.

(** [Math.round]: nearest integer, ties towards positive infinity. *)
Definition Math_round (x : Q) : Z := Qfloor (x + (1 # 2))%Q.

(** [Math.floor]. *)
Definition Math_floor (x : Q) : Z := Qfloor x.

(** [Math.abs]. *)
Definition Math_abs (x : Q) : Q := Qabs x.

(** [x > y] and [x < y] on numbers. *)
Definition gt (x y : Q) : bool := negb (Qle_bool x y).
Definition lt (x y : Q) : bool := negb (Qle_bool y x).


End JS.

(** ** Data model (types/index.ts) *)

Record Flashcard := mkFlashcard {
  id : string;
  title : string;
  question : string;
  explanation : string;
}.

Record FlashcardState := mkState {
  currentCardIndex : Z;
  isFlipped : bool;
  isComplete : bool;
  progress : Q;
}.

(** The five session actions exposed by both hooks. *)
Inductive Action :=
| FlipCard
| NextCard
| PreviousCard
| GoToCard (index : Z)
| ResetDeck.

(** ** src/hooks/useFlashcardState.ts *)

Module UseFlashcardState.
Section Hook.

(** Props of the hook.  [onCompleteFresh] records whether the caller hands
    in a new [onComplete] closure on every render (FlashcardsScreen passes
    a function declared in the component body), in which case the
    completion effect, whose dependency array lists [onComplete], runs
    after every render. *)
Variable cards : list Flashcard.
Variable onCompleteFresh : bool.

Definition cards_length : Z := Z.of_nat (length cards).

(** Argument of [useState]. *)
Definition initialState : FlashcardState := mkState 0 false false 0.

(** Effect "Calculate progress whenever current card index changes". *)
Definition progressEffect (st : FlashcardState) : FlashcardState :=
  let newProgress :=
    if 0 <? cards_length
    then Double.mul
           (Double.div (inject_Z (currentCardIndex st)) (inject_Z cards_length))
           100
    else 0%Q in
  mkState (currentCardIndex st) (isFlipped st) (isComplete st) newProgress.

(** Effect "Check if deck is complete". *)
Definition completionEffect (st : FlashcardState) : FlashcardState :=
  if (cards_length <=? currentCardIndex st) && (0 <? cards_length)
  then mkState (currentCardIndex st) (isFlipped st) true (progress st)
  else st.

(** State after the hook has mounted: every effect has run once. *)
Definition mounted : FlashcardState :=
  completionEffect (progressEffect initialState).

(** One render after a [setState]: an effect runs when one of its
    dependencies differs from the previous render.  [cards.length] is fixed
    for a hook instance, so the progress effect depends on the index only.
    The updates the effects queue do not change the index, so a second pass
    changes nothing more. *)
Definition commit (prev next : FlashcardState) : FlashcardState :=
  let idxChanged := negb (currentCardIndex prev =? currentCardIndex next) in
  let s1 := if idxChanged then progressEffect next else next in
  if idxChanged || onCompleteFresh then completionEffect s1 else s1.

(** The [setState] call of each action; [None] when the action returns
    without calling [setState]. *)
Definition flipCard_update (st : FlashcardState) : option FlashcardState :=
  Some (mkState (currentCardIndex st) (negb (isFlipped st))
                (isComplete st) (progress st)).

Definition nextCard_update (st : FlashcardState) : option FlashcardState :=
  if currentCardIndex st <? cards_length - 1
  then Some (mkState (currentCardIndex st + 1) false
                     (isComplete st) (progress st))
  else Some (mkState cards_length false true (progress st)).

Definition previousCard_update (st : FlashcardState) : option FlashcardState :=
  if 0 <? currentCardIndex st
  then Some (mkState (currentCardIndex st - 1) false false (progress st))
  else None.

Definition goToCard_update (index : Z) (st : FlashcardState)
  : option FlashcardState :=
  if (0 <=? index) && (index <? cards_length)
  then Some (mkState index false false (progress st))
  else None.

Definition resetDeck_update (st : FlashcardState) : option FlashcardState :=
  Some (mkState 0 false false 0).

Definition dispatch (upd : FlashcardState -> option FlashcardState)
    (st : FlashcardState) : FlashcardState :=
  match upd st with
  | Some st' => commit st st'
  | None => st
  end.

Definition flipCard : FlashcardState -> FlashcardState :=
  dispatch flipCard_update.
Definition nextCard : FlashcardState -> FlashcardState :=
  dispatch nextCard_update.
Definition previousCard : FlashcardState -> FlashcardState :=
  dispatch previousCard_update.
Definition goToCard (index : Z) : FlashcardState -> FlashcardState :=
  dispatch (goToCard_update index).
Definition resetDeck : FlashcardState -> FlashcardState :=
  dispatch resetDeck_update.

Definition step (a : Action) : FlashcardState -> FlashcardState :=
  match a with
  | FlipCard => flipCard
  | NextCard => nextCard
  | PreviousCard => previousCard
  | GoToCard i => goToCard i
  | ResetDeck => resetDeck
  end.

(** Selectors. *)
Definition getCurrentCard (st : FlashcardState) : option Flashcard :=
  if currentCardIndex st <? cards_length
  then (if currentCardIndex st <? 0 then None
        else cards !! Z.to_nat (currentCardIndex st))
  else None.
Definition canGoNext (st : FlashcardState) : bool :=
  currentCardIndex st <? cards_length - 1.
Definition canGoPrevious (st : FlashcardState) : bool :=
  0 <? currentCardIndex st.
Definition isLastCard (st : FlashcardState) : bool :=
  currentCardIndex st =? cards_length - 1.
Definition isFirstCard (st : FlashcardState) : bool :=
  currentCardIndex st =? 0.

(** [n] consecutive calls of [nextCard]. *)
Fixpoint advance (n : nat) (st : FlashcardState) : FlashcardState :=
  match n with
  | O => st
  | S k => nextCard (advance k st)
  end.

(** States the hook can be in: the mounted state and whatever the actions
    produce from it. *)
Inductive reachable : FlashcardState -> Prop :=
| reach_mounted : reachable mounted
| reach_step a st : reachable st -> reachable (step a st).

(** The data-model invariant, in two parts. *)
Definition in_bounds (st : FlashcardState) : Prop :=
  0 <= currentCardIndex st <= cards_length.
Definition complete_iff (st : FlashcardState) : Prop :=
  currentCardIndex st = cards_length <-> isComplete st = true.

(** The value the progress effect assigns for the current index. *)
Definition progress_of_index (index : Z) : Q :=
  if 0 <? cards_length
  then Double.mul (Double.div (inject_Z index) (inject_Z cards_length)) 100
  else 0%Q.

(** The stored progress follows the index. *)
Definition synced (st : FlashcardState) : Prop :=
  (progress st == progress_of_index (currentCardIndex st))%Q.

End Hook.
End UseFlashcardState.

(** ** Persistence adapter *)

(** An awaited storage call either resolves with a value or rejects (the
    callers wrap every call in try/catch). *)
Inductive Promise (A : Type) :=
| Resolved (a : A)
| Rejected.
Arguments Resolved {A} a.
Arguments Rejected {A}.

Module FlashcardProgress.
Record t := mk {
  deckId : string;
  currentCardIndex : Z;
  completedAt : option string;
  totalStudyTime : Z;
  correctAnswers : Z;
  totalAnswers : Z;
}.
End FlashcardProgress.

Module DeckStatistics.
Record t := mk {
  deckId : string;
  timesCompleted : Z;
  averageScore : Z;
  lastCompletedAt : string;
  totalStudyTime : Z;
  favoriteCards : list string;
}.
End DeckStatistics.

Inductive StudyMode := sequential | random | spaced.

Module Storage.

(** Modelled from the spec: the key-value adapter imported from
    utils/storage is not among the sources.  The spec gives its contract as
    get(key) -> value | absent and set(key, value) -> success, over string
    keys holding JSON records.  The model has one typed slot for each key
    of STORAGE_KEYS that the session code reads or writes; [None] is an
    absent key.  [available] tells whether calls resolve or reject. *)
Record t := mk {
  available : bool;
  flashcard_progress : option (gmap string FlashcardProgress.t);
  completed_decks : option (list string);
  deck_statistics : option (gmap string DeckStatistics.t);
}.

Definition get {A} (slot : t -> option A) (s : t) : Promise (option A) :=
  if available s then Resolved (slot s) else Rejected.

Definition set_flashcard_progress
    (v : gmap string FlashcardProgress.t) (s : t) : Promise t :=
  if available s
  then Resolved (mk (available s) (Some v) (completed_decks s)
                    (deck_statistics s))
  else Rejected.

Definition set_completed_decks (v : list string) (s : t) : Promise t :=
  if available s
  then Resolved (mk (available s) (flashcard_progress s) (Some v)
                    (deck_statistics s))
  else Rejected.

Definition set_deck_statistics
    (v : gmap string DeckStatistics.t) (s : t) : Promise t :=
  if available s
  then Resolved (mk (available s) (flashcard_progress s)
                    (completed_decks s) (Some v))
  else Rejected.

End Storage.

(** ** flashcardUtils *)

Module FlashcardUtils.

(** Calculate completion percentage. *)
Definition calculateProgress (currentIndex totalCards : Z) : Z :=
  if totalCards =? 0 then 0
  else JS.Math_round
         (Double.mul
            (Double.div (inject_Z currentIndex) (inject_Z totalCards)) 100).

(** Calculate study score based on correct answers. *)
Definition calculateScore (correctAnswers totalAnswers : Z) : Z :=
  if totalAnswers =? 0 then 0
  else JS.Math_round
         (Double.mul
            (Double.div (inject_Z correctAnswers) (inject_Z totalAnswers)) 100).

(** The do-while loop of the 'random' mode: draw an index until it differs
    from the current one.  [draws] are the successive values of
    [Math.random()]; [None] when they run out before the loop exits. *)
Fixpoint drawOtherIndex (draws : list Q) (currentIndex totalCards : Z)
  : option Z :=
  match draws with
  | [] => None
  | r :: rest =>
      let nextIndex := JS.Math_floor (r * inject_Z totalCards)%Q in
      if nextIndex =? currentIndex
      then drawOtherIndex rest currentIndex totalCards
      else Some nextIndex
  end.

(** Get next card based on study mode.  The outer option is [None] only when
    the random loop has not finished; the inner one is the source's
    [number | null]. *)
Definition getNextCardIndex (draws : list Q)
    (currentIndex totalCards : Z) (studyMode : StudyMode)
  : option (option Z) :=
  match studyMode with
  | sequential =>
      Some (if currentIndex <? totalCards - 1
            then Some (currentIndex + 1) else None)
  | random =>
      if totalCards <=? 1 then Some None
      else match drawOtherIndex draws currentIndex totalCards with
           | Some j => Some (Some j)
           | None => None
           end
  | spaced =>
      Some (if currentIndex <? totalCards - 1
            then Some (currentIndex + 1) else None)
  end.

(** [x || {}] on a table read from storage. *)
Definition or_empty {V} (v : option (gmap string V)) : gmap string V :=
  match v with
  | Some m => m
  | None => ∅
  end.

(** Save flashcard progress to storage; a rejected call is logged and
    swallowed. *)
Definition saveProgress (deckId : string) (progress : FlashcardProgress.t)
    (s : Storage.t) : Storage.t :=
  match Storage.get Storage.flashcard_progress s with
  | Rejected => s
  | Resolved v =>
      let existingProgresses := <[deckId := progress]> (or_empty v) in
      match Storage.set_flashcard_progress existingProgresses s with
      | Resolved s' => s'
      | Rejected => s
      end
  end.

(** Load flashcard progress from storage. *)
Definition loadProgress (deckId : string) (s : Storage.t)
  : option FlashcardProgress.t :=
  match Storage.get Storage.flashcard_progress s with
  | Rejected => None
  | Resolved None => None
  | Resolved (Some progresses) => progresses !! deckId
  end.

(** Save deck statistics. *)
Definition saveDeckStatistics (deckId : string) (stats : DeckStatistics.t)
    (s : Storage.t) : Storage.t :=
  match Storage.get Storage.deck_statistics s with
  | Rejected => s
  | Resolved v =>
      let existingStats := <[deckId := stats]> (or_empty v) in
      match Storage.set_deck_statistics existingStats s with
      | Resolved s' => s'
      | Rejected => s
      end
  end.

(** Load deck statistics. *)
Definition loadDeckStatistics (deckId : string) (s : Storage.t)
  : option DeckStatistics.t :=
  match Storage.get Storage.deck_statistics s with
  | Rejected => None
  | Resolved None => None
  | Resolved (Some stats) => stats !! deckId
  end.

Definition includes (l : list string) (x : string) : bool :=
  existsb (String.eqb x) l.

(** Mark deck as completed. *)
Definition markDeckCompleted (deckId : string) (s : Storage.t) : Storage.t :=
  match Storage.get Storage.completed_decks s with
  | Rejected => s
  | Resolved v =>
      let completedDecks := default [] v in
      if includes completedDecks deckId then s
      else match Storage.set_completed_decks (completedDecks ++ [deckId]) s with
           | Resolved s' => s'
           | Rejected => s
           end
  end.

(** Reset all progress for a deck. *)
Definition resetDeckProgress (deckId : string) (s : Storage.t) : Storage.t :=
  match Storage.get Storage.flashcard_progress s with
  | Rejected => s
  | Resolved v =>
      match Storage.set_flashcard_progress (delete deckId (or_empty v)) s with
      | Rejected => s
      | Resolved s1 =>
          match Storage.get Storage.completed_decks s1 with
          | Rejected => s1
          | Resolved c =>
              let updatedCompleted :=
                filter (fun x => x ≠ deckId) (default [] c) in
              match Storage.set_completed_decks updatedCompleted s1 with
              | Resolved s2 => s2
              | Rejected => s1
              end
          end
      end
  end.

(** Check if deck is completed. *)
Definition isDeckCompleted (deckId : string) (s : Storage.t) : bool :=
  match Storage.get Storage.completed_decks s with
  | Rejected => false
  | Resolved v => includes (default [] v) deckId
  end.

(** Get all completed decks. *)
Definition getCompletedDecks (s : Storage.t) : list string :=
  match Storage.get Storage.completed_decks s with
  | Rejected => []
  | Resolved v => default [] v
  end.

(** The destructuring swap [[a[i], a[j]] = [a[j], a[i]]]: position [i]
    receives the old [a[j]], then position [j] the old [a[i]].  [None] when
    an index lies outside the array, which [Math.random() < 1] excludes in
    the callers below. *)
Definition swap {A : Type} (i j : nat) (a : list A) : option (list A) :=
  match a !! i, a !! j with
  | Some x, Some y => Some (<[j := x]> (<[i := y]> a))
  | _, _ => None
  end.

(** The loop of the Fisher-Yates shuffle from index [i] down to 1.
    [random n] is the value of the [n]-th coming call of [Math.random()]. *)
Fixpoint shuffleFrom {A : Type} (random : nat -> Q) (i : nat)
    (shuffled : list A) : option (list A) :=
  match i with
  | O => Some shuffled
  | S k =>
      let j := JS.Math_floor (random O * inject_Z (Z.of_nat (S k) + 1))%Q in
      if j <? 0 then None
      else match swap (S k) (Z.to_nat j) shuffled with
           | Some shuffled' => shuffleFrom (fun n => random (S n)) k shuffled'
           | None => None
           end
  end.

(** Every value of [Math.random()] lies in [0, 1). *)
Definition unit_random (random : nat -> Q) : Prop :=
  forall n, (0 <= random n)%Q /\ (random n < 1)%Q.

(** Shuffle an array of flashcards using Fisher-Yates algorithm. *)
Definition shuffleCards {A : Type} (random : nat -> Q) (cards : list A)
  : option (list A) :=
  shuffleFrom random (length cards - 1) cards.

(** [a.slice(0, end)]: a negative [end] counts from the end of the array. *)
Definition slice0 {A : Type} (e : Z) (a : list A) : list A :=
  let len := Z.of_nat (length a) in
  let k := if e <? 0 then Z.max (len + e) 0 else Z.min e len in
  take (Z.to_nat k) a.

(** Get random subset of cards for quick review. *)
Definition getRandomCards {A : Type} (random : nat -> Q) (cards : list A)
    (count : Z) : option (list A) :=
  if Z.of_nat (length cards) <=? count then shuffleCards random cards
  else slice0 count <$> shuffleCards random cards.

Inductive Difficulty := easy | medium | hard.

(** Get flashcards by difficulty (based on explanation length as a simple
    heuristic). *)
Definition filterByDifficulty (cards : list Flashcard)
    (difficulty : Difficulty) : list Flashcard :=
  List.filter
    (fun card =>
       let explanationLength := Z.of_nat (String.length (explanation card)) in
       match difficulty with
       | easy => explanationLength <? 200
       | medium => (200 <=? explanationLength) && (explanationLength <? 400)
       | hard => 400 <=? explanationLength
       end)
    cards.

End FlashcardUtils.

(** *** flashcardUtils: the study streak *)

Module StudyStreak.

(** The record kept under the key 'study_streak'.  A date string produced by
    [toDateString()] is modelled by the number of its calendar day, so that
    the day before [today] is [today - 1]. *)
Record t := mk {
  currentStreak : Z;
  longestStreak : Z;
  lastStudyDate : option Z;
}.

(** Modelled from the spec: the slot of the key-value adapter (not among the
    sources) for the key 'study_streak', with the contract of [Storage]. *)
Record Store := mkStore {
  available : bool;
  study_streak : option t;
}.

(** Get study streak information. *)
Definition getStudyStreak (s : Store) : t :=
  if available s then default (mk 0 0 None) (study_streak s)
  else mk 0 0 None.

(** Update study streak; [today] is the day of [new Date()]. *)
Definition updateStudyStreak (today : Z) (s : Store) : Store :=
  let streak := getStudyStreak s in
  if bool_decide (lastStudyDate streak = Some today) then s
  else
    let yesterday := today - 1 in
    let newCurrentStreak :=
      if bool_decide (lastStudyDate streak = Some yesterday)
      then currentStreak streak + 1 else 1 in
    let newLongestStreak := Z.max (longestStreak streak) newCurrentStreak in
    if available s
    then mkStore (available s)
           (Some (mk newCurrentStreak newLongestStreak (Some today)))
    else s.

(** A study session on each of [n] consecutive days, the last one on
    [day]. *)
Fixpoint studyDaily (n : nat) (day : Z) (s : Store) : Store :=
  match n with
  | O => s
  | S k => updateStudyStreak day (studyDaily k (day - 1) s)
  end.

End StudyStreak.

(** ** The useFlashcards hook *)

Module UseFlashcards.

Record FlashcardSession := mkSession {
  startTime : Z;
  currentCardTime : Z;
  totalAnswers : Z;
  correctAnswers : Z;
}.

(** The pieces of hook state the session actions read or write, together
    with the storage the hook persists to. *)
Record t := mk {
  state : FlashcardState;
  session : FlashcardSession;
  studyMode : StudyMode;
  storage : Storage.t;
}.

Section Hook.

(** [deck.id], the cards of the deck and the [autoSave] prop.  Shuffling
    permutes the cards and keeps their number; the actions below read
    [cards.length] only. *)
Variable deck_id : string.
Variable cards : list Flashcard.
Variable autoSave : bool.

Definition cards_length : Z := Z.of_nat (length cards).

Definition initialState : FlashcardState := mkState 0 false false 0.

(** Effect "Calculate progress whenever current card index changes". *)
Definition progressEffect (h : t) : t :=
  let st := state h in
  let newProgress :=
    FlashcardUtils.calculateProgress (currentCardIndex st) cards_length in
  mk (mkState (currentCardIndex st) (isFlipped st) (isComplete st)
              (inject_Z newProgress))
     (session h) (studyMode h) (storage h).

(** The statistics object built by [completeSession] and merged with the
    stored record when there is one.  [now] is [Date.now()] and [nowISO]
    is [new Date().toISOString()]. *)
Definition mergedStatistics (now : Z) (nowISO : string)
    (se : FlashcardSession) (existingStats : option DeckStatistics.t)
  : DeckStatistics.t :=
  let totalTime := (now - startTime se) / 1000 in
  let score :=
    FlashcardUtils.calculateScore (correctAnswers se) (totalAnswers se) in
  match existingStats with
  | None => DeckStatistics.mk deck_id 1 score nowISO totalTime []
  | Some existing =>
      let timesCompleted := DeckStatistics.timesCompleted existing + 1 in
      DeckStatistics.mk deck_id timesCompleted
        (JS.Math_round
           (inject_Z (DeckStatistics.averageScore existing
                      * DeckStatistics.timesCompleted existing + score)
            / inject_Z timesCompleted)%Q)
        nowISO
        (totalTime + DeckStatistics.totalStudyTime existing)
        (DeckStatistics.favoriteCards existing)
  end.

(** Effect "Handle completion", with its asynchronous body run to the
    end. *)
Definition completionEffect (now : Z) (nowISO : string) (h : t) : t :=
  let st := state h in
  if (cards_length <=? currentCardIndex st) && (0 <? cards_length)
     && negb (isComplete st)
  then
    let existingStats :=
      FlashcardUtils.loadDeckStatistics deck_id (storage h) in
    let statistics := mergedStatistics now nowISO (session h) existingStats in
    let s1 := FlashcardUtils.saveDeckStatistics deck_id statistics (storage h) in
    let s2 := FlashcardUtils.markDeckCompleted deck_id s1 in
    mk (mkState (currentCardIndex st) (isFlipped st) true (progress st))
       (session h) (studyMode h) s2
  else h.

(** One render after an action.  Every action that sets the state also
    replaces the session object, which is a dependency of the completion
    effect, so that effect runs each time; the progress effect runs when
    the index changed. *)
Definition commit (now : Z) (nowISO : string) (prev next : t) : t :=
  let idxChanged :=
    negb (currentCardIndex (state prev) =? currentCardIndex (state next)) in
  completionEffect now nowISO
    (if idxChanged then progressEffect next else next).

Definition touch (now : Z) (se : FlashcardSession) : FlashcardSession :=
  mkSession (startTime se) now (totalAnswers se) (correctAnswers se).

Definition flipCard (now : Z) (nowISO : string) (h : t) : t :=
  let st := state h in
  commit now nowISO h
    (mk (mkState (currentCardIndex st) (negb (isFlipped st))
                 (isComplete st) (progress st))
        (touch now (session h)) (studyMode h) (storage h)).

Definition nextCard (draws : list Q) (now : Z) (nowISO : string) (h : t)
  : option t :=
  let st := state h in
  match FlashcardUtils.getNextCardIndex draws (currentCardIndex st)
          cards_length (studyMode h) with
  | None => None
  | Some (Some nextIndex) =>
      Some (commit now nowISO h
              (mk (mkState nextIndex false (isComplete st) (progress st))
                  (touch now (session h)) (studyMode h) (storage h)))
  | Some None =>
      Some (commit now nowISO h
              (mk (mkState cards_length false (isComplete st) (progress st))
                  (touch now (session h)) (studyMode h) (storage h)))
  end.

Definition previousCard (now : Z) (nowISO : string) (h : t) : t :=
  let st := state h in
  if 0 <? currentCardIndex st
  then commit now nowISO h
         (mk (mkState (currentCardIndex st - 1) false false (progress st))
             (touch now (session h)) (studyMode h) (storage h))
  else h.

Definition goToCard (index : Z) (now : Z) (nowISO : string) (h : t) : t :=
  let st := state h in
  if (0 <=? index) && (index <? cards_length)
  then commit now nowISO h
         (mk (mkState index false false (progress st))
             (touch now (session h)) (studyMode h) (storage h))
  else h.

Definition resetDeck (now : Z) (nowISO : string) (h : t) : t :=
  commit now nowISO h
    (mk (mkState 0 false false 0)
        (mkSession now now 0 0)
        (studyMode h)
        (if autoSave
         then FlashcardUtils.resetDeckProgress deck_id (storage h)
         else storage h)).

Definition markAnswer (isCorrect : bool) (h : t) : t :=
  let se := session h in
  mk (state h)
     (mkSession (startTime se) (currentCardTime se) (totalAnswers se + 1)
                (correctAnswers se + (if isCorrect then 1 else 0)))
     (studyMode h) (storage h).

(** The [saveProgress] closure of the "Auto-save progress" effect, which a
    timer runs one second after the index or the session last changed. *)
Definition autoSaveProgress (now : Z) (h : t) : t :=
  if autoSave
  then
    let progress :=
      FlashcardProgress.mk deck_id (currentCardIndex (state h)) None
        ((now - startTime (session h)) / 1000)
        (correctAnswers (session h)) (totalAnswers (session h)) in
    mk (state h) (session h) (studyMode h)
       (FlashcardUtils.saveProgress deck_id progress (storage h))
  else h.

(** The part of [loadInitialData] that restores the saved progress when the
    hook mounts. *)
Definition restoreProgress (h : t) : t :=
  match FlashcardUtils.loadProgress deck_id (storage h) with
  | Some progress =>
      if FlashcardProgress.currentCardIndex progress <? cards_length
      then mk (mkState (FlashcardProgress.currentCardIndex progress)
                 (isFlipped (state h)) (isComplete (state h))
                 (inject_Z (FlashcardUtils.calculateProgress
                              (FlashcardProgress.currentCardIndex progress)
                              cards_length)))
              (session h) (studyMode h) (storage h)
      else h
  | None => h
  end.

(** The [shuffleCards] action: the cards state receives the shuffled deck
    and [setState] puts the index back to 0, spreading the other fields of
    the previous state.  The result is the new deck with the hook state
    after the render that follows: the progress effect runs for the new
    deck when the index changed; the guard of the completion effect,
    [currentCardIndex >= cards.length && cards.length > 0], is false at
    index 0.  [None] only outside the contract of [Math.random()]. *)
Definition shuffleCards (random : nat -> Q) (h : t)
  : option (list Flashcard * t) :=
  match FlashcardUtils.shuffleCards random cards with
  | None => None
  | Some shuffled =>
      let st := state h in
      let next :=
        mk (mkState 0 false (isComplete st) (progress st))
           (session h) (studyMode h) (storage h) in
      let idxChanged := negb (currentCardIndex st =? 0) in
      Some (shuffled,
            if idxChanged
            then mk (mkState 0 false (isComplete st)
                       (inject_Z (FlashcardUtils.calculateProgress 0
                                    (Z.of_nat (length shuffled)))))
                    (session h) (studyMode h) (storage h)
            else next)
  end.

(** [markAnswer] called once for each answer of a list, in order. *)
Definition answerAll (answers : list bool) (h : t) : t :=
  fold_left (fun h' isCorrect => markAnswer isCorrect h') answers h.

(** One session action; [None] only while the random draw of [nextCard]
    has not produced an index. *)
Definition step (draws : list Q) (now : Z) (nowISO : string) (a : Action)
    (h : t) : option t :=
  match a with
  | FlipCard => Some (flipCard now nowISO h)
  | NextCard => nextCard draws now nowISO h
  | PreviousCard => Some (previousCard now nowISO h)
  | GoToCard i => Some (goToCard i now nowISO h)
  | ResetDeck => Some (resetDeck now nowISO h)
  end.

Definition in_bounds (h : t) : Prop :=
  0 <= currentCardIndex (state h) <= cards_length.
Definition complete_iff (h : t) : Prop :=
  currentCardIndex (state h) = cards_length <-> isComplete (state h) = true.

(** Every value of [Math.random()] lies in [0, 1). *)
Definition unit_draws (draws : list Q) : Prop :=
  Forall (fun r => (0 <= r)%Q /\ (r < 1)%Q) draws.

(** State once the hook has mounted with no saved progress to restore: the
    progress effect has run; the guard of the completion effect is false
    at index 0. *)
Definition mounted (se : FlashcardSession) (mode : StudyMode)
    (sto : Storage.t) : t :=
  progressEffect (mk initialState se mode sto).

(** States the session actions and [markAnswer] produce from there. *)
Inductive reachable : t -> Prop :=
| reach_mounted se mode sto : reachable (mounted se mode sto)
| reach_step draws now nowISO a h h' :
    reachable h -> unit_draws draws ->
    step draws now nowISO a h = Some h' -> reachable h'
| reach_markAnswer isCorrect h :
    reachable h -> reachable (markAnswer isCorrect h).

(** In 'random' mode on a deck of two cards or more the session never
    completes: the index stays on a card. *)
Definition random_active (h : t) : Prop :=
  studyMode h = random -> 1 < cards_length ->
  currentCardIndex (state h) < cards_length /\ isComplete (state h) = false.

(** The data-model invariant; the link between the index and the flag is
    kept for non-empty decks. *)
Definition invariant (h : t) : Prop :=
  in_bounds h /\ (0 < cards_length -> complete_iff h) /\ random_active h.

(** The stored progress is the rounded percentage of the index. *)
Definition rounded (h : t) : Prop :=
  (progress (state h)
   == inject_Z (FlashcardUtils.calculateProgress
                  (currentCardIndex (state h)) cards_length))%Q.

End Hook.
End UseFlashcards.

(** ** Gestures *)

(** Payload of a pan gesture event at its end. *)
Record PanEvent := mkPan {
  translationX : Q;
  translationY : Q;
  velocityX : Q;
}.

(** The two swipe callbacks a recogniser can invoke. *)
Inductive SwipeCallback := onSwipeLeft | onSwipeRight.

(** *** src/hooks/useFlashcardGestures.ts *)

Module UseFlashcardGestures.

Record Props := mkProps {
  canSwipeLeft : bool;
  canSwipeRight : bool;
  disabled : bool;
}.

(** What [panGestureHandler.onEnd] does: return at once, spring back to
    the centre, or invoke a swipe callback. *)
Inductive Outcome :=
| Ignored
| ResetToCenter
| Swipe (cb : SwipeCallback).

Section Hook.

(** [Dimensions.get('window').width]. *)
Variable SCREEN_WIDTH : Q.

(** ENHANCED_GESTURE_CONFIG.  0.25 is a power of two, so the product with
    the window width is exact. *)
Definition SWIPE_THRESHOLD : Q := (SCREEN_WIDTH * (25 # 100))%Q.
Definition SWIPE_VELOCITY_THRESHOLD : Q := 300%Q.
Definition RAPID_GESTURE_COOLDOWN : Z := 150.

Definition shouldSwipeLeft (p : Props) (e : PanEvent) : bool :=
  (JS.gt (translationX e) SWIPE_THRESHOLD
   || (JS.gt (translationX e) 50 && JS.gt (velocityX e) SWIPE_VELOCITY_THRESHOLD))
  && canSwipeLeft p.

Definition shouldSwipeRight (p : Props) (e : PanEvent) : bool :=
  (JS.lt (translationX e) (- SWIPE_THRESHOLD)
   || (JS.lt (translationX e) (- (50))
       && JS.lt (velocityX e) (- SWIPE_VELOCITY_THRESHOLD)))
  && canSwipeRight p.

Definition onEnd (p : Props) (e : PanEvent) : Outcome :=
  if disabled p then Ignored
  else
    let absTranslationX := JS.Math_abs (translationX e) in
    let absTranslationY := JS.Math_abs (translationY e) in
    if JS.gt absTranslationY (Double.mul absTranslationX (Double.round (7 # 10)))
    then ResetToCenter
    else if shouldSwipeLeft p e then Swipe onSwipeLeft
    else if shouldSwipeRight p e then Swipe onSwipeRight
    else ResetToCenter.


(** Values [panGestureHandler.onActive] assigns to the shared values
    [translateX], [translateY], [rotateZ] and [opacity] when it does not
    return at once.  ([scale], which takes a square root, is left out.) *)
Definition activeTranslateX (e : PanEvent) : Q := translationX e.




(** [tapGestureHandler.onEnd] for an event in State.END: is [onTap]
    invoked?  [isAnimating] is the hook's shared value. *)
Definition tapOnEnd (p : Props) (isAnimating : bool) : bool :=
  negb (disabled p || isAnimating).

End Hook.
End UseFlashcardGestures.

(** *** src/components/FlashCard.tsx *)

Module FlashCardComponent.
Section Component.

Variable SCREEN_WIDTH : Q.

(** [handlePanGestureStateChange] for an event in State.END: the callback
    it invokes, if any.  The card always springs back to the centre. *)
Definition handlePanGestureStateChange (e : PanEvent) : option SwipeCallback :=
  let swipeThreshold := (SCREEN_WIDTH * (25 # 100))%Q in
  let velocityThreshold := 500%Q in
  if JS.gt (translationX e) swipeThreshold
     || JS.gt (velocityX e) velocityThreshold
  then Some onSwipeRight
  else if JS.lt (translationX e) (- swipeThreshold)
          || JS.lt (velocityX e) (- velocityThreshold)
  then Some onSwipeLeft
  else None.

End Component.
End FlashCardComponent.

(** ** src/screens/FlashcardsScreen.tsx *)

Module FlashcardsScreen.

(** State of the screen: the state of its useFlashcardState hook, its own
    [isComplete] and [isAnimating] states, the [lastSwipeTime] ref, the
    navigation scheduled by a swipe handler with [setTimeout] and not yet
    run, and the [isAnimating] shared value of its gesture hook. *)
Record t := mk {
  state : FlashcardState;
  screenIsComplete : bool;
  isAnimating : bool;
  lastSwipeTime : Z;
  pendingNavigation : option Action;
  gestureIsAnimating : bool;
}.

(** Things that happen to the screen, each with the time at which it
    happens where a statement needs it; only the swipe handlers read the
    clock.  [CardPanEnd] and [CardPress] are the pan and the press handled
    by the FlashCard component the screen renders; [NavigationTimeout] is
    the callback the swipe handlers give to [setTimeout] (200 ms);
    [Restart] is the button of the completion screen.

    [HookPanEnd], [HookTapEnd] and [GestureResetTimeout] belong to the
    useFlashcardGestures instance the screen creates with the props of
    [gestureProps]: the end of a pan and of a tap seen by its handlers and
    the callback it gives to [setTimeout] (300 ms).  FlashcardsScreen.tsx
    attaches neither handler to a view (of what the hook returns it uses
    [forceReset] only), so on the screen as written these three events do
    not occur; they describe that instance once a view attaches its
    handlers, as FlashcardComponent does. *)
Inductive Event :=
| HookPanEnd (now : Z) (e : PanEvent)
| HookTapEnd (now : Z)
| GestureResetTimeout
| CardPanEnd (now : Z) (e : PanEvent)
| CardPress (now : Z)
| NavigationTimeout
| Restart.

Section Screen.

(** The deck shown and the window width. *)
Variable cards : list Flashcard.
Variable SCREEN_WIDTH : Q.

Definition SWIPE_COOLDOWN : Z := 300.

(** The hook is called with [onComplete: handleDeckComplete], a function
    declared in the component body, hence a new closure on each render. *)
Definition hook (a : Action) : FlashcardState -> FlashcardState :=
  UseFlashcardState.step cards true a.

Definition initial : t :=
  mk (UseFlashcardState.mounted cards) false false 0 None false.

Definition currentCard (scr : t) : option Flashcard :=
  UseFlashcardState.getCurrentCard cards (state scr).
Definition canGoNext (scr : t) : bool :=
  UseFlashcardState.canGoNext cards (state scr).
Definition canGoPrevious (scr : t) : bool :=
  UseFlashcardState.canGoPrevious (state scr).

(** After a render the completion effect of the hook runs again (its
    [onComplete] dependency is new); when its guard holds it sets the
    hook's [isComplete] and calls [handleDeckComplete]. *)
Definition rendered (scr : t) : t :=
  if (UseFlashcardState.cards_length cards <=? currentCardIndex (state scr))
     && (0 <? UseFlashcardState.cards_length cards)
  then mk (UseFlashcardState.completionEffect cards (state scr)) true
          (isAnimating scr) (lastSwipeTime scr) (pendingNavigation scr)
          (gestureIsAnimating scr)
  else scr.

Definition handleSwipeLeft (now : Z) (scr : t) : t :=
  if (now - lastSwipeTime scr <? SWIPE_COOLDOWN) || isAnimating scr
  then scr
  else if canGoNext scr
  then mk (state scr) (screenIsComplete scr) true now (Some NextCard)
          (gestureIsAnimating scr)
  else mk (state scr) (screenIsComplete scr) (isAnimating scr) now
          (pendingNavigation scr) (gestureIsAnimating scr).

Definition handleSwipeRight (now : Z) (scr : t) : t :=
  if (now - lastSwipeTime scr <? SWIPE_COOLDOWN) || isAnimating scr
  then scr
  else if canGoPrevious scr
  then mk (state scr) (screenIsComplete scr) true now (Some PreviousCard)
          (gestureIsAnimating scr)
  else mk (state scr) (screenIsComplete scr) (isAnimating scr) now
          (pendingNavigation scr) (gestureIsAnimating scr).

(** The callback the swipe handlers pass to [setTimeout]. *)
Definition navigationTimeout (scr : t) : t :=
  match pendingNavigation scr with
  | None => scr
  | Some a =>
      rendered (mk (hook a (state scr)) (screenIsComplete scr) false
                   (lastSwipeTime scr) None (gestureIsAnimating scr))
  end.

Definition handleFlip (scr : t) : t :=
  if isAnimating scr then scr
  else rendered (mk (hook FlipCard (state scr)) (screenIsComplete scr)
                    (isAnimating scr) (lastSwipeTime scr)
                    (pendingNavigation scr) (gestureIsAnimating scr)).

Definition handleRestart (scr : t) : t :=
  rendered (mk (hook ResetDeck (state scr)) false (isAnimating scr)
               (lastSwipeTime scr) (pendingNavigation scr)
               (gestureIsAnimating scr)).

Definition invoke (cb : SwipeCallback) (now : Z) (scr : t) : t :=
  match cb with
  | onSwipeLeft => handleSwipeLeft now scr
  | onSwipeRight => handleSwipeRight now scr
  end.

(** Props handed to useFlashcardGestures. *)
Definition gestureProps (scr : t) : UseFlashcardGestures.Props :=
  UseFlashcardGestures.mkProps
    (canGoNext scr && negb (isAnimating scr))
    (canGoPrevious scr && negb (isAnimating scr))
    (screenIsComplete scr || negb (bool_decide (is_Some (currentCard scr)))).

Definition setGestureIsAnimating (b : bool) (scr : t) : t :=
  mk (state scr) (screenIsComplete scr) (isAnimating scr) (lastSwipeTime scr)
     (pendingNavigation scr) b.

Definition handle (ev : Event) (scr : t) : t :=
  match ev with
  | HookPanEnd now e =>
      match UseFlashcardGestures.onEnd SCREEN_WIDTH (gestureProps scr) e with
      | UseFlashcardGestures.Ignored => scr
      | UseFlashcardGestures.ResetToCenter => setGestureIsAnimating false scr
      | UseFlashcardGestures.Swipe cb =>
          invoke cb now (setGestureIsAnimating true scr)
      end
  | HookTapEnd now =>
      if UseFlashcardGestures.tapOnEnd (gestureProps scr)
           (gestureIsAnimating scr)
      then handleFlip scr else scr
  | GestureResetTimeout => setGestureIsAnimating false scr
  | CardPanEnd now e =>
      match currentCard scr with
      | None => scr
      | Some _ =>
          match FlashCardComponent.handlePanGestureStateChange SCREEN_WIDTH e with
          | Some cb => invoke cb now scr
          | None => scr
          end
      end
  | CardPress now =>
      match currentCard scr with
      | None => scr
      | Some _ => handleFlip scr
      end
  | NavigationTimeout => navigationTimeout scr
  | Restart => handleRestart scr
  end.

(** A card is on screen and nothing has completed: the index is on a card,
    neither completion flag is set, [isAnimating] is set exactly while a
    navigation is scheduled, and a scheduled advance has a next card to go
    to. *)
Definition on_card (scr : t) : Prop :=
  0 <= currentCardIndex (state scr) < UseFlashcardState.cards_length cards
  /\ isComplete (state scr) = false
  /\ screenIsComplete scr = false
  /\ match pendingNavigation scr with
     | None => isAnimating scr = false
     | Some NextCard =>
         isAnimating scr = true
         /\ currentCardIndex (state scr)
            < UseFlashcardState.cards_length cards - 1
     | Some PreviousCard => isAnimating scr = true
     | Some _ => False
     end.

(** Events handled one after the other. *)
Definition run (evs : list Event) (scr : t) : t :=
  fold_left (fun s ev => handle ev s) evs scr.

End Screen.
End FlashcardsScreen.

(** ** Specification-side definitions *)

(** The classification rule as the specification words it: a swipe when the
    distance or the speed exceeds its threshold and the drag is not
    vertical-dominant. *)
Definition spec_is_swipe (threshold_distance threshold_velocity : Q)
    (e : PanEvent) : bool :=
  (JS.gt (Qabs (translationX e)) threshold_distance
   || JS.gt (Qabs (velocityX e)) threshold_velocity)
  && Qle_bool (Qabs (translationY e)) ((7 # 10) * Qabs (translationX e)).

(** A deck of three cards. *)
Definition card (n : string) : Flashcard := mkFlashcard n n n n.
Definition deck3 : list Flashcard := [card "a"; card "b"; card "c"].

(** Drags used as examples: the specification's left swipe (Δx = -60 at
    -600 px/s), its vertical-dominant drag (Δy = 80, Δx = -40), here released
    at -600 px/s, and a short fast flick (Δx = 10 at 1000 px/s). *)
Definition left_drag : PanEvent := mkPan (- (60)) 0 (- (600)).
Definition vertical_drag : PanEvent := mkPan (- (40)) 80 (- (600)).
Definition short_flick : PanEvent := mkPan 10 0 1000.

(** A drag that ends 10 px to the right of its start while the finger moves
    back to the left at 600 px/s. *)
Definition back_flick : PanEvent := mkPan 10 0 (- (600)).

(** Two drags on the boundary of the vertical test: |Δy| is 0.7 times |Δx|
    in exact arithmetic. *)
Definition boundary_drag : PanEvent := mkPan 170 119 0.
Definition boundary_flick : PanEvent := mkPan 90 63 400.

(** A fresh session, an empty storage that answers, and the useFlashcards
    hook mounted on them in 'sequential' mode. *)
Definition session0 : UseFlashcards.FlashcardSession :=
  UseFlashcards.mkSession 0 0 0 0.
Definition storage0 : Storage.t := Storage.mk true None None None.
Definition hook0 : UseFlashcards.t :=
  UseFlashcards.mounted deck3 session0 sequential storage0.

(** The Complete state of [deck3], in each hook. *)
Definition complete3 : FlashcardState := mkState 3 false true 100.
Definition hook_complete3 : UseFlashcards.t :=
  UseFlashcards.mk complete3 session0 sequential storage0.


(** A stored record of two completions averaging 80 over 600 s, a session on
    the last card of [deck3] that answered 7 of 10 correctly, started at
    time 0, and a progress record. *)
Definition prior_statistics : DeckStatistics.t :=
  DeckStatistics.mk "deck" 2 80 "earlier" 600 [].
Definition last_card_hook : UseFlashcards.t :=
  UseFlashcards.mk (mkState 2 true false 67)
    (UseFlashcards.mkSession 0 0 10 7) sequential
    (Storage.mk true None None (Some {[ "deck" := prior_statistics ]})).
Definition progress1 : FlashcardProgress.t :=
  FlashcardProgress.mk "deck" 1 None 42 3 4.

(** A stored streak of three days, the longest so far five, last studied
    on day 99. *)
Definition streak_store : StudyStreak.Store :=
  StudyStreak.mkStore true (Some (StudyStreak.mk 3 5 (Some 99))).


(** The second of two presses is dropped when it comes less than [window]
    milliseconds after the first, as the specification words the rapid-fire
    suppression for flips. *)
Definition spec_second_flip_dropped (cards : list Flashcard)
    (SCREEN_WIDTH : Q) (window : Z) : Prop :=
  forall (scr : FlashcardsScreen.t) (t1 t2 : Z),
    t1 <= t2 < t1 + window ->
    FlashcardsScreen.run cards SCREEN_WIDTH
      [FlashcardsScreen.CardPress t1; FlashcardsScreen.CardPress t2] scr
    = FlashcardsScreen.handle cards SCREEN_WIDTH
        (FlashcardsScreen.CardPress t1) scr.

(** * Properties *)

(** ** Comparisons *)

Lemma gt_true (x y : Q) : JS.gt x y = true <-> (y < x)%Q.
Proof.
  unfold JS.gt. rewrite negb_true_iff, <- not_true_iff_false, Qle_bool_iff.
  split; [apply Qnot_le_lt | apply Qlt_not_le].
Qed.

Lemma gt_false (x y : Q) : JS.gt x y = false <-> (x <= y)%Q.
Proof. unfold JS.gt. now rewrite negb_false_iff, Qle_bool_iff. Qed.

Lemma lt_true (x y : Q) : JS.lt x y = true <-> (x < y)%Q.
Proof. apply gt_true. Qed.

Lemma lt_false (x y : Q) : JS.lt x y = false <-> (y <= x)%Q.
Proof. apply gt_false. Qed.

(** Boolean tests of the embedding turned into propositions. *)
Ltac reflect_tests :=
  repeat progress
    (rewrite ?andb_true_iff, ?andb_false_iff, ?orb_true_iff, ?orb_false_iff,
       ?negb_true_iff, ?negb_false_iff,
       ?Z.ltb_lt, ?Z.ltb_ge, ?Z.leb_le, ?Z.leb_gt, ?Z.eqb_eq, ?Z.eqb_neq,
       ?gt_true, ?gt_false, ?lt_true, ?lt_false in *).

Ltac split_tests :=
  repeat match goal with
    | |- context [if ?b then _ else _] => destruct b eqn:?
    end.

(** ** Rounding to the nearest double *)

Module DoubleFacts.
Import Double.

Lemma pow2_pos e : (0 < pow2 e)%Q.
Proof. unfold pow2. apply Qpower_0_lt. reflexivity. Qed.

Lemma pow2_add a b : (pow2 (a + b) == pow2 a * pow2 b)%Q.
Proof. unfold pow2. apply Qpower_plus. discriminate. Qed.

Lemma pow2_le a b : a <= b -> (pow2 a <= pow2 b)%Q.
Proof. intros H. unfold pow2. apply Qpower_le_compat_l; [exact H | discriminate]. Qed.

Lemma pow2_lt a b : a < b -> (pow2 a < pow2 b)%Q.
Proof. intros H. unfold pow2. apply Qpower_lt_compat_l; [exact H | reflexivity]. Qed.

Lemma pow2_lt_inv a b : (pow2 a < pow2 b)%Q -> a < b.
Proof. intros H. eapply Qpower_lt_compat_l_inv; [exact H | reflexivity]. Qed.

Lemma pow2_Z k : 0 <= k -> (pow2 k == inject_Z (2 ^ k))%Q.
Proof. intros H. unfold pow2. now rewrite Zpower_Qpower. Qed.

Lemma pow2_S a : (pow2 (a + 1) == 2 * pow2 a)%Q.
Proof. rewrite pow2_add. change (pow2 1) with 2%Q. ring. Qed.

(** [2^E <= x < 2^(E+1)] for [E = ilog2 x]. *)
Lemma ilog2_spec x :
  (0 < x)%Q -> (pow2 (ilog2 x) <= x)%Q /\ (x < pow2 (ilog2 x + 1))%Q.
Proof.
  intros Hx. destruct x as [p q]. 
  assert (Hp : 0 < p) by (unfold Qlt in Hx; simpl in Hx; lia).
  unfold ilog2. cbn [Qnum Qden].
  set (a := Z.log2 p). set (b := Z.log2 (Z.pos q)).
  destruct (Z.log2_spec p Hp) as [Ha1 Ha2]. fold a in Ha1, Ha2.
  destruct (Z.log2_spec (Z.pos q) ltac:(lia)) as [Hb1 Hb2]. fold b in Hb1, Hb2.
  assert (Ha0 : 0 <= a) by apply Z.log2_nonneg.
  assert (Hb0 : 0 <= b) by apply Z.log2_nonneg.
  assert (Hx' : (p # q == inject_Z p / inject_Z (Z.pos q))%Q) by apply Qmake_Qdiv.
  assert (Hq : (0 < inject_Z (Z.pos q))%Q) by reflexivity.
  (* bounds of x by powers of two *)
  assert (Hup : (p # q < pow2 (a - b + 1))%Q).
  { rewrite Hx'. apply Qlt_shift_div_r; [exact Hq|].
    apply Qlt_le_trans with (pow2 (a + 1)).
    - rewrite pow2_Z by lia. rewrite <- Zlt_Qlt.
      replace (a + 1) with (Z.succ a) by lia. exact Ha2.
    - replace (a + 1) with ((a - b + 1) + b) by lia.
      rewrite pow2_add. apply Qmult_le_l; [apply pow2_pos|].
      rewrite pow2_Z by lia. now rewrite <- Zle_Qle. }
  assert (Hlo : (pow2 (a - b - 1) <= p # q)%Q).
  { rewrite Hx'. apply Qle_shift_div_l; [exact Hq|].
    apply Qle_trans with (pow2 a).
    - replace a with ((a - b - 1) + (b + 1)) at 2 by lia.
      rewrite pow2_add. apply Qmult_le_l; [apply pow2_pos|].
      rewrite pow2_Z by lia. rewrite <- Zle_Qle.
      replace (b + 1) with (Z.succ b) by lia. lia.
    - rewrite pow2_Z by lia. now rewrite <- Zle_Qle. }
  destruct (Qle_bool (pow2 (a - b)) (p # q)) eqn:E.
  - apply Qle_bool_iff in E. split; assumption.
  - assert (E' : ~ (pow2 (a - b) <= p # q)%Q)
      by (intros H; apply Qle_bool_iff in H; congruence).
    apply Qnot_le_lt in E'. split; [exact Hlo|].
    replace (a - b - 1 + 1) with (a - b) by lia. exact E'.
Qed.

Lemma ilog2_unique x E :
  (pow2 E <= x)%Q -> (x < pow2 (E + 1))%Q -> ilog2 x = E.
Proof.
  intros H1 H2.
  assert (Hx : (0 < x)%Q) by (eapply Qlt_le_trans; [apply pow2_pos | exact H1]).
  destruct (ilog2_spec x Hx) as [H3 H4].
  assert (E < ilog2 x + 1)
    by (apply pow2_lt_inv; eapply Qle_lt_trans; eassumption).
  assert (ilog2 x < E + 1)
    by (apply pow2_lt_inv; eapply Qle_lt_trans; eassumption).
  lia.
Qed.

Lemma ilog2_le x y : (0 < x)%Q -> (x <= y)%Q -> ilog2 x <= ilog2 y.
Proof.
  intros Hx Hxy.
  assert (Hy : (0 < y)%Q) by (eapply Qlt_le_trans; eassumption).
  destruct (ilog2_spec x Hx) as [H1 _]. destruct (ilog2_spec y Hy) as [_ H2].
  assert (ilog2 x < ilog2 y + 1); [|lia].
  apply pow2_lt_inv. eapply Qle_lt_trans; [exact H1|].
  eapply Qle_lt_trans; eassumption.
Qed.

Lemma ilog2_lt_pow2 x k : (0 < x)%Q -> (x < pow2 k)%Q -> ilog2 x < k.
Proof.
  intros Hx Hk. destruct (ilog2_spec x Hx) as [H1 _].
  apply pow2_lt_inv. eapply Qle_lt_trans; eassumption.
Qed.

(** *** Rounding to the nearest integer, ties to even *)

Lemma nearest_even_cases x :
  let f := Qfloor x in
  (nearest_even x = f /\ (x - inject_Z f <= 1 # 2)%Q
   /\ ((x - inject_Z f == 1 # 2)%Q -> Z.even f = true))
  \/ (nearest_even x = f + 1 /\ (1 # 2 <= x - inject_Z f)%Q
      /\ ((x - inject_Z f == 1 # 2)%Q -> Z.even f = false)).
Proof.
  intros f. unfold nearest_even. fold f.
  destruct (Qcompare_spec (x - inject_Z f) (1 # 2)) as [E|E|E].
  - destruct (Z.even f) eqn:Ev.
    + left. split; [reflexivity|]. split; [rewrite E; apply Qle_refl | auto].
    + right. split; [reflexivity|]. split; [rewrite E; apply Qle_refl | auto].
  - left. split; [reflexivity|].
    split; [now apply Qlt_le_weak|]. intros H. rewrite H in E. discriminate.
  - right. split; [reflexivity|].
    split; [now apply Qlt_le_weak|]. intros H. rewrite H in E. discriminate.
Qed.

Lemma Qfloor_bounds x :
  (inject_Z (Qfloor x) <= x)%Q /\ (x < inject_Z (Qfloor x) + 1)%Q.
Proof.
  split; [apply Qfloor_le|].
  pose proof (Qlt_floor x) as H. rewrite inject_Z_plus in H. exact H.
Qed.

Lemma nearest_even_le x y :
  (x <= y)%Q -> nearest_even x <= nearest_even y.
Proof.
  intros Hxy.
  pose proof (Qfloor_resp_le x y Hxy) as Hf.
  destruct (nearest_even_cases x) as [(Hx & Hx1 & Hx2) | (Hx & Hx1 & Hx2)];
    destruct (nearest_even_cases y) as [(Hy & Hy1 & Hy2) | (Hy & Hy1 & Hy2)];
    rewrite Hx, Hy; try lia.
  (* x rounds up, y rounds down *)
  destruct (Z.eq_dec (Qfloor x) (Qfloor y)) as [He|He]; [|lia].
  exfalso. rewrite He in Hx1, Hx2.
  assert (Hy3 : (y - inject_Z (Qfloor y) == 1 # 2)%Q) by lra.
  assert (Hx3 : (x - inject_Z (Qfloor y) == 1 # 2)%Q) by lra.
  specialize (Hx2 Hx3). specialize (Hy2 Hy3). congruence.
Qed.

Lemma nearest_even_comp x y : (x == y)%Q -> nearest_even x = nearest_even y.
Proof.
  intros H. apply Z.le_antisymm; apply nearest_even_le; rewrite H; apply Qle_refl.
Qed.

Lemma nearest_even_Z k : nearest_even (inject_Z k) = k.
Proof.
  unfold nearest_even. rewrite Qfloor_Z.
  assert (H : (inject_Z k - inject_Z k ?= 1 # 2)%Q = Lt).
  { apply -> Qlt_alt. setoid_replace (inject_Z k - inject_Z k)%Q with 0%Q using relation Qeq by ring.
    reflexivity. }
  now rewrite H.
Qed.

Lemma nearest_even_error x :
  (Qabs (inject_Z (nearest_even x) - x) <= 1 # 2)%Q.
Proof.
  destruct (Qfloor_bounds x) as [H1 H2].
  apply Qabs_Qle_condition.
  destruct (nearest_even_cases x) as [(Hx & Hx1 & _) | (Hx & Hx1 & _)];
    rewrite Hx.
  - lra.
  - rewrite inject_Z_plus. change (inject_Z 1) with 1%Q. lra.
Qed.

(** *** Rounding of a positive number *)

Lemma ulp_exponent_le x y :
  (0 < x)%Q -> (x <= y)%Q -> ulp_exponent x <= ulp_exponent y.
Proof.
  intros Hx Hxy. unfold ulp_exponent.
  pose proof (ilog2_le x y Hx Hxy). lia.
Qed.

Lemma round_pos_nonneg x : (0 <= x)%Q -> (0 <= round_pos x)%Q.
Proof.
  intros Hx. unfold round_pos.
  apply Qmult_le_0_compat; [|apply Qlt_le_weak, pow2_pos].
  change 0%Q with (inject_Z 0). rewrite <- Zle_Qle.
  rewrite <- (nearest_even_Z 0). apply nearest_even_le.
  change (inject_Z 0) with 0%Q.
  apply Qle_shift_div_l; [apply pow2_pos|]. lra.
Qed.

(** A value of the grid of [x] that bounds [x] also bounds its rounding. *)
Lemma round_pos_le_grid x k :
  (x <= inject_Z k * pow2 (ulp_exponent x))%Q ->
  (round_pos x <= inject_Z k * pow2 (ulp_exponent x))%Q.
Proof.
  intros H. unfold round_pos.
  apply Qmult_le_compat_r; [|apply Qlt_le_weak, pow2_pos].
  rewrite <- Zle_Qle. rewrite <- (nearest_even_Z k). apply nearest_even_le.
  apply Qle_shift_div_r; [apply pow2_pos | exact H].
Qed.

Lemma round_pos_ge_grid x k :
  (inject_Z k * pow2 (ulp_exponent x) <= x)%Q ->
  (inject_Z k * pow2 (ulp_exponent x) <= round_pos x)%Q.
Proof.
  intros H. unfold round_pos.
  apply Qmult_le_compat_r; [|apply Qlt_le_weak, pow2_pos].
  rewrite <- Zle_Qle. rewrite <- (nearest_even_Z k) at 1. apply nearest_even_le.
  apply Qle_shift_div_l; [apply pow2_pos | exact H].
Qed.

(** A power of two at or above the grid step is on the grid. *)
Lemma pow2_on_grid e k :
  e <= k -> (pow2 k == inject_Z (2 ^ (k - e)) * pow2 e)%Q.
Proof.
  intros H. rewrite <- pow2_Z by lia. rewrite <- pow2_add.
  now replace (k - e + e) with k by lia.
Qed.

Lemma round_pos_le x y :
  (0 < x)%Q -> (x <= y)%Q -> (round_pos x <= round_pos y)%Q.
Proof.
  intros Hx Hxy.
  assert (Hy : (0 < y)%Q) by (eapply Qlt_le_trans; eassumption).
  pose proof (ulp_exponent_le x y Hx Hxy) as He.
  destruct (Z.eq_dec (ulp_exponent x) (ulp_exponent y)) as [Heq|Hne].
  - unfold round_pos. rewrite Heq.
    apply Qmult_le_compat_r; [|apply Qlt_le_weak, pow2_pos].
    rewrite <- Zle_Qle. apply nearest_even_le.
    apply Qmult_le_compat_r; [exact Hxy|].
    apply Qlt_le_weak, Qinv_lt_0_compat, pow2_pos.
  - assert (Hlt : ulp_exponent x < ulp_exponent y) by lia.
    pose proof (ilog2_le x y Hx Hxy) as Hl.
    destruct (ilog2_spec x Hx) as [_ Hx2]. destruct (ilog2_spec y Hy) as [Hy1 _].
    unfold ulp_exponent in Hlt.
    set (B := Z.max (ilog2 x + 1) (ulp_exponent x)).
    apply Qle_trans with (pow2 B).
    + rewrite (pow2_on_grid (ulp_exponent x) B) by (unfold B; lia).
      apply round_pos_le_grid.
      rewrite <- (pow2_on_grid (ulp_exponent x) B) by (unfold B; lia).
      apply Qlt_le_weak. eapply Qlt_le_trans; [exact Hx2|].
      apply pow2_le. unfold B. lia.
    + apply Qle_trans with (pow2 (ilog2 y)).
      * apply pow2_le. unfold B, ulp_exponent. lia.
      * rewrite (pow2_on_grid (ulp_exponent y) (ilog2 y))
          by (unfold ulp_exponent; lia).
        apply round_pos_ge_grid.
        rewrite <- (pow2_on_grid (ulp_exponent y) (ilog2 y))
          by (unfold ulp_exponent; lia).
        exact Hy1.
Qed.

Lemma round_pos_error x :
  (Qabs (round_pos x - x) <= pow2 (ulp_exponent x) * (1 # 2))%Q.
Proof.
  unfold round_pos. set (e := ulp_exponent x).
  pose proof (pow2_pos e) as Hp.
  pose proof (nearest_even_error (x / pow2 e)) as H.
  assert (Heq : (inject_Z (nearest_even (x / pow2 e)) * pow2 e - x
                 == (inject_Z (nearest_even (x / pow2 e)) - x / pow2 e) * pow2 e)%Q).
  { field. intros H0. rewrite H0 in Hp. discriminate. }
  rewrite Heq, Qabs_Qmult, (Qabs_pos (pow2 e)) by now apply Qlt_le_weak.
  rewrite (Qmult_comm (pow2 e)).
  apply Qmult_le_compat_r; [exact H | now apply Qlt_le_weak].
Qed.

(** *** The rounding function *)

Lemma round_le x y : (x <= y)%Q -> (round x <= round y)%Q.
Proof.
  intros Hxy. unfold round.
  destruct (Qcompare_spec x 0) as [Ex|Ex|Ex];
    destruct (Qcompare_spec y 0) as [Ey|Ey|Ey]; try lra.
  - apply round_pos_nonneg. lra.
  - assert (0 <= round_pos (- x))%Q by (apply round_pos_nonneg; lra). lra.
  - assert (round_pos (- y) <= round_pos (- x))%Q
      by (apply round_pos_le; lra). lra.
  - assert (0 <= round_pos (- x))%Q by (apply round_pos_nonneg; lra).
    assert (0 <= round_pos y)%Q by (apply round_pos_nonneg; lra). lra.
  - now apply round_pos_le.
Qed.

Lemma round_comp x y : (x == y)%Q -> (round x == round y)%Q.
Proof.
  intros H. apply Qle_antisym; apply round_le; rewrite H; apply Qle_refl.
Qed.

#[global] Instance round_Proper : Proper (Qeq ==> Qeq) round.
Proof. intros x y H. now apply round_comp. Qed.

#[global] Instance mul_Proper : Proper (Qeq ==> Qeq ==> Qeq) mul.
Proof. intros x y H x' y' H'. unfold mul. now rewrite H, H'. Qed.

#[global] Instance div_Proper : Proper (Qeq ==> Qeq ==> Qeq) div.
Proof. intros x y H x' y' H'. unfold div. now rewrite H, H'. Qed.

Lemma round_nonneg x : (0 <= x)%Q -> (0 <= round x)%Q.
Proof. intros H. change 0%Q with (round 0) at 1. now apply round_le. Qed.

(** The error of a rounding is at most half a unit in the last place. *)
Lemma round_error x k :
  (0 <= x)%Q -> (x < pow2 k)%Q -> -1021 <= k ->
  (Qabs (round x - x) <= pow2 (k - 54))%Q.
Proof.
  intros H0 Hk Hn. unfold round.
  destruct (Qcompare_spec x 0) as [Ex|Ex|Ex]; try lra.
  - rewrite Ex. setoid_replace (0 - 0)%Q with 0%Q using relation Qeq by ring.
    apply Qlt_le_weak, pow2_pos.
  - eapply Qle_trans; [apply round_pos_error|].
    assert (He : ulp_exponent x <= k - 53).
    { unfold ulp_exponent. pose proof (ilog2_lt_pow2 x k Ex Hk). lia. }
    apply Qle_trans with (pow2 (k - 53) * (1 # 2))%Q.
    + apply Qmult_le_compat_r; [now apply pow2_le | discriminate].
    + replace (k - 53) with ((k - 54) + 1) by lia. rewrite pow2_S.
      apply Qle_lteq. right. ring.
Qed.

(** With at least one normal binade below [x] the error is relative. *)
Lemma round_relative_error x :
  (pow2 (-1022) <= x)%Q -> (Qabs (round x - x) <= x * pow2 (-53))%Q.
Proof.
  intros Hx.
  assert (H0 : (0 < x)%Q) by (eapply Qlt_le_trans; [apply pow2_pos | exact Hx]).
  destruct (ilog2_spec x H0) as [H1 H2].
  assert (Hk : -1022 <= ilog2 x).
  { assert (-1022 < ilog2 x + 1); [|lia].
    apply pow2_lt_inv. eapply Qle_lt_trans; eassumption. }
  eapply Qle_trans; [apply (round_error x (ilog2 x + 1)); [lra | exact H2 | lia]|].
  replace (ilog2 x + 1 - 54) with (ilog2 x + -53) by lia.
  rewrite pow2_add. apply Qmult_le_compat_r; [exact H1|].
  apply Qlt_le_weak, pow2_pos.
Qed.

(** Small integers are doubles. *)
Lemma round_0 : round 0 = 0%Q.
Proof. reflexivity. Qed.

Lemma round_1 : (round 1 == 1)%Q.
Proof. vm_compute. reflexivity. Qed.

Lemma round_100 : (round 100 == 100)%Q.
Proof. vm_compute. reflexivity. Qed.

(** The literal 0.7 is the double 3152519739159347 / 2^52, just below
    7/10. *)
Lemma literal_07 :
  (round (7 # 10) == 3152519739159347 # 4503599627370496)%Q.
Proof. vm_compute. reflexivity. Qed.

End DoubleFacts.

(** ** Agreement of the rounding with the machine's doubles *)

Module DoubleCheck.
Import Binary64.

(** The literal 0.7, the percentages (i / n) * 100 for 0 ≤ i ≤ n ≤ 200 and
    the products x * 0.7 for 0 ≤ x ≤ 400, computed with Rocq's primitive
    binary64 numbers, are the values of [Double.round], [Double.div] and
    [Double.mul]. *)
Lemma literal_matches_binary64 :
  agrees 0x1.6666666666666p-1%float (Double.round (7 # 10)) = true.
Proof. vm_compute. reflexivity. Qed.

Lemma percent_matches_binary64 :
  forallb
    (fun n =>
       forallb
         (fun i =>
            agrees (percent i n)
              (Double.mul (Double.div (inject_Z i) (inject_Z n)) 100))
         (upto (Z.to_nat n)))
    (tl (upto 200))
  = true.
Proof. vm_compute. reflexivity. Qed.

Lemma seventy_percent_matches_binary64 :
  forallb
    (fun x =>
       agrees (seventy_percent x)
         (Double.mul (inject_Z x) (Double.round (7 # 10))))
    (upto 400)
  = true.
Proof. vm_compute. reflexivity. Qed.

End DoubleCheck.

(** ** useFlashcardState: the session state machine *)

Module SessionFacts.
Import UseFlashcardState.

Section Facts.

Variable cards : list Flashcard.
Variable fresh : bool.

Local Abbreviation len := (cards_length cards).

Lemma cards_length_nonneg : 0 <= len.
Proof. unfold cards_length. lia. Qed.

Lemma cards_length_pos : cards ≠ [] -> 0 < len.
Proof. unfold cards_length. destruct cards; [congruence | simpl; lia]. Qed.

Lemma commit_index prev next :
  currentCardIndex (commit cards fresh prev next) = currentCardIndex next.
Proof.
  unfold commit, completionEffect, progressEffect.
  split_tests; reflexivity.
Qed.

Lemma commit_isFlipped prev next :
  isFlipped (commit cards fresh prev next) = isFlipped next.
Proof.
  unfold commit, completionEffect, progressEffect.
  split_tests; reflexivity.
Qed.

(** After a render the flag is the one just set, raised when the index has
    reached the end of a non-empty deck and the completion effect ran. *)
Lemma commit_isComplete prev next :
  isComplete (commit cards fresh prev next) = true <->
  isComplete next = true \/
  (len <= currentCardIndex next /\ 0 < len /\
   (currentCardIndex prev ≠ currentCardIndex next \/ fresh = true)).
Proof.
  unfold commit, completionEffect, progressEffect.
  split_tests; simpl in *; reflect_tests; simpl in *;
    intuition (try lia; try congruence).
Qed.

Lemma mounted_in_bounds : in_bounds cards (mounted cards).
Proof.
  pose proof cards_length_nonneg.
  unfold in_bounds, mounted, completionEffect, progressEffect, initialState.
  simpl. split_tests; simpl; lia.
Qed.

Lemma mounted_complete_iff : cards ≠ [] -> complete_iff cards (mounted cards).
Proof.
  intros Hne. pose proof (cards_length_pos Hne).
  unfold complete_iff, mounted, completionEffect, progressEffect, initialState.
  simpl. split_tests; simpl; reflect_tests; split; intros; (lia || congruence).
Qed.

Lemma step_index a st :
  currentCardIndex (step cards fresh a st) =
  match a with
  | FlipCard => currentCardIndex st
  | NextCard =>
      if currentCardIndex st <? len - 1 then currentCardIndex st + 1 else len
  | PreviousCard =>
      if 0 <? currentCardIndex st then currentCardIndex st - 1
      else currentCardIndex st
  | GoToCard i =>
      if (0 <=? i) && (i <? len) then i else currentCardIndex st
  | ResetDeck => 0
  end.
Proof.
  destruct a; simpl;
    unfold flipCard, nextCard, previousCard, goToCard, resetDeck, dispatch,
      flipCard_update, nextCard_update, previousCard_update, goToCard_update,
      resetDeck_update;
    split_tests; rewrite ?commit_index; reflexivity.
Qed.

Lemma step_in_bounds a st :
  in_bounds cards st -> in_bounds cards (step cards fresh a st).
Proof.
  pose proof cards_length_nonneg.
  unfold in_bounds. rewrite step_index.
  destruct a; split_tests; reflect_tests; lia.
Qed.

(** An action that moves the index leaves the card face down. *)
Lemma step_resets_flip a st :
  currentCardIndex (step cards fresh a st) ≠ currentCardIndex st ->
  isFlipped (step cards fresh a st) = false.
Proof.
  destruct a; simpl;
    unfold flipCard, nextCard, previousCard, goToCard, resetDeck, dispatch,
      flipCard_update, nextCard_update, previousCard_update, goToCard_update,
      resetDeck_update;
    split_tests; rewrite ?commit_index, ?commit_isFlipped; simpl;
    congruence.
Qed.

Lemma step_complete_iff a st :
  0 < len -> in_bounds cards st -> complete_iff cards st ->
  complete_iff cards (step cards fresh a st).
Proof.
  intros Hpos Hb [Hc1 Hc2]. unfold in_bounds in Hb.
  assert (Hnc : currentCardIndex st < len -> isComplete st = false).
  { intros Hlt. destruct (isComplete st); [|reflexivity].
    specialize (Hc2 eq_refl). lia. }
  unfold complete_iff.
  destruct a; simpl;
    unfold flipCard, nextCard, previousCard, goToCard, resetDeck, dispatch,
      flipCard_update, nextCard_update, previousCard_update, goToCard_update,
      resetDeck_update;
    split_tests; try (split; assumption);
    rewrite commit_index, commit_isComplete; simpl; reflect_tests;
    (split; [ intros He | intros [Ht | (Hge & _ & _)] ]);
    try lia; try congruence; try tauto;
    try (rewrite Hnc in Ht by lia; discriminate).
Qed.

Lemma reachable_in_bounds st : reachable cards fresh st -> in_bounds cards st.
Proof.
  induction 1 as [|a st _ IH]; [apply mounted_in_bounds|].
  now apply step_in_bounds.
Qed.

Lemma reachable_complete_iff st :
  cards ≠ [] -> reachable cards fresh st -> complete_iff cards st.
Proof.
  intros Hne. induction 1 as [|a st Hr IH]; [now apply mounted_complete_iff|].
  apply step_complete_iff;
    [now apply cards_length_pos | now apply reachable_in_bounds | exact IH].
Qed.

(** *** Consecutive advances *)

Lemma mounted_index : currentCardIndex (mounted cards) = 0.
Proof.
  unfold mounted, completionEffect, progressEffect, initialState.
  simpl. split_tests; reflexivity.
Qed.

Lemma advance_reachable n :
  reachable cards fresh (advance cards fresh n (mounted cards)).
Proof.
  induction n as [|n IH]; simpl; [constructor|].
  exact (reach_step cards fresh NextCard _ IH).
Qed.

Lemma advance_index n :
  currentCardIndex (advance cards fresh n (mounted cards))
  = Z.min (Z.of_nat n) len.
Proof.
  pose proof cards_length_nonneg.
  induction n as [|n IH].
  - simpl. rewrite mounted_index. lia.
  - change (advance cards fresh (S n) (mounted cards))
      with (step cards fresh NextCard (advance cards fresh n (mounted cards))).
    rewrite step_index, IH. split_tests; reflect_tests; lia.
Qed.

(** On an empty deck the first [nextCard] already sets the flag. *)
Lemma advance_empty_complete n :
  cards = [] -> n ≠ 0%nat ->
  isComplete (advance cards fresh n (mounted cards)) = true.
Proof.
  intros He Hn. destruct n as [|n]; [congruence|].
  pose proof (advance_index n) as Hi.
  assert (Hl : len = 0) by (rewrite He; reflexivity).
  simpl. unfold nextCard, dispatch, nextCard_update.
  split_tests; reflect_tests; [lia|].
  apply commit_isComplete. left. reflexivity.
Qed.

(** *** The Complete state *)





(** *** A jump outside the deck *)

Lemma goToCard_invalid i st :
  i < 0 \/ len <= i -> goToCard cards fresh i st = st.
Proof.
  intros Hi. unfold goToCard, dispatch, goToCard_update.
  split_tests; reflect_tests; [lia | reflexivity].
Qed.

End Facts.
End SessionFacts.

(** ** Percentages and rounding *)

Module PercentFacts.
Import Double DoubleFacts.

(** The double [(i / n) * 100]. *)
Local Abbreviation percent i n :=
  (mul (div (inject_Z i) (inject_Z n)) 100).

Lemma quotient_le (i j n : Z) :
  0 < n -> i <= j -> (inject_Z i / inject_Z n <= inject_Z j / inject_Z n)%Q.
Proof.
  intros Hn Hij. unfold Qdiv. apply Qmult_le_compat_r.
  - now rewrite <- Zle_Qle.
  - apply Qinv_le_0_compat. change 0%Q with (inject_Z 0).
    rewrite <- Zle_Qle. lia.
Qed.

Lemma quotient_n_n (n : Z) : 0 < n -> (inject_Z n / inject_Z n == 1)%Q.
Proof.
  intros Hn. unfold Qdiv. rewrite Qmult_inv_r; [reflexivity|].
  change 0%Q with (inject_Z 0). rewrite inject_Z_injective. lia.
Qed.

Lemma percent_le (i j n : Z) :
  0 < n -> i <= j -> (percent i n <= percent j n)%Q.
Proof.
  intros Hn Hij. unfold mul, div. apply round_le.
  apply Qmult_le_compat_r; [|discriminate].
  apply round_le. now apply quotient_le.
Qed.

Lemma percent_zero (n : Z) : (percent 0 n == 0)%Q.
Proof.
  unfold mul, div.
  assert (H : (inject_Z 0 / inject_Z n == 0)%Q)
    by (unfold Qdiv; now rewrite Qmult_0_l).
  rewrite H, round_0. rewrite Qmult_0_l. now rewrite round_0.
Qed.

Lemma percent_full (n : Z) : 0 < n -> (percent n n == 100)%Q.
Proof.
  intros Hn. unfold mul, div.
  rewrite (quotient_n_n n Hn), round_1, Qmult_1_l. apply round_100.
Qed.

Lemma percent_bounds (i n : Z) :
  0 < n -> 0 <= i <= n -> (0 <= percent i n)%Q /\ (percent i n <= 100)%Q.
Proof.
  intros Hn [H0 H1]. split.
  - rewrite <- (percent_zero n). now apply percent_le.
  - apply Qle_trans with (percent n n); [now apply percent_le|].
    rewrite (percent_full n Hn). apply Qle_refl.
Qed.

(** The double differs from the exact percentage by at most [2^-45]. *)
Lemma percent_error (i n : Z) :
  0 < n -> 0 <= i <= n ->
  (Qabs (percent i n - inject_Z i / inject_Z n * 100) <= pow2 (-45))%Q.
Proof.
  intros Hn [H0 H1]. unfold mul, div.
  set (x := (inject_Z i / inject_Z n)%Q).
  assert (Hx0 : (0 <= x)%Q).
  { unfold x. setoid_replace 0%Q with (inject_Z 0 / inject_Z n)%Q
      using relation Qeq by (unfold Qdiv; now rewrite Qmult_0_l).
    now apply quotient_le. }
  assert (Hx1 : (x <= 1)%Q).
  { unfold x. rewrite <- (quotient_n_n n Hn). now apply quotient_le. }
  assert (Hq0 : (0 <= round x)%Q) by now apply round_nonneg.
  assert (Hq1 : (round x <= 1)%Q)
    by (rewrite <- round_1; now apply round_le).
  pose proof (round_error x 1 Hx0) as E1.
  change (pow2 1) with 2%Q in E1. specialize (E1 ltac:(lra) ltac:(lia)).
  change (pow2 (1 - 54)) with (pow2 (-53)) in E1.
  pose proof (round_error (round x * 100) 7) as E2.
  change (pow2 7) with 128%Q in E2. specialize (E2 ltac:(lra) ltac:(lra) ltac:(lia)).
  change (pow2 (7 - 54)) with (pow2 (-47)) in E2.
  apply Qabs_Qle_condition in E1. apply Qabs_Qle_condition in E2.
  apply Qabs_Qle_condition.
  assert (P53 : (pow2 (-53) == pow2 (-45) * (1 # 256))%Q)
    by (vm_compute; reflexivity).
  assert (P47 : (pow2 (-47) == pow2 (-45) * (1 # 4))%Q)
    by (vm_compute; reflexivity).
  pose proof (pow2_pos (-45)) as Hp.
  rewrite P53 in E1. rewrite P47 in E2. lra.
Qed.

Lemma Math_round_le (x y : Q) :
  (x <= y)%Q -> JS.Math_round x <= JS.Math_round y.
Proof.
  intros H. unfold JS.Math_round. apply Qfloor_resp_le.
  now apply Qplus_le_compat; [|apply Qle_refl].
Qed.

(** Rounding a quotient of integers, in integer arithmetic. *)
Lemma Math_round_quotient (a b : Z) :
  0 < b ->
  JS.Math_round (inject_Z a / inject_Z b) = (2 * a + b) / (2 * b).
Proof.
  intros Hb. destruct b as [|p|p]; try lia.
  unfold JS.Math_round, Qdiv, Qinv, inject_Z, Qmult, Qplus, Qfloor. simpl.
  f_equal; lia.
Qed.

Lemma Math_round_Z (k : Z) : JS.Math_round (inject_Z k) = k.
Proof.
  unfold JS.Math_round.
  pose proof (Qfloor_bounds (inject_Z k + (1 # 2))) as [H1 H2].
  set (f := Qfloor (inject_Z k + (1 # 2))) in *.
  assert (Ha : (inject_Z f < inject_Z (k + 1))%Q)
    by (rewrite inject_Z_plus; change (inject_Z 1) with 1%Q; lra).
  assert (Hb : (inject_Z (k - 1) < inject_Z f)%Q).
  { unfold Z.sub. rewrite inject_Z_plus.
    change (inject_Z (- (1))) with (- (1))%Q.
    pose proof (inject_Z_plus f 1) as Hs. lra. }
  rewrite <- Zlt_Qlt in Ha, Hb. lia.
Qed.

Lemma Math_round_comp (x y : Q) :
  (x == y)%Q -> JS.Math_round x = JS.Math_round y.
Proof. intros H. unfold JS.Math_round. apply Qfloor_comp. now rewrite H. Qed.

(** [Math.round] moves a number by at most one half. *)
Lemma Math_round_error (x : Q) :
  (Qabs (inject_Z (JS.Math_round x) - x) <= 1 # 2)%Q.
Proof.
  unfold JS.Math_round.
  pose proof (Qfloor_bounds (x + (1 # 2))) as [H1 H2].
  apply Qabs_Qle_condition. lra.
Qed.

Lemma calculateProgress_mono (i j n : Z) :
  0 <= n -> i <= j ->
  FlashcardUtils.calculateProgress i n <= FlashcardUtils.calculateProgress j n.
Proof.
  intros Hn Hij. unfold FlashcardUtils.calculateProgress.
  destruct (n =? 0) eqn:E; reflect_tests; [lia|].
  apply Math_round_le, percent_le; lia.
Qed.

Lemma calculateProgress_bounds (i n : Z) :
  0 <= i <= n -> 0 <= FlashcardUtils.calculateProgress i n <= 100.
Proof.
  intros Hi. unfold FlashcardUtils.calculateProgress.
  destruct (n =? 0) eqn:E; reflect_tests; [lia|].
  destruct (percent_bounds i n ltac:(lia) Hi) as [H0 H1].
  rewrite <- (Math_round_Z 0) at 1. rewrite <- (Math_round_Z 100) at 3.
  split; now apply Math_round_le.
Qed.

(** The rounded percentage is within [1/2 + 2^-45] of the exact one. *)
Lemma calculateProgress_error (i n : Z) :
  0 < n -> 0 <= i <= n ->
  (Qabs (inject_Z (FlashcardUtils.calculateProgress i n)
         - inject_Z i / inject_Z n * 100) <= (1 # 2) + pow2 (-45))%Q.
Proof.
  intros Hn Hi. unfold FlashcardUtils.calculateProgress.
  destruct (n =? 0) eqn:E; reflect_tests; [lia|].
  pose proof (percent_error i n Hn Hi) as E1.
  pose proof (Math_round_error (percent i n)) as E2.
  apply Qabs_Qle_condition in E1. apply Qabs_Qle_condition in E2.
  apply Qabs_Qle_condition. lra.
Qed.

End PercentFacts.

(** ** useFlashcardState: progress *)

Module ProgressFacts.
Import UseFlashcardState SessionFacts PercentFacts.

Section Facts.

Variable cards : list Flashcard.
Variable fresh : bool.

Local Abbreviation len := (cards_length cards).

Lemma commit_progress prev next :
  progress (commit cards fresh prev next)
  = if currentCardIndex prev =? currentCardIndex next
    then progress next
    else progress_of_index cards (currentCardIndex next).
Proof.
  unfold commit, completionEffect, progressEffect, progress_of_index.
  destruct (currentCardIndex prev =? currentCardIndex next); simpl;
    split_tests; reflexivity.
Qed.

Lemma progress_of_index_zero : (progress_of_index cards 0 == 0)%Q.
Proof.
  unfold progress_of_index. destruct (0 <? len); [|reflexivity].
  apply percent_zero.
Qed.

Lemma progress_of_index_le i j :
  i <= j -> (progress_of_index cards i <= progress_of_index cards j)%Q.
Proof.
  intros Hij. unfold progress_of_index.
  destruct (0 <? len) eqn:E; reflect_tests; [|apply Qle_refl].
  now apply percent_le.
Qed.

Lemma progress_of_index_bounds i :
  0 <= i <= len ->
  (0 <= progress_of_index cards i)%Q /\ (progress_of_index cards i <= 100)%Q.
Proof.
  intros Hi. unfold progress_of_index.
  destruct (0 <? len) eqn:E; reflect_tests; [|split; discriminate].
  now apply percent_bounds.
Qed.

(** The progress differs from the exact percentage by at most [2^-45]. *)
Lemma progress_of_index_error i :
  0 < len -> 0 <= i <= len ->
  (Qabs (progress_of_index cards i - inject_Z i / inject_Z len * 100)
   <= Double.pow2 (-45))%Q.
Proof.
  intros Hl Hi. unfold progress_of_index.
  destruct (0 <? len) eqn:E; reflect_tests; [|lia].
  now apply percent_error.
Qed.

(** [Math.round] of the progress is what [calculateProgress] returns. *)
Lemma Math_round_progress_of_index i :
  JS.Math_round (progress_of_index cards i)
  = FlashcardUtils.calculateProgress i len.
Proof.
  unfold progress_of_index, FlashcardUtils.calculateProgress.
  pose proof (cards_length_nonneg cards).
  destruct (0 <? len) eqn:E1; destruct (len =? 0) eqn:E2; reflect_tests;
    try lia; reflexivity.
Qed.

Lemma mounted_synced : synced cards (mounted cards).
Proof.
  unfold synced, mounted, completionEffect, progressEffect, initialState,
    progress_of_index.
  simpl. split_tests; simpl; reflexivity.
Qed.

Lemma step_synced a st :
  synced cards st -> synced cards (step cards fresh a st).
Proof.
  unfold synced. intros Hs.
  destruct a; simpl;
    unfold flipCard, nextCard, previousCard, goToCard, resetDeck, dispatch,
      flipCard_update, nextCard_update, previousCard_update, goToCard_update,
      resetDeck_update;
    split_tests; try exact Hs;
    rewrite commit_progress, commit_index; simpl;
    match goal with
    | |- context [?x =? ?y] => destruct (Z.eqb_spec x y) as [He|He]
    end;
    try reflexivity;
    try reflexivity; try exact Hs;
    try (rewrite <- He; exact Hs).
  symmetry. apply progress_of_index_zero.
Qed.

Lemma reachable_synced st : reachable cards fresh st -> synced cards st.
Proof.
  induction 1 as [|a st _ IH]; [apply mounted_synced | now apply step_synced].
Qed.

End Facts.
End ProgressFacts.

(** ** useFlashcards: the session state machine *)

Lemma StudyMode_eq_random (m : StudyMode) : m = random \/ m ≠ random.
Proof. destruct m; (now left) || (right; discriminate). Qed.

Module UseFlashcardsFacts.
Import UseFlashcards.

Section Facts.

Variable deck_id : string.
Variable cards : list Flashcard.
Variable autoSave : bool.

Local Abbreviation len := (cards_length cards).

Lemma len_nonneg : 0 <= len.
Proof. unfold cards_length. lia. Qed.

Lemma completionEffect_index now nowISO h :
  currentCardIndex (state (completionEffect deck_id cards now nowISO h))
  = currentCardIndex (state h).
Proof. unfold completionEffect. split_tests; reflexivity. Qed.

Lemma completionEffect_isFlipped now nowISO h :
  isFlipped (state (completionEffect deck_id cards now nowISO h))
  = isFlipped (state h).
Proof. unfold completionEffect. split_tests; reflexivity. Qed.

Lemma completionEffect_studyMode now nowISO h :
  studyMode (completionEffect deck_id cards now nowISO h) = studyMode h.
Proof. unfold completionEffect. split_tests; reflexivity. Qed.

Lemma completionEffect_isComplete now nowISO h :
  isComplete (state (completionEffect deck_id cards now nowISO h)) = true <->
  isComplete (state h) = true
  \/ (len <= currentCardIndex (state h) /\ 0 < len).
Proof.
  unfold completionEffect.
  destruct (isComplete (state h)) eqn:Hc; split_tests; simpl;
    reflect_tests; rewrite ?Hc; intuition (try lia; try congruence).
Qed.

Lemma render_index now nowISO prev next :
  currentCardIndex (state (commit deck_id cards now nowISO prev next))
  = currentCardIndex (state next).
Proof.
  unfold commit. rewrite completionEffect_index.
  split_tests; reflexivity.
Qed.

Lemma render_isFlipped now nowISO prev next :
  isFlipped (state (commit deck_id cards now nowISO prev next))
  = isFlipped (state next).
Proof.
  unfold commit. rewrite completionEffect_isFlipped.
  split_tests; reflexivity.
Qed.

Lemma render_studyMode now nowISO prev next :
  studyMode (commit deck_id cards now nowISO prev next) = studyMode next.
Proof.
  unfold commit. rewrite completionEffect_studyMode.
  split_tests; reflexivity.
Qed.

Lemma render_isComplete now nowISO prev next :
  isComplete (state (commit deck_id cards now nowISO prev next)) = true <->
  isComplete (state next) = true
  \/ (len <= currentCardIndex (state next) /\ 0 < len).
Proof.
  unfold commit. rewrite completionEffect_isComplete.
  split_tests; reflexivity.
Qed.

(** The index drawn in 'random' mode is a card of the deck other than the
    current one. *)
Lemma drawOtherIndex_range draws cur j :
  unit_draws draws -> 0 < len ->
  FlashcardUtils.drawOtherIndex draws cur len = Some j ->
  0 <= j < len /\ j ≠ cur.
Proof.
  intros Hd Hpos.
  induction Hd as [|r rest [Hr0 Hr1] _ IH];
    cbn [FlashcardUtils.drawOtherIndex]; [discriminate|].
  destruct (Z.eqb_spec (JS.Math_floor (r * inject_Z len)) cur) as [He|He];
    [exact IH|].
  intros Hj.
  assert (j = JS.Math_floor (r * inject_Z len)) as -> by congruence.
  clear Hj IH. split; [|exact He].
  unfold JS.Math_floor.
  assert (Hl : (0 < inject_Z len)%Q)
    by (change 0%Q with (inject_Z 0); now rewrite <- Zlt_Qlt).
  split.
  - change 0 with (Qfloor 0). apply Qfloor_resp_le.
    apply Qmult_le_0_compat; [exact Hr0 | now apply Qlt_le_weak].
  - rewrite Zlt_Qlt.
    apply Qle_lt_trans with (r * inject_Z len)%Q; [apply Qfloor_le|].
    rewrite <- (Qmult_1_l (inject_Z len)) at 2.
    now apply Qmult_lt_compat_r.
Qed.

(** The answer of [getNextCardIndex] on an index within bounds. *)
Lemma getNextCardIndex_spec draws cur mode r :
  unit_draws draws -> 0 <= cur <= len ->
  FlashcardUtils.getNextCardIndex draws cur len mode = Some r ->
  match r with
  | Some j =>
      0 <= j < len /\ j ≠ cur
      /\ (mode ≠ random \/ len <= 1 -> cur < len - 1 /\ j = cur + 1)
  | None => (mode = random /\ len <= 1) \/ (mode ≠ random /\ len - 1 <= cur)
  end.
Proof.
  intros Hd Hc. unfold FlashcardUtils.getNextCardIndex.
  destruct mode.
  - destruct (cur <? len - 1) eqn:Hlt; intros [= <-]; reflect_tests.
    + repeat split; lia.
    + right. split; [discriminate | lia].
  - destruct (len <=? 1) eqn:Hle; reflect_tests.
    + intros [= <-]. left. split; [reflexivity | lia].
    + destruct (FlashcardUtils.drawOtherIndex draws cur len) as [j|] eqn:Hj;
        [|discriminate].
      intros [= <-].
      apply drawOtherIndex_range in Hj; [|assumption|lia].
      destruct Hj as [Hj1 Hj2].
      split; [lia|]. split; [assumption|].
      intros [Hm | Hl]; [congruence | lia].
  - destruct (cur <? len - 1) eqn:Hlt; intros [= <-]; reflect_tests.
    + repeat split; lia.
    + right. split; [discriminate | lia].
Qed.

(** A render keeps the invariant when the state just set is within bounds,
    carries the flag only at the end of the deck, and respects the
    'random' clause. *)
Lemma render_invariant now nowISO prev next :
  in_bounds cards next ->
  (isComplete (state next) = true -> currentCardIndex (state next) = len) ->
  random_active cards next ->
  invariant cards (commit deck_id cards now nowISO prev next).
Proof.
  intros Hb Hc Hr. unfold invariant, in_bounds, complete_iff, random_active.
  rewrite render_index, render_isComplete, render_studyMode.
  unfold in_bounds in Hb. repeat split.
  - lia.
  - lia.
  - intros He. right. lia.
  - intros [Ht | [Hge _]]; [auto | lia].
  - now apply Hr.
  - apply not_true_is_false. rewrite render_isComplete.
    destruct (Hr H H0) as [Hlt Hf]. intros [Ht | [Hge _]]; [congruence | lia].
Qed.

Lemma mounted_invariant se mode sto :
  invariant cards (mounted cards se mode sto).
Proof.
  pose proof len_nonneg.
  unfold invariant, in_bounds, complete_iff, random_active, mounted,
    progressEffect, initialState. simpl.
  repeat split; intros; (lia || congruence).
Qed.

Lemma step_invariant draws now nowISO a h h' :
  unit_draws draws -> invariant cards h ->
  step deck_id cards autoSave draws now nowISO a h = Some h' ->
  invariant cards h'.
Proof.
  intros Hd Hinv. pose proof Hinv as (Hb & Hc & Hr).
  pose proof len_nonneg as Hlen.
  unfold in_bounds in Hb. unfold complete_iff in Hc.
  unfold random_active in Hr.
  destruct a as [| | |i|]; simpl.
  - intros [= <-]. unfold flipCard. apply render_invariant.
    + exact Hb.
    + simpl. intros Ht. destruct (Z.eq_dec len 0) as [H0|H0]; [lia|].
      apply Hc; [lia | exact Ht].
    + exact Hr.
  - unfold nextCard.
    destruct (FlashcardUtils.getNextCardIndex draws _ len (studyMode h))
      as [r|] eqn:Hn; [|discriminate].
    apply getNextCardIndex_spec in Hn; [|assumption..].
    destruct r as [j|]; intros [= <-]; apply render_invariant;
      unfold in_bounds, random_active; simpl.
    + lia.
    + intros Ht. destruct Hn as (Hj & Hne & Hseq).
      destruct (StudyMode_eq_random (studyMode h)) as [Hm|Hm].
      * destruct (Z_lt_le_dec 1 len) as [Hl|Hl].
        -- destruct (Hr Hm Hl) as [_ Hf]. congruence.
        -- destruct (Hseq (or_intror Hl)) as [Hlt _].
           assert (currentCardIndex (state h) = len) by (apply Hc; [lia|auto]).
           lia.
      * destruct (Hseq (or_introl Hm)) as [Hlt _].
        assert (currentCardIndex (state h) = len) by (apply Hc; [lia|auto]).
        lia.
    + intros Hm Hl. destruct (Hr Hm Hl) as [_ Hf]. split; [lia | exact Hf].
    + lia.
    + reflexivity.
    + intros Hm Hl. destruct Hn as [[_ Hle] | [Hnm _]]; [lia | congruence].
  - intros [= <-]. unfold previousCard.
    destruct (0 <? currentCardIndex (state h)) eqn:Hp; reflect_tests.
    + apply render_invariant; unfold in_bounds, random_active; simpl.
      * lia.
      * discriminate.
      * intros _ _. split; [lia | reflexivity].
    + exact Hinv.
  - intros [= <-]. unfold goToCard.
    destruct ((0 <=? i) && (i <? len)) eqn:Hv; reflect_tests.
    + apply render_invariant; unfold in_bounds, random_active; simpl.
      * lia.
      * discriminate.
      * intros _ _. split; [lia | reflexivity].
    + exact Hinv.
  - intros [= <-]. unfold resetDeck.
    apply render_invariant; unfold in_bounds, random_active; simpl.
    + lia.
    + discriminate.
    + intros _ Hl. split; [lia | reflexivity].
Qed.

Lemma reachable_invariant h :
  reachable deck_id cards autoSave h -> invariant cards h.
Proof.
  induction 1 as [se mode sto | draws now nowISO a h h' _ IH Hd Hs
                 | isCorrect h _ IH].
  - apply mounted_invariant.
  - exact (step_invariant draws now nowISO a h h' Hd IH Hs).
  - exact IH.
Qed.

(** An action that moves the index leaves the card face down. *)
Lemma action_resets_flip draws now nowISO a h h' :
  step deck_id cards autoSave draws now nowISO a h = Some h' ->
  currentCardIndex (state h') ≠ currentCardIndex (state h) ->
  isFlipped (state h') = false.
Proof.
  destruct a as [| | |i|]; simpl.
  - intros [= <-]. unfold flipCard. rewrite render_index. simpl. congruence.
  - unfold nextCard.
    destruct (FlashcardUtils.getNextCardIndex draws _ len (studyMode h))
      as [[j|]|]; [| |discriminate];
      intros [= <-] _; now rewrite render_isFlipped.
  - intros [= <-]. unfold previousCard.
    destruct (0 <? currentCardIndex (state h)); [|congruence].
    intros _. now rewrite render_isFlipped.
  - intros [= <-]. unfold goToCard.
    destruct ((0 <=? i) && (i <? len)); [|congruence].
    intros _. now rewrite render_isFlipped.
  - intros [= <-] _. unfold resetDeck. now rewrite render_isFlipped.
Qed.

(** Outside 'random' mode [nextCard] always answers. *)
Lemma nextCard_defined draws now nowISO h :
  studyMode h ≠ random ->
  exists h', nextCard deck_id cards draws now nowISO h = Some h'.
Proof.
  intros Hm. unfold nextCard, FlashcardUtils.getNextCardIndex.
  destruct (studyMode h); [|congruence|];
    destruct (currentCardIndex (state h) <? len - 1); eauto.
Qed.

(** *** The Complete state *)



Lemma goToCard_rejected i now nowISO h :
  i < 0 \/ len <= i -> goToCard deck_id cards i now nowISO h = h.
Proof.
  intros Hi. unfold goToCard.
  destruct ((0 <=? i) && (i <? len)) eqn:Hv; reflect_tests;
    [lia | reflexivity].
Qed.



End Facts.
End UseFlashcardsFacts.

(** ** The gesture recognisers *)

Module GestureFacts.
Import UseFlashcardGestures.

Section Facts.

Variable SCREEN_WIDTH : Q.
Hypothesis width_nonneg : (0 <= SCREEN_WIDTH)%Q.

Local Abbreviation T := (SWIPE_THRESHOLD SCREEN_WIDTH).

(** The double [absTranslationX * 0.7] of the vertical test. *)
Local Abbreviation limit e :=
  (Double.mul (Qabs (translationX e)) (Double.round (7 # 10))).

Lemma threshold_nonneg : (0 <= T)%Q.
Proof. unfold SWIPE_THRESHOLD. lra. Qed.

(** For a drag of a pixel or more the double is within [|Δx| * 2^-52] of
    the exact [0.7 * |Δx|]. *)
Lemma limit_error e :
  (1 <= Qabs (translationX e))%Q ->
  (Qabs (limit e - Qabs (translationX e) * (7 # 10))
   <= Qabs (translationX e) * Double.pow2 (-52))%Q.
Proof.
  intros Ha. unfold Double.mul. rewrite DoubleFacts.literal_07.
  set (a := Qabs (translationX e)) in *.
  pose proof (DoubleFacts.round_relative_error
                (a * (3152519739159347 # 4503599627370496))) as E.
  assert (P : (Double.pow2 (-1022) <= 1 # 2)%Q) by (vm_compute; discriminate).
  assert (P53 : (Double.pow2 (-53) == 1 # 9007199254740992)%Q)
    by (vm_compute; reflexivity).
  assert (P52 : (Double.pow2 (-52) == 1 # 4503599627370496)%Q)
    by (vm_compute; reflexivity).
  specialize (E ltac:(lra)). rewrite P53 in E. rewrite P52.
  apply Qabs_Qle_condition in E. apply Qabs_Qle_condition. lra.
Qed.

Lemma shouldSwipeLeft_iff p e :
  shouldSwipeLeft SCREEN_WIDTH p e = true <->
  ((T < translationX e)%Q
   \/ ((50 < translationX e)%Q /\ (300 < velocityX e)%Q))
  /\ canSwipeLeft p = true.
Proof.
  unfold shouldSwipeLeft, SWIPE_VELOCITY_THRESHOLD.
  reflect_tests. reflexivity.
Qed.

Lemma shouldSwipeRight_iff p e :
  shouldSwipeRight SCREEN_WIDTH p e = true <->
  ((translationX e < - T)%Q
   \/ ((translationX e < - (50))%Q /\ (velocityX e < - (300))%Q))
  /\ canSwipeRight p = true.
Proof.
  unfold shouldSwipeRight, SWIPE_VELOCITY_THRESHOLD.
  reflect_tests. reflexivity.
Qed.

(** A drag cannot qualify on both sides. *)
Lemma shouldSwipe_exclusive p e :
  shouldSwipeLeft SCREEN_WIDTH p e = true ->
  shouldSwipeRight SCREEN_WIDTH p e = true -> False.
Proof.
  rewrite shouldSwipeLeft_iff, shouldSwipeRight_iff.
  pose proof threshold_nonneg. intros [Hl _] [Hr _].
  destruct Hl as [Hl | [Hl _]], Hr as [Hr | [Hr _]]; lra.
Qed.

(** When [onEnd] invokes a callback, and which one. *)
Lemma onEnd_swipe p e cb :
  onEnd SCREEN_WIDTH p e = Swipe cb <->
  disabled p = false
  /\ (Qabs (translationY e) <= limit e)%Q
  /\ match cb with
     | onSwipeLeft => shouldSwipeLeft SCREEN_WIDTH p e = true
     | onSwipeRight => shouldSwipeRight SCREEN_WIDTH p e = true
     end.
Proof.
  unfold onEnd, JS.Math_abs.
  destruct (disabled p); [split; [discriminate | intros [? _]; discriminate]|].
  destruct (JS.gt _ _) eqn:Hv; reflect_tests.
  - split; [discriminate|]. intros (_ & Hle & _). lra.
  - destruct (shouldSwipeLeft SCREEN_WIDTH p e) eqn:Hl.
    + destruct cb; split; try (intros; now auto); try discriminate.
      intros (_ & _ & Hr). exfalso. eapply shouldSwipe_exclusive; eauto.
    + destruct (shouldSwipeRight SCREEN_WIDTH p e) eqn:Hr;
        destruct cb; split; try (intros; now auto); try discriminate;
        intros (_ & _ & ?); discriminate.
Qed.

(** The side of the drag behind each callback. *)
Lemma onEnd_direction p e cb :
  onEnd SCREEN_WIDTH p e = Swipe cb ->
  match cb with
  | onSwipeLeft => (0 < translationX e)%Q
  | onSwipeRight => (translationX e < 0)%Q
  end.
Proof.
  rewrite onEnd_swipe. intros (_ & _ & Hs). pose proof threshold_nonneg.
  destruct cb.
  - apply shouldSwipeLeft_iff in Hs. destruct Hs as [[Hs | [Hs _]] _]; lra.
  - apply shouldSwipeRight_iff in Hs. destruct Hs as [[Hs | [Hs _]] _]; lra.
Qed.

(** A vertical-dominant drag never reaches a callback. *)
Lemma onEnd_vertical p e :
  (limit e < Qabs (translationY e))%Q ->
  onEnd SCREEN_WIDTH p e = (if disabled p then Ignored else ResetToCenter).
Proof.
  intros Hv. unfold onEnd, JS.Math_abs. destruct (disabled p); [reflexivity|].
  apply gt_true in Hv. now rewrite Hv.
Qed.

(** The component of FlashCard.tsx looks at the horizontal data only. *)
Lemma handlePanGestureStateChange_iff e :
  is_Some (FlashCardComponent.handlePanGestureStateChange SCREEN_WIDTH e) <->
  (SCREEN_WIDTH * (25 # 100) < translationX e)%Q \/ (500 < velocityX e)%Q
  \/ (translationX e < - (SCREEN_WIDTH * (25 # 100)))%Q
  \/ (velocityX e < - (500))%Q.
Proof.
  unfold FlashCardComponent.handlePanGestureStateChange.
  destruct (JS.gt (translationX e) _ || JS.gt (velocityX e) 500) eqn:H1.
  - reflect_tests. split; [tauto | eauto].
  - destruct (JS.lt (translationX e) _ || JS.lt (velocityX e) (- (500))) eqn:H2.
    + reflect_tests. split; [tauto | eauto].
    + reflect_tests. split.
      * intros [x Hx]. discriminate.
      * intros Hs. exfalso. lra.
Qed.

(** Which callback the component invokes: the right one is tested first. *)
Lemma card_right_iff e :
  FlashCardComponent.handlePanGestureStateChange SCREEN_WIDTH e
  = Some onSwipeRight <->
  (SCREEN_WIDTH * (25 # 100) < translationX e)%Q \/ (500 < velocityX e)%Q.
Proof.
  unfold FlashCardComponent.handlePanGestureStateChange.
  destruct (JS.gt (translationX e) _ || JS.gt (velocityX e) 500) eqn:H1.
  - reflect_tests. tauto.
  - destruct (JS.lt (translationX e) _ || JS.lt (velocityX e) (- (500)));
      reflect_tests; (split; [discriminate | intros; exfalso; lra]).
Qed.

Lemma card_left_iff e :
  FlashCardComponent.handlePanGestureStateChange SCREEN_WIDTH e
  = Some onSwipeLeft <->
  (translationX e <= SCREEN_WIDTH * (25 # 100))%Q /\ (velocityX e <= 500)%Q
  /\ ((translationX e < - (SCREEN_WIDTH * (25 # 100)))%Q
      \/ (velocityX e < - (500))%Q).
Proof.
  unfold FlashCardComponent.handlePanGestureStateChange.
  destruct (JS.gt (translationX e) _ || JS.gt (velocityX e) 500) eqn:H1.
  - reflect_tests. split; [discriminate | intros; exfalso; lra].
  - destruct (JS.lt (translationX e) _ || JS.lt (velocityX e) (- (500)))
      eqn:H2; reflect_tests.
    + tauto.
    + split; [discriminate | intros; exfalso; lra].
Qed.

(** When the release velocity does not oppose the displacement, the sign of
    Δx decides. *)
Lemma card_direction e :
  is_Some (FlashCardComponent.handlePanGestureStateChange SCREEN_WIDTH e) ->
  ((0 < translationX e)%Q -> (- (500) <= velocityX e)%Q ->
   FlashCardComponent.handlePanGestureStateChange SCREEN_WIDTH e
   = Some onSwipeRight)
  /\ ((translationX e < 0)%Q -> (velocityX e <= 500)%Q ->
      FlashCardComponent.handlePanGestureStateChange SCREEN_WIDTH e
      = Some onSwipeLeft).
Proof.
  intros Hs. apply handlePanGestureStateChange_iff in Hs.
  split; intros Hx Hv.
  - apply card_right_iff. lra.
  - apply card_left_iff. lra.
Qed.

End Facts.
End GestureFacts.

(** ** The flashcards screen *)

Module ScreenFacts.
Import FlashcardsScreen.

Section Facts.

Variable cards : list Flashcard.
Variable SCREEN_WIDTH : Q.
Hypothesis width_nonneg : (0 <= SCREEN_WIDTH)%Q.

Local Abbreviation len := (UseFlashcardState.cards_length cards).

Lemma currentCard_index scr :
  is_Some (currentCard cards scr) -> currentCardIndex (state scr) < len.
Proof.
  unfold currentCard, UseFlashcardState.getCurrentCard.
  destruct (currentCardIndex (state scr) <? len) eqn:Hlt; reflect_tests;
    [auto | intros [x Hx]; discriminate].
Qed.

(** With a card on screen the completion effect has nothing to do. *)
Lemma rendered_on_card scr :
  currentCardIndex (state scr) < len -> rendered cards scr = scr.
Proof.
  intros Hlt. unfold rendered.
  destruct (len <=? currentCardIndex (state scr)) eqn:Hge; reflect_tests;
    [lia | reflexivity].
Qed.

Lemma flipCard_on_card st :
  currentCardIndex st < len ->
  UseFlashcardState.flipCard cards true st
  = mkState (currentCardIndex st) (negb (isFlipped st)) (isComplete st)
            (progress st).
Proof.
  intros Hlt.
  unfold UseFlashcardState.flipCard, UseFlashcardState.dispatch,
    UseFlashcardState.flipCard_update, UseFlashcardState.commit,
    UseFlashcardState.completionEffect. simpl.
  rewrite Z.eqb_refl. simpl.
  destruct (len <=? currentCardIndex st) eqn:Hge; reflect_tests;
    [lia | reflexivity].
Qed.

Lemma handleFlip_on_card scr :
  isAnimating scr = false -> currentCardIndex (state scr) < len ->
  handleFlip cards scr
  = mk (mkState (currentCardIndex (state scr)) (negb (isFlipped (state scr)))
                (isComplete (state scr)) (progress (state scr)))
       (screenIsComplete scr) false (lastSwipeTime scr)
       (pendingNavigation scr) (gestureIsAnimating scr).
Proof.
  intros Ha Hlt. unfold handleFlip, hook. rewrite Ha. simpl.
  rewrite flipCard_on_card by assumption.
  now rewrite rendered_on_card by assumption.
Qed.

(** Flipping twice restores the screen, whatever the time in between. *)
Lemma handleFlip_twice scr :
  isAnimating scr = false -> currentCardIndex (state scr) < len ->
  handleFlip cards (handleFlip cards scr) = scr.
Proof.
  intros Ha Hlt. rewrite (handleFlip_on_card scr) by assumption.
  rewrite handleFlip_on_card by (simpl; auto). simpl.
  rewrite negb_involutive. destruct scr as [[i f c p] sc an ls pn ga].
  simpl in *. now subst an.
Qed.

Lemma handleFlip_animating scr :
  isAnimating scr = true -> handleFlip cards scr = scr.
Proof. intros Ha. unfold handleFlip. now rewrite Ha. Qed.

(** Only the swipe handlers look at the clock. *)
Lemma handleSwipeLeft_cooldown now scr :
  now - lastSwipeTime scr < SWIPE_COOLDOWN ->
  handleSwipeLeft cards now scr = scr.
Proof.
  intros Hc. unfold handleSwipeLeft.
  apply Z.ltb_lt in Hc. now rewrite Hc.
Qed.

Lemma handleSwipeRight_cooldown now scr :
  now - lastSwipeTime scr < SWIPE_COOLDOWN ->
  handleSwipeRight now scr = scr.
Proof.
  intros Hc. unfold handleSwipeRight.
  apply Z.ltb_lt in Hc. now rewrite Hc.
Qed.

(** The gated callbacks: a swipe the guard refuses schedules nothing. *)
Lemma handleSwipeLeft_gated now scr :
  canGoNext cards scr = false ->
  state (handleSwipeLeft cards now scr) = state scr
  /\ pendingNavigation (handleSwipeLeft cards now scr) = pendingNavigation scr.
Proof.
  intros Hg. unfold handleSwipeLeft. rewrite Hg.
  destruct (_ || _); auto.
Qed.

Lemma handleSwipeRight_gated now scr :
  canGoPrevious scr = false ->
  state (handleSwipeRight now scr) = state scr
  /\ pendingNavigation (handleSwipeRight now scr) = pendingNavigation scr.
Proof.
  intros Hg. unfold handleSwipeRight. rewrite Hg.
  destruct (_ || _); auto.
Qed.

Lemma rendered_index scr :
  currentCardIndex (state (rendered cards scr)) = currentCardIndex (state scr).
Proof.
  unfold rendered, UseFlashcardState.completionEffect.
  split_tests; reflexivity.
Qed.

Lemma rendered_isFlipped scr :
  isFlipped (state (rendered cards scr)) = isFlipped (state scr).
Proof.
  unfold rendered, UseFlashcardState.completionEffect.
  split_tests; reflexivity.
Qed.

(** A swipe the card reports while the guard of its handler fails changes
    neither the session nor what is scheduled. *)
Lemma handleSwipeLeft_gated_animating now scr :
  canGoNext cards scr = false ->
  isAnimating (handleSwipeLeft cards now scr) = isAnimating scr.
Proof.
  intros Hg. unfold handleSwipeLeft. rewrite Hg.
  destruct (_ || _); reflexivity.
Qed.

Lemma handleSwipeRight_gated_animating now scr :
  canGoPrevious scr = false ->
  isAnimating (handleSwipeRight now scr) = isAnimating scr.
Proof.
  intros Hg. unfold handleSwipeRight. rewrite Hg.
  destruct (_ || _); reflexivity.
Qed.

Lemma cardPanEnd_gated now e scr cb :
  FlashCardComponent.handlePanGestureStateChange SCREEN_WIDTH e = Some cb ->
  match cb with
  | onSwipeLeft => canGoNext cards scr = false
  | onSwipeRight => canGoPrevious scr = false
  end ->
  state (handle cards SCREEN_WIDTH (CardPanEnd now e) scr) = state scr
  /\ pendingNavigation (handle cards SCREEN_WIDTH (CardPanEnd now e) scr)
     = pendingNavigation scr
  /\ isAnimating (handle cards SCREEN_WIDTH (CardPanEnd now e) scr)
     = isAnimating scr.
Proof.
  intros Hs Hg. cbn [handle]. rewrite Hs.
  destruct (currentCard cards scr); [|auto].
  destruct cb; cbn [invoke].
  - destruct (handleSwipeLeft_gated now scr Hg) as [H1 H2].
    pose proof (handleSwipeLeft_gated_animating now scr Hg). auto.
  - destruct (handleSwipeRight_gated now scr Hg) as [H1 H2].
    pose proof (handleSwipeRight_gated_animating now scr Hg). auto.
Qed.

(** A swipe the card reports with the screen at rest, the cooldown elapsed
    and the guard open: the neighbouring card is shown, face down, once the
    timer has run. *)
Lemma cardPanEnd_navigates now e scr cb :
  FlashCardComponent.handlePanGestureStateChange SCREEN_WIDTH e = Some cb ->
  is_Some (currentCard cards scr) ->
  isAnimating scr = false ->
  SWIPE_COOLDOWN <= now - lastSwipeTime scr ->
  match cb with
  | onSwipeLeft => canGoNext cards scr = true
  | onSwipeRight => canGoPrevious scr = true
  end ->
  let scr' := run cards SCREEN_WIDTH [CardPanEnd now e; NavigationTimeout] scr in
  currentCardIndex (state scr')
  = match cb with
    | onSwipeLeft => currentCardIndex (state scr) + 1
    | onSwipeRight => currentCardIndex (state scr) - 1
    end
  /\ isFlipped (state scr') = false.
Proof.
  intros Hs [c Hc] Ha Hcd Hg scr'. subst scr'.
  unfold run. cbn [fold_left handle]. rewrite Hs, Hc.
  assert (Hcd' : (now - lastSwipeTime scr <? SWIPE_COOLDOWN) = false)
    by (apply Z.ltb_ge; exact Hcd).
  destruct cb; cbn [invoke].
  - unfold handleSwipeLeft. rewrite Hcd', Ha, Hg. cbn [orb].
    unfold navigationTimeout. cbn [pendingNavigation state screenIsComplete
      lastSwipeTime gestureIsAnimating].
    rewrite rendered_index, rendered_isFlipped. cbn [state]. unfold hook.
    pose proof (SessionFacts.step_index cards true NextCard (state scr)) as Hi.
    unfold canGoNext, UseFlashcardState.canGoNext in Hg.
    cbn beta iota in Hi. rewrite Hg in Hi. split; [exact Hi|].
    apply SessionFacts.step_resets_flip. lia.
  - unfold handleSwipeRight. rewrite Hcd', Ha, Hg. cbn [orb].
    unfold navigationTimeout. cbn [pendingNavigation state screenIsComplete
      lastSwipeTime gestureIsAnimating].
    rewrite rendered_index, rendered_isFlipped. cbn [state]. unfold hook.
    pose proof (SessionFacts.step_index cards true PreviousCard (state scr))
      as Hi.
    unfold canGoPrevious, UseFlashcardState.canGoPrevious in Hg.
    cbn beta iota in Hi. rewrite Hg in Hi. split; [exact Hi|].
    apply SessionFacts.step_resets_flip. lia.
Qed.

End Facts.
End ScreenFacts.

(** ** Persistence *)

Module StorageFacts.
Import FlashcardUtils.

Lemma saveProgress_available deckId progress s :
  Storage.available s = true ->
  saveProgress deckId progress s
  = Storage.mk true
      (Some (<[deckId := progress]> (or_empty (Storage.flashcard_progress s))))
      (Storage.completed_decks s) (Storage.deck_statistics s).
Proof.
  intros Ha. unfold saveProgress, Storage.get, Storage.set_flashcard_progress.
  now rewrite Ha.
Qed.

Lemma saveProgress_unavailable deckId progress s :
  Storage.available s = false -> saveProgress deckId progress s = s.
Proof. intros Ha. unfold saveProgress, Storage.get. now rewrite Ha. Qed.

Lemma loadProgress_saveProgress deckId progress s :
  Storage.available s = true ->
  loadProgress deckId (saveProgress deckId progress s) = Some progress.
Proof.
  intros Ha. rewrite saveProgress_available by assumption.
  unfold loadProgress, Storage.get. simpl. apply lookup_insert_eq.
Qed.

(** Saving under another deck id does not disturb a record. *)
Lemma loadProgress_saveProgress_ne deckId other progress s :
  deckId ≠ other ->
  loadProgress deckId (saveProgress other progress s) = loadProgress deckId s.
Proof.
  intros Hne. destruct (Storage.available s) eqn:Ha.
  - rewrite saveProgress_available by assumption.
    unfold loadProgress, Storage.get. simpl. rewrite Ha.
    rewrite lookup_insert_ne by congruence.
    destruct (Storage.flashcard_progress s); simpl; [reflexivity|].
    apply lookup_empty.
  - now rewrite saveProgress_unavailable.
Qed.

Lemma saveDeckStatistics_available deckId stats s :
  Storage.available s = true ->
  saveDeckStatistics deckId stats s
  = Storage.mk true (Storage.flashcard_progress s) (Storage.completed_decks s)
      (Some (<[deckId := stats]> (or_empty (Storage.deck_statistics s)))).
Proof.
  intros Ha.
  unfold saveDeckStatistics, Storage.get, Storage.set_deck_statistics.
  now rewrite Ha.
Qed.

Lemma loadDeckStatistics_saveDeckStatistics deckId stats s :
  Storage.available s = true ->
  loadDeckStatistics deckId (saveDeckStatistics deckId stats s) = Some stats.
Proof.
  intros Ha. rewrite saveDeckStatistics_available by assumption.
  unfold loadDeckStatistics, Storage.get. simpl. apply lookup_insert_eq.
Qed.

Lemma markDeckCompleted_statistics deckId s :
  Storage.deck_statistics (markDeckCompleted deckId s)
  = Storage.deck_statistics s
  /\ Storage.available (markDeckCompleted deckId s) = Storage.available s.
Proof.
  unfold markDeckCompleted, Storage.get, Storage.set_completed_decks.
  destruct (Storage.available s) eqn:Ha; [|now rewrite Ha].
  destruct (includes _ deckId); [now rewrite Ha | now simpl].
Qed.

Lemma loadDeckStatistics_markDeckCompleted deckId other s :
  loadDeckStatistics deckId (markDeckCompleted other s)
  = loadDeckStatistics deckId s.
Proof.
  destruct (markDeckCompleted_statistics other s) as [Hs Ha].
  unfold loadDeckStatistics, Storage.get. now rewrite Hs, Ha.
Qed.

(** Saving progress leaves the statistics table alone. *)
Lemma loadDeckStatistics_saveProgress deckId other progress s :
  loadDeckStatistics deckId (saveProgress other progress s)
  = loadDeckStatistics deckId s.
Proof.
  destruct (Storage.available s) eqn:Ha.
  - rewrite saveProgress_available by assumption.
    unfold loadDeckStatistics, Storage.get. simpl. now rewrite Ha.
  - now rewrite saveProgress_unavailable.
Qed.

Section Completion.
Import UseFlashcards.

Variable deck_id : string.
Variable cards : list Flashcard.

Local Abbreviation len := (cards_length cards).


(** Fields of the merged record when a prior record exists. *)
Lemma mergedStatistics_prior now nowISO se prior :
  let merged := mergedStatistics deck_id now nowISO se (Some prior) in
  let score :=
    calculateScore (correctAnswers se) (totalAnswers se) in
  DeckStatistics.timesCompleted merged
  = DeckStatistics.timesCompleted prior + 1
  /\ DeckStatistics.averageScore merged
     = JS.Math_round
         (inject_Z (DeckStatistics.averageScore prior
                    * DeckStatistics.timesCompleted prior + score)
          / inject_Z (DeckStatistics.timesCompleted prior + 1))
  /\ DeckStatistics.totalStudyTime merged
     = (now - startTime se) / 1000 + DeckStatistics.totalStudyTime prior
  /\ DeckStatistics.favoriteCards merged = DeckStatistics.favoriteCards prior.
Proof. simpl. auto. Qed.

End Completion.
End StorageFacts.

(** ** useFlashcards: progress *)

Module UseFlashcardsProgress.
Import UseFlashcards UseFlashcardsFacts PercentFacts.

Section Facts.

Variable deck_id : string.
Variable cards : list Flashcard.
Variable autoSave : bool.

Local Abbreviation len := (cards_length cards).

Lemma calculateProgress_zero n : FlashcardUtils.calculateProgress 0 n = 0.
Proof.
  unfold FlashcardUtils.calculateProgress.
  destruct (n =? 0); [reflexivity|].
  rewrite (Math_round_comp _ 0%Q) by apply percent_zero. reflexivity.
Qed.

Lemma render_progress now nowISO prev next :
  progress (state (commit deck_id cards now nowISO prev next))
  = if currentCardIndex (state prev) =? currentCardIndex (state next)
    then progress (state next)
    else inject_Z (FlashcardUtils.calculateProgress
                     (currentCardIndex (state next)) len).
Proof.
  unfold commit, completionEffect, progressEffect.
  destruct (currentCardIndex (state prev) =? currentCardIndex (state next));
    simpl; split_tests; reflexivity.
Qed.

(** The stored progress is the rounded percentage of the index. *)
Lemma step_rounded draws now nowISO a h h' :
  rounded cards h ->
  step deck_id cards autoSave draws now nowISO a h = Some h' ->
  rounded cards h'.
Proof.
  unfold rounded. intros Hr.
  destruct a as [| | |i|]; simpl;
    unfold flipCard, nextCard, previousCard, goToCard, resetDeck;
    repeat match goal with
      | |- context [match ?x with _ => _ end] => destruct x eqn:?
      end;
    try discriminate; intros [= <-]; try exact Hr;
    rewrite render_progress, render_index; simpl;
    match goal with
    | |- context [?x =? ?y] => destruct (Z.eqb_spec x y) as [He|He]
    end;
    try reflexivity; try exact Hr; try (rewrite <- He; exact Hr);
    try (rewrite He in Hr; exact Hr);
    now rewrite calculateProgress_zero.
Qed.

Lemma reachable_rounded h :
  reachable deck_id cards autoSave h -> rounded cards h.
Proof.
  induction 1 as [se mode sto | draws now nowISO a h h' _ IH Hd Hs
                 | isCorrect h _ IH].
  - reflexivity.
  - exact (step_rounded draws now nowISO a h h' IH Hs).
  - exact IH.
Qed.

End Facts.
End UseFlashcardsProgress.

(** ** The Fisher-Yates shuffle *)

Module ShuffleFacts.
Import FlashcardUtils.

(** [Math.floor(Math.random() * n)] is an index below [n]. *)
Lemma random_index (r : Q) (n : Z) :
  (0 <= r)%Q -> (r < 1)%Q -> 0 < n ->
  0 <= JS.Math_floor (r * inject_Z n) < n.
Proof.
  intros Hr0 Hr1 Hn. unfold JS.Math_floor.
  assert (Hl : (0 < inject_Z n)%Q)
    by (change 0%Q with (inject_Z 0); now rewrite <- Zlt_Qlt).
  split.
  - change 0 with (Qfloor 0). apply Qfloor_resp_le.
    apply Qmult_le_0_compat; [exact Hr0 | now apply Qlt_le_weak].
  - rewrite Zlt_Qlt.
    apply Qle_lt_trans with (r * inject_Z n)%Q; [apply Qfloor_le|].
    rewrite <- (Qmult_1_l (inject_Z n)) at 2.
    now apply Qmult_lt_compat_r.
Qed.

Section Shuffle.

Context {A : Type}.
Implicit Types a : list A.

Lemma swap_Some i j a :
  (i < length a)%nat -> (j < length a)%nat ->
  exists a', swap i j a = Some a' /\ a' ≡ₚ a /\ length a' = length a.
Proof.
  intros Hi Hj. unfold swap.
  destruct (lookup_lt_is_Some_2 a i Hi) as [x Hx].
  destruct (lookup_lt_is_Some_2 a j Hj) as [y Hy].
  rewrite Hx, Hy. eexists. split; [reflexivity|]. split.
  - now apply Permutation_insert_swap.
  - now rewrite !length_insert.
Qed.

Lemma shuffleFrom_Permutation random i a :
  unit_random random -> (i < length a)%nat ->
  exists a', shuffleFrom random i a = Some a' /\ a' ≡ₚ a.
Proof.
  revert random a. induction i as [|k IH]; intros random a Hr Hi.
  - exists a. split; reflexivity.
  - cbn [shuffleFrom].
    destruct (Hr 0%nat) as [Hr0 Hr1].
    pose proof (random_index (random 0%nat) (Z.of_nat (S k) + 1) Hr0 Hr1
                  ltac:(lia)) as Hj.
    destruct (Z.ltb_spec (JS.Math_floor
                (random 0%nat * inject_Z (Z.of_nat (S k) + 1))) 0) as [Hn|_];
      [lia|].
    destruct (swap_Some (S k)
                (Z.to_nat (JS.Math_floor
                   (random 0%nat * inject_Z (Z.of_nat (S k) + 1)))) a)
      as (a1 & Hs & Hp & Hl); [lia | lia |].
    rewrite Hs.
    destruct (IH (fun n => random (S n)) a1) as (a2 & Ha2 & Hp2).
    + intros n. apply Hr.
    + lia.
    + exists a2. split; [exact Ha2 | now rewrite Hp2].
Qed.

Lemma shuffleCards_Some random a :
  unit_random random ->
  exists shuffled, shuffleCards random a = Some shuffled /\ shuffled ≡ₚ a.
Proof.
  intros Hr. unfold shuffleCards. destruct a as [|x a].
  - exists []. split; reflexivity.
  - apply shuffleFrom_Permutation; [assumption | simpl; lia].
Qed.

Lemma length_slice0 (e : Z) a :
  length (slice0 e a)
  = Z.to_nat (if e <? 0 then Z.max (Z.of_nat (length a) + e) 0
              else Z.min e (Z.of_nat (length a))).
Proof.
  unfold slice0. rewrite length_take.
  destruct (e <? 0) eqn:He; reflect_tests; lia.
Qed.

End Shuffle.
End ShuffleFacts.

(** * Main results *)

Import FlashcardsScreen.

(** C1 — counterexample.  A pan on the card of a three-card deck at
    index 0 that ends 10 px to the right of its start (Δx > 0) while the
    finger moves left at 600 px/s: FlashCard.tsx, the recogniser the screen
    attaches, classifies it as a swipe by its velocity and invokes
    onSwipeLeft, and the screen advances to index 1.  A positive Δx has
    produced the "left" intent. *)
Lemma rightward_drag_can_advance :
  (0 < translationX back_flick)%Q
  /\ FlashCardComponent.handlePanGestureStateChange 390 back_flick
     = Some onSwipeLeft
  /\ currentCardIndex
       (state (run deck3 390 [CardPanEnd 1000 back_flick; NavigationTimeout]
                 (initial deck3)))
     = 1.
Proof. split; [reflexivity|]. split; vm_compute; reflexivity. Qed.

(** In the gesture hook, whose handlers the screen does not attach, a drag
    to the right (Δx > 0) is the one that invokes [onSwipeLeft], and a drag
    to the left invokes [onSwipeRight]. *)
Lemma hook_callback_side (SCREEN_WIDTH : Q) p e cb :
  (0 <= SCREEN_WIDTH)%Q ->
  UseFlashcardGestures.onEnd SCREEN_WIDTH p e = UseFlashcardGestures.Swipe cb ->
  ((0 < translationX e)%Q -> cb = onSwipeLeft)
  /\ ((translationX e < 0)%Q -> cb = onSwipeRight).
Proof.
  intros Hw He. apply GestureFacts.onEnd_direction in He; [|assumption].
  destruct cb; split; intros; (reflexivity || lra).
Qed.

(** The specification's example on the card: Δx = -60 at -600 px/s on a
    three-card deck at index 0 ends at index 1, face down. *)
Lemma card_left_drag_at_first_card (SCREEN_WIDTH : Q) (now : Z) :
  (0 <= SCREEN_WIDTH)%Q -> SWIPE_COOLDOWN <= now ->
  let scr := run deck3 SCREEN_WIDTH [CardPanEnd now left_drag; NavigationTimeout]
               (initial deck3) in
  currentCardIndex (state scr) = 1 /\ isFlipped (state scr) = false.
Proof.
  intros Hw Hn.
  assert (Hc : FlashCardComponent.handlePanGestureStateChange SCREEN_WIDTH
                 left_drag = Some onSwipeLeft).
  { apply GestureFacts.card_left_iff. simpl. repeat split; lra. }
  apply (ScreenFacts.cardPanEnd_navigates deck3 SCREEN_WIDTH now left_drag
           (initial deck3) onSwipeLeft Hc).
  - eexists. reflexivity.
  - reflexivity.
  - simpl. lia.
  - reflexivity.
Qed.

(** C1 — amended claim.  On FlashcardsScreen the recogniser attached to the
    card is the pan handler of FlashCard.tsx.  A completed pan is the
    "right" intent when Δx > 0.25·width or velocity_x > 500, and otherwise
    the "left" intent when Δx < -0.25·width or velocity_x < -500; so when
    the release velocity does not oppose the displacement, Δx > 0 is the
    right intent and Δx < 0 the left one.  The right intent is
    handleSwipeRight, gated by canGoPrevious, and leads to previousCard; the
    left intent is handleSwipeLeft, gated by canGoNext, and leads to
    nextCard; an intent whose guard fails schedules nothing: the session
    state, the pending navigation and isAnimating stay as they were.  The
    drag Δx = -60 at -600 px/s on a three-card deck at index 0 ends at
    index 1 with isFlipped false.  In useFlashcardGestures, whose handlers
    the screen does not attach, the sides are named the other way round:
    Δx > 0 invokes onSwipeLeft. *)
Theorem card_swipe_direction (SCREEN_WIDTH : Q) (e : PanEvent)
    (cards : list Flashcard) (now : Z) (scr : FlashcardsScreen.t)
    (p : UseFlashcardGestures.Props) (cb : SwipeCallback) :
  (0 <= SCREEN_WIDTH)%Q ->
  let T := (SCREEN_WIDTH * (25 # 100))%Q in
  let swipe := FlashCardComponent.handlePanGestureStateChange SCREEN_WIDTH e in
  let scr' := run cards SCREEN_WIDTH [CardPanEnd now e; NavigationTimeout] scr in
  (swipe = Some onSwipeRight
   <-> (T < translationX e)%Q \/ (500 < velocityX e)%Q)
  /\ (swipe = Some onSwipeLeft
      <-> (translationX e <= T)%Q /\ (velocityX e <= 500)%Q
          /\ ((translationX e < - T)%Q \/ (velocityX e < - (500))%Q))
  /\ (is_Some swipe ->
      ((0 < translationX e)%Q -> (- (500) <= velocityX e)%Q ->
       swipe = Some onSwipeRight)
      /\ ((translationX e < 0)%Q -> (velocityX e <= 500)%Q ->
          swipe = Some onSwipeLeft))
  /\ (swipe = Some onSwipeRight -> canGoPrevious scr = false ->
      state (handle cards SCREEN_WIDTH (CardPanEnd now e) scr) = state scr
      /\ pendingNavigation (handle cards SCREEN_WIDTH (CardPanEnd now e) scr)
         = pendingNavigation scr
      /\ isAnimating (handle cards SCREEN_WIDTH (CardPanEnd now e) scr)
         = isAnimating scr)
  /\ (swipe = Some onSwipeLeft -> canGoNext cards scr = false ->
      state (handle cards SCREEN_WIDTH (CardPanEnd now e) scr) = state scr
      /\ pendingNavigation (handle cards SCREEN_WIDTH (CardPanEnd now e) scr)
         = pendingNavigation scr
      /\ isAnimating (handle cards SCREEN_WIDTH (CardPanEnd now e) scr)
         = isAnimating scr)
  /\ (is_Some (currentCard cards scr) -> isAnimating scr = false ->
      SWIPE_COOLDOWN <= now - lastSwipeTime scr ->
      (swipe = Some onSwipeRight -> canGoPrevious scr = true ->
       currentCardIndex (state scr') = currentCardIndex (state scr) - 1
       /\ isFlipped (state scr') = false)
      /\ (swipe = Some onSwipeLeft -> canGoNext cards scr = true ->
          currentCardIndex (state scr') = currentCardIndex (state scr) + 1
          /\ isFlipped (state scr') = false))
  /\ (SWIPE_COOLDOWN <= now ->
      currentCardIndex
        (state (run deck3 SCREEN_WIDTH
                  [CardPanEnd now left_drag; NavigationTimeout] (initial deck3)))
      = 1
      /\ isFlipped
           (state (run deck3 SCREEN_WIDTH
                     [CardPanEnd now left_drag; NavigationTimeout]
                     (initial deck3)))
         = false)
  /\ (UseFlashcardGestures.onEnd SCREEN_WIDTH p e
      = UseFlashcardGestures.Swipe cb ->
      ((0 < translationX e)%Q -> cb = onSwipeLeft)
      /\ ((translationX e < 0)%Q -> cb = onSwipeRight)).
Proof.
  intros Hw T swipe scr'. subst T swipe scr'.
  split; [apply GestureFacts.card_right_iff|].
  split; [apply GestureFacts.card_left_iff|].
  split; [now apply GestureFacts.card_direction|].
  split.
  { intros Hs Hg.
    exact (ScreenFacts.cardPanEnd_gated cards SCREEN_WIDTH now e scr
             onSwipeRight Hs Hg). }
  split.
  { intros Hs Hg.
    exact (ScreenFacts.cardPanEnd_gated cards SCREEN_WIDTH now e scr
             onSwipeLeft Hs Hg). }
  split.
  { intros Hc Ha Hcd. split; intros Hs Hg.
    - exact (ScreenFacts.cardPanEnd_navigates cards SCREEN_WIDTH now e scr
               onSwipeRight Hs Hc Ha Hcd Hg).
    - exact (ScreenFacts.cardPanEnd_navigates cards SCREEN_WIDTH now e scr
               onSwipeLeft Hs Hc Ha Hcd Hg). }
  split.
  { intros Hn. now apply card_left_drag_at_first_card. }
  now apply hook_callback_side.
Qed.

Lemma card_swipe_direction_witness :
  (0 <= 390)%Q
  /\ SWIPE_COOLDOWN <= 1000
  /\ currentCardIndex
       (state (run deck3 390 [CardPanEnd 1000 left_drag; NavigationTimeout]
                 (initial deck3)))
     = 1.
Proof.
  assert (Hw : (0 <= 390)%Q) by discriminate.
  assert (Hn : SWIPE_COOLDOWN <= 1000) by (unfold SWIPE_COOLDOWN; lia).
  split; [exact Hw|]. split; [exact Hn|].
  exact (proj1 (proj1 (proj2 (proj2 (proj2 (proj2 (proj2 (proj2
           (card_swipe_direction 390 left_drag deck3 1000 (initial deck3)
              (gestureProps deck3 (initial deck3)) onSwipeLeft Hw)))))))
           Hn)).
Defined.

(** C2 — counterexample.  On a deck with zero cards the mounted state has
    currentCardIndex = cards.length = 0 while isComplete is false, and
    resetDeck brings a session whose flag was set back to that state. *)
Lemma empty_deck_breaks_completion_link :
  ~ UseFlashcardState.complete_iff [] (UseFlashcardState.mounted [])
  /\ UseFlashcardState.complete_iff []
       (UseFlashcardState.nextCard [] true (UseFlashcardState.mounted []))
  /\ ~ UseFlashcardState.complete_iff []
         (UseFlashcardState.resetDeck [] true
            (UseFlashcardState.nextCard [] true (UseFlashcardState.mounted []))).
Proof.
  unfold UseFlashcardState.complete_iff. repeat split.
  - intros [H _]. specialize (H eq_refl). discriminate.
  - intros [H _]. specialize (H eq_refl). discriminate.
Qed.

(** C2 — amended claim.  In every state either hook reaches,
    0 ≤ currentCardIndex ≤ cards.length; for a deck that is not empty,
    currentCardIndex = cards.length exactly when isComplete is true; and an
    action that changes currentCardIndex leaves isFlipped false. *)
Theorem session_invariant (cards : list Flashcard) (fresh : bool)
    (st : FlashcardState) (a : Action)
    (deck_id : string) (autoSave : bool) (h h' : UseFlashcards.t)
    (draws : list Q) (now : Z) (nowISO : string) :
  UseFlashcardState.reachable cards fresh st ->
  UseFlashcards.reachable deck_id cards autoSave h ->
  (UseFlashcardState.in_bounds cards st
   /\ (cards ≠ [] -> UseFlashcardState.complete_iff cards st)
   /\ (currentCardIndex (UseFlashcardState.step cards fresh a st)
       ≠ currentCardIndex st ->
       isFlipped (UseFlashcardState.step cards fresh a st) = false))
  /\ (UseFlashcards.in_bounds cards h
      /\ (cards ≠ [] -> UseFlashcards.complete_iff cards h)
      /\ (UseFlashcards.step deck_id cards autoSave draws now nowISO a h
          = Some h' ->
          currentCardIndex (UseFlashcards.state h')
          ≠ currentCardIndex (UseFlashcards.state h) ->
          isFlipped (UseFlashcards.state h') = false)).
Proof.
  intros Hs Hh.
  pose proof (UseFlashcardsFacts.reachable_invariant deck_id cards autoSave h Hh)
    as (Hb & Hc & _).
  split; (split; [|split]).
  - now apply (SessionFacts.reachable_in_bounds cards fresh).
  - intros Hne. now apply (SessionFacts.reachable_complete_iff cards fresh).
  - apply SessionFacts.step_resets_flip.
  - exact Hb.
  - intros Hne. apply Hc. now apply SessionFacts.cards_length_pos.
  - apply UseFlashcardsFacts.action_resets_flip.
Qed.

Lemma session_invariant_witness :
  UseFlashcardState.reachable deck3 true (UseFlashcardState.mounted deck3)
  /\ UseFlashcards.reachable "deck" deck3 false hook0
  /\ UseFlashcardState.in_bounds deck3 (UseFlashcardState.mounted deck3).
Proof.
  assert (H1 : UseFlashcardState.reachable deck3 true
                 (UseFlashcardState.mounted deck3)) by constructor.
  assert (H2 : UseFlashcards.reachable "deck" deck3 false hook0) by constructor.
  split; [exact H1|]. split; [exact H2|].
  exact (proj1 (proj1 (session_invariant deck3 true _ NextCard "deck" false
                         hook0 hook0 [] 0 "" H1 H2))).
Defined.

(** C3 — counterexample.  With no cards and no call, currentCardIndex
    equals cards.length (both 0) and isComplete is false. *)
Lemma advance_zero_on_empty_deck :
  ~ (currentCardIndex
       (UseFlashcardState.advance [] true 0 (UseFlashcardState.mounted []))
     = UseFlashcardState.cards_length []
     <-> isComplete
           (UseFlashcardState.advance [] true 0 (UseFlashcardState.mounted []))
         = true).
Proof. simpl. intros [H _]. specialize (H eq_refl). discriminate. Qed.

(** C3 — amended claim.  For every deck and every N, after N calls of
    nextCard from the mounted state currentCardIndex = min(N, cards.length);
    and when the deck is not empty or N ≥ 1, currentCardIndex = cards.length
    exactly when isComplete is true. *)
Theorem advance_reaches_min (cards : list Flashcard) (fresh : bool) (n : nat) :
  let st := UseFlashcardState.advance cards fresh n
              (UseFlashcardState.mounted cards) in
  currentCardIndex st
  = Z.min (Z.of_nat n) (UseFlashcardState.cards_length cards)
  /\ (cards ≠ [] \/ n ≠ 0%nat ->
      (currentCardIndex st = UseFlashcardState.cards_length cards
       <-> isComplete st = true)).
Proof.
  intros st. split; [apply SessionFacts.advance_index|].
  intros Hn. destruct cards as [|c cs] eqn:Hcards.
  - destruct Hn as [Hn | Hn]; [congruence|].
    pose proof (SessionFacts.advance_empty_complete [] fresh n eq_refl Hn) as Hc.
    pose proof (SessionFacts.advance_index [] fresh n) as Hi.
    subst st. rewrite Hc, Hi. change (UseFlashcardState.cards_length []) with 0.
    split; [reflexivity | lia].
  - apply (SessionFacts.reachable_complete_iff (c :: cs) fresh);
      [discriminate | apply SessionFacts.advance_reachable].
Qed.

Lemma advance_reaches_min_witness :
  (deck3 ≠ [] \/ 5%nat ≠ 0%nat)
  /\ currentCardIndex
       (UseFlashcardState.advance deck3 true 5 (UseFlashcardState.mounted deck3))
     = 3
  /\ (currentCardIndex
        (UseFlashcardState.advance deck3 true 5 (UseFlashcardState.mounted deck3))
      = 3
      <-> isComplete
            (UseFlashcardState.advance deck3 true 5
               (UseFlashcardState.mounted deck3))
          = true).
Proof.
  pose proof (advance_reaches_min deck3 true 5) as [H1 H2].
  assert (Hn : deck3 ≠ [] \/ 5%nat ≠ 0%nat) by (left; discriminate).
  split; [exact Hn|]. split; [exact H1 | exact (H2 Hn)].
Defined.

(** C4 — counterexample.  A drag of 10 px at 1000 px/s, with no vertical
    movement, on a 400 px window: the speed exceeds the velocity threshold
    and the drag is not vertical-dominant, so the specification's rule
    classifies it as a swipe; the hook springs back, because its velocity
    clause also asks for more than 50 px of travel. *)
Lemma fast_short_drag_is_no_swipe :
  spec_is_swipe (UseFlashcardGestures.SWIPE_THRESHOLD 400)
    UseFlashcardGestures.SWIPE_VELOCITY_THRESHOLD short_flick = true
  /\ UseFlashcardGestures.onEnd 400
       (UseFlashcardGestures.mkProps true true false) short_flick
     = UseFlashcardGestures.ResetToCenter.
Proof. split; vm_compute; reflexivity. Qed.

(** The vertical test is made on doubles: for Δx = 170, Δy = 119 and for
    Δx = 90, Δy = 63 the exact product 0.7·|Δx| equals |Δy|, but the double
    |Δx| * 0.7 is just below it (118.99999999999999 and 62.99999999999999),
    so the hook takes both drags for vertical ones and springs back. *)
Lemma boundary_drags_reset :
  (Qabs (translationY boundary_drag)
   == Qabs (translationX boundary_drag) * (7 # 10))%Q
  /\ UseFlashcardGestures.onEnd 400
       (UseFlashcardGestures.mkProps true true false) boundary_drag
     = UseFlashcardGestures.ResetToCenter
  /\ (Qabs (translationY boundary_flick)
      == Qabs (translationX boundary_flick) * (7 # 10))%Q
  /\ UseFlashcardGestures.onEnd 400
       (UseFlashcardGestures.mkProps true true false) boundary_flick
     = UseFlashcardGestures.ResetToCenter.
Proof. repeat split; vm_compute; reflexivity. Qed.

(** The pan handler of FlashCard.tsx has no vertical test: the
    vertical-dominant drag Δy = 80, Δx = -40, released at -600 px/s, goes on
    to the next card. *)
Lemma card_vertical_drag_advances :
  currentCardIndex
    (FlashcardsScreen.state
       (FlashcardsScreen.run deck3 390
          [FlashcardsScreen.CardPanEnd 1000000 vertical_drag;
           FlashcardsScreen.NavigationTimeout]
          (FlashcardsScreen.initial deck3)))
  = 1.
Proof. vm_compute. reflexivity. Qed.

(** C4 — amended claim.  The pan handler of useFlashcardGestures treats a
    completed drag as a swipe exactly when the gesture is enabled, |Δy| is
    not greater than the double |Δx| * 0.7, and either Δx > threshold
    or (Δx > 50 and velocity_x > 300) with canSwipeLeft, or Δx < -threshold
    or (Δx < -50 and velocity_x < -300) with canSwipeRight, the threshold
    being 0.25·width.  For every drag with |Δy| greater than that double it
    invokes no callback and, when enabled, resets the card to the centre.
    For a drag of a pixel or more the double is within |Δx|·2^-52 of
    0.7·|Δx|.  The pan handler of FlashCard.tsx, the one the screen
    attaches, has no vertical test: it reports a swipe exactly when
    |Δx| > 0.25·width or |velocity_x| > 500. *)
Theorem hook_swipe_classification (SCREEN_WIDTH : Q)
    (p : UseFlashcardGestures.Props) (e : PanEvent) :
  (0 <= SCREEN_WIDTH)%Q ->
  let T := UseFlashcardGestures.SWIPE_THRESHOLD SCREEN_WIDTH in
  let limit := Double.mul (Qabs (translationX e)) (Double.round (7 # 10)) in
  ((exists cb, UseFlashcardGestures.onEnd SCREEN_WIDTH p e
               = UseFlashcardGestures.Swipe cb)
   <-> UseFlashcardGestures.disabled p = false
       /\ (Qabs (translationY e) <= limit)%Q
       /\ ((((T < translationX e)%Q
             \/ ((50 < translationX e)%Q /\ (300 < velocityX e)%Q))
            /\ UseFlashcardGestures.canSwipeLeft p = true)
           \/ (((translationX e < - T)%Q
                \/ ((translationX e < - (50))%Q /\ (velocityX e < - (300))%Q))
               /\ UseFlashcardGestures.canSwipeRight p = true)))
  /\ ((limit < Qabs (translationY e))%Q ->
      (forall cb, UseFlashcardGestures.onEnd SCREEN_WIDTH p e
                  ≠ UseFlashcardGestures.Swipe cb)
      /\ (UseFlashcardGestures.disabled p = false ->
          UseFlashcardGestures.onEnd SCREEN_WIDTH p e
          = UseFlashcardGestures.ResetToCenter))
  /\ ((1 <= Qabs (translationX e))%Q ->
      (Qabs (limit - Qabs (translationX e) * (7 # 10))
       <= Qabs (translationX e) * Double.pow2 (-52))%Q)
  /\ (is_Some (FlashCardComponent.handlePanGestureStateChange SCREEN_WIDTH e)
      <-> (T < translationX e)%Q \/ (500 < velocityX e)%Q
          \/ (translationX e < - T)%Q \/ (velocityX e < - (500))%Q).
Proof.
  intros Hw T limit. subst T limit. split; [|split; [|split]].
  - rewrite <- (GestureFacts.shouldSwipeLeft_iff SCREEN_WIDTH p e).
    rewrite <- (GestureFacts.shouldSwipeRight_iff SCREEN_WIDTH p e).
    split.
    + intros [cb Hcb]. apply GestureFacts.onEnd_swipe in Hcb; [|assumption].
      destruct Hcb as (Hd & Hv & Hs). destruct cb; auto.
    + intros (Hd & Hv & [Hs | Hs]).
      * exists onSwipeLeft. apply GestureFacts.onEnd_swipe; auto.
      * exists onSwipeRight. apply GestureFacts.onEnd_swipe; auto.
  - intros Hv.
    pose proof (GestureFacts.onEnd_vertical SCREEN_WIDTH p e Hv) as Ho.
    split.
    + intros cb Hcb. rewrite Ho in Hcb.
      destruct (UseFlashcardGestures.disabled p); discriminate.
    + intros Hd. now rewrite Ho, Hd.
  - apply GestureFacts.limit_error.
  - apply GestureFacts.handlePanGestureStateChange_iff.
Qed.

Lemma hook_swipe_classification_witness :
  (0 <= 390)%Q
  /\ (Double.mul (Qabs (translationX vertical_drag)) (Double.round (7 # 10))
      < Qabs (translationY vertical_drag))%Q
  /\ UseFlashcardGestures.disabled
       (FlashcardsScreen.gestureProps deck3 (FlashcardsScreen.initial deck3))
     = false
  /\ UseFlashcardGestures.onEnd 390
       (FlashcardsScreen.gestureProps deck3 (FlashcardsScreen.initial deck3))
       vertical_drag
     = UseFlashcardGestures.ResetToCenter.
Proof.
  assert (Hw : (0 <= 390)%Q) by discriminate.
  assert (Hv : (Double.mul (Qabs (translationX vertical_drag))
                  (Double.round (7 # 10))
                < Qabs (translationY vertical_drag))%Q)
    by (vm_compute; reflexivity).
  assert (Hd : UseFlashcardGestures.disabled
                 (FlashcardsScreen.gestureProps deck3
                    (FlashcardsScreen.initial deck3)) = false)
    by (vm_compute; reflexivity).
  split; [exact Hw|]. split; [exact Hv|]. split; [exact Hd|].
  exact (proj2 (proj1 (proj2 (hook_swipe_classification 390
           (FlashcardsScreen.gestureProps deck3 (FlashcardsScreen.initial deck3))
           vertical_drag Hw)) Hv) Hd).
Defined.




(** C6 — counterexample.  After one nextCard on a three-card deck the
    progress kept by useFlashcardState is the double 33.33333333333333...,
    not round(1/3·100) = 33. *)
Lemma one_third_is_not_rounded :
  currentCardIndex
    (UseFlashcardState.nextCard deck3 true (UseFlashcardState.mounted deck3)) = 1
  /\ ~ (progress
          (UseFlashcardState.nextCard deck3 true
             (UseFlashcardState.mounted deck3))
        == inject_Z (JS.Math_round (inject_Z 1 / inject_Z 3 * 100)))%Q.
Proof. split; [vm_compute; reflexivity|]. vm_compute. discriminate. Qed.

(** The percentage is rounded twice: at index 23 of 40 the double
    (23 / 40) * 100 is 57.49999999999999, so calculateProgress and
    calculateScore return 57, while the exact 57.5 rounds to 58. *)
Lemma twice_rounded_percentage :
  FlashcardUtils.calculateProgress 23 40 = 57
  /\ FlashcardUtils.calculateScore 23 40 = 57
  /\ JS.Math_round (inject_Z 23 / inject_Z 40 * 100) = 58.
Proof. repeat split; vm_compute; reflexivity. Qed.

(** C6 — amended claim.  In useFlashcardState the progress after every
    action is the double (currentCardIndex / cards.length) * 100, not
    rounded to an integer (0 for an empty deck); it lies in [0,100], does
    not decrease across nextCard, does not increase across previousCard and
    is within 2^-45 of the exact percentage.  flashcardUtils.calculateProgress
    returns Math.round of that double, which is what useFlashcards stores;
    it is monotone in the index, within [0,100] for 0 ≤ index ≤ length and
    within 1/2 + 2^-45 of the exact percentage, from whose rounding it can
    differ: at index 23 of 40 it is 57, not 58. *)
Theorem progress_tracks_index (cards : list Flashcard) (fresh : bool)
    (st : FlashcardState) (deck_id : string) (autoSave : bool)
    (h : UseFlashcards.t) (i j n : Z) :
  UseFlashcardState.reachable cards fresh st ->
  UseFlashcards.reachable deck_id cards autoSave h ->
  0 <= i <= j -> j <= n ->
  let len := UseFlashcardState.cards_length cards in
  let index := currentCardIndex st in
  ((0 < len ->
    (progress st
     == Double.mul (Double.div (inject_Z index) (inject_Z len)) 100)%Q)
   /\ (len = 0 -> (progress st == 0)%Q)
   /\ (0 <= progress st)%Q /\ (progress st <= 100)%Q
   /\ (progress st <= progress (UseFlashcardState.nextCard cards fresh st))%Q
   /\ (progress (UseFlashcardState.previousCard cards fresh st) <= progress st)%Q
   /\ (0 < len ->
       (Qabs (progress st - inject_Z index / inject_Z len * 100)
        <= Double.pow2 (-45))%Q)
   /\ JS.Math_round (progress st) = FlashcardUtils.calculateProgress index len)
  /\ (progress (UseFlashcards.state h)
      == inject_Z (FlashcardUtils.calculateProgress
                     (currentCardIndex (UseFlashcards.state h))
                     (UseFlashcards.cards_length cards)))%Q
  /\ (FlashcardUtils.calculateProgress i n
      <= FlashcardUtils.calculateProgress j n
      /\ 0 <= FlashcardUtils.calculateProgress i n <= 100
      /\ (0 < n ->
          (Qabs (inject_Z (FlashcardUtils.calculateProgress i n)
                 - inject_Z i / inject_Z n * 100)
           <= (1 # 2) + Double.pow2 (-45))%Q))
  /\ (FlashcardUtils.calculateProgress 23 40 = 57
      /\ JS.Math_round (inject_Z 23 / inject_Z 40 * 100) = 58).
Proof.
  intros Hs Hh Hij Hjn len index. subst index.
  pose proof (ProgressFacts.reachable_synced cards fresh st Hs) as Hp.
  pose proof (SessionFacts.reachable_in_bounds cards fresh st Hs) as Hb.
  pose proof (SessionFacts.cards_length_nonneg cards) as Hlen.
  pose proof (ProgressFacts.reachable_synced cards fresh _
                (UseFlashcardState.reach_step cards fresh NextCard st Hs)) as Hn.
  pose proof (ProgressFacts.reachable_synced cards fresh _
                (UseFlashcardState.reach_step cards fresh PreviousCard st Hs))
    as Hq.
  unfold UseFlashcardState.synced in *. simpl in Hn, Hq.
  unfold UseFlashcardState.in_bounds in Hb. fold len in Hb, Hlen.
  split; [|split; [|split]].
  - split.
    { intros Hl. rewrite Hp. unfold UseFlashcardState.progress_of_index.
      fold len. apply Z.ltb_lt in Hl. rewrite Hl. reflexivity. }
    split.
    { intros Hl. rewrite Hp. unfold UseFlashcardState.progress_of_index.
      fold len. rewrite Hl. reflexivity. }
    destruct (ProgressFacts.progress_of_index_bounds cards _ Hb) as [H0 H100].
    split; [now rewrite Hp|]. split; [now rewrite Hp|]. split.
    { rewrite Hp, Hn. apply ProgressFacts.progress_of_index_le.
      change (UseFlashcardState.nextCard cards fresh st)
        with (UseFlashcardState.step cards fresh NextCard st).
      rewrite SessionFacts.step_index. split_tests; reflect_tests; lia. }
    split.
    { rewrite Hp, Hq. apply ProgressFacts.progress_of_index_le.
      change (UseFlashcardState.previousCard cards fresh st)
        with (UseFlashcardState.step cards fresh PreviousCard st).
      rewrite SessionFacts.step_index. split_tests; reflect_tests; lia. }
    split.
    { intros Hl. rewrite Hp.
      now apply ProgressFacts.progress_of_index_error. }
    rewrite (PercentFacts.Math_round_comp _ _ Hp).
    apply ProgressFacts.Math_round_progress_of_index.
  - exact (UseFlashcardsProgress.reachable_rounded deck_id cards autoSave h Hh).
  - split; [|split].
    + apply PercentFacts.calculateProgress_mono; lia.
    + apply PercentFacts.calculateProgress_bounds; lia.
    + intros Hn0. apply PercentFacts.calculateProgress_error; lia.
  - split; vm_compute; reflexivity.
Qed.

Lemma progress_tracks_index_witness :
  UseFlashcardState.reachable deck3 true (UseFlashcardState.mounted deck3)
  /\ UseFlashcards.reachable "deck" deck3 false hook0
  /\ 0 <= 1 <= 2 /\ 2 <= 3
  /\ FlashcardUtils.calculateProgress 1 3 <= FlashcardUtils.calculateProgress 2 3.
Proof.
  assert (H1 : UseFlashcardState.reachable deck3 true
                 (UseFlashcardState.mounted deck3)) by constructor.
  assert (H2 : UseFlashcards.reachable "deck" deck3 false hook0) by constructor.
  assert (H3 : 0 <= 1 <= 2) by lia.
  assert (H4 : 2 <= 3) by lia.
  split; [exact H1|]. split; [exact H2|]. split; [exact H3|]. split; [exact H4|].
  exact (proj1 (proj1 (proj2 (proj2 (progress_tracks_index deck3 true _ "deck"
                                       false hook0 1 2 3 H1 H2 H3 H4))))).
Defined.

(** C7 — counterexample.  Two presses 100 ms apart on the first card of a
    three-card deck: the second one is not dropped, the card is face up
    after the first and face down again after the second. *)
Lemma second_flip_is_not_dropped :
  ~ spec_second_flip_dropped deck3 390 150.
Proof.
  intros H. specialize (H (initial deck3) 1000 1100 ltac:(lia)).
  apply (f_equal (fun s => isFlipped (state s))) in H.
  vm_compute in H. discriminate.
Qed.

(** C7 — amended claim.  A flip is dropped only while a swipe transition is
    in progress (isAnimating); there is no cooldown on flips.  With the card
    at rest, a press toggles isFlipped, and two presses or two taps, however
    close in time, toggle it twice and leave the screen as it was.  The
    300 ms cooldown belongs to the swipe handlers, which return at once
    inside it. *)
Theorem flips_gated_by_animation_only (cards : list Flashcard)
    (SCREEN_WIDTH : Q) (scr : FlashcardsScreen.t) (t1 t2 : Z) :
  isAnimating scr = false ->
  is_Some (currentCard cards scr) ->
  isFlipped (state (handle cards SCREEN_WIDTH (CardPress t1) scr))
  = negb (isFlipped (state scr))
  /\ run cards SCREEN_WIDTH [CardPress t1; CardPress t2] scr = scr
  /\ (screenIsComplete scr = false -> gestureIsAnimating scr = false ->
      run cards SCREEN_WIDTH [HookTapEnd t1; HookTapEnd t2] scr = scr)
  /\ (forall scr', isAnimating scr' = true ->
        handle cards SCREEN_WIDTH (CardPress t1) scr' = scr'
        /\ handle cards SCREEN_WIDTH (HookTapEnd t1) scr' = scr')
  /\ (forall scr' now, now - lastSwipeTime scr' < SWIPE_COOLDOWN ->
        handleSwipeLeft cards now scr' = scr'
        /\ handleSwipeRight now scr' = scr').
Proof.
  intros Ha Hc. pose proof (ScreenFacts.currentCard_index cards scr Hc) as Hlt.
  assert (Hc1 : is_Some (currentCard cards (handleFlip cards scr))).
  { rewrite ScreenFacts.handleFlip_on_card by assumption. exact Hc. }
  split; [|split; [|split; [|split]]].
  - simpl. destruct (currentCard cards scr) eqn:E; [|now destruct Hc].
    now rewrite ScreenFacts.handleFlip_on_card.
  - unfold run. cbn [fold_left handle].
    destruct (currentCard cards scr) eqn:E; [|now destruct Hc].
    destruct (currentCard cards (handleFlip cards scr)) eqn:E1;
      [|now destruct Hc1].
    now apply ScreenFacts.handleFlip_twice.
  - intros Hsc Hg. unfold run. cbn [fold_left handle].
    assert (Ht : forall s, screenIsComplete s = false ->
                   gestureIsAnimating s = false ->
                   is_Some (currentCard cards s) ->
                   UseFlashcardGestures.tapOnEnd (gestureProps cards s)
                     (gestureIsAnimating s) = true).
    { intros s H1 H2 H3. unfold UseFlashcardGestures.tapOnEnd, gestureProps.
      simpl. rewrite H1, H2, (bool_decide_eq_true_2 _ H3). reflexivity. }
    rewrite (Ht scr Hsc Hg Hc).
    rewrite Ht; [now apply ScreenFacts.handleFlip_twice | | | exact Hc1];
      now rewrite ScreenFacts.handleFlip_on_card.
  - intros scr' Ha'. simpl.
    rewrite (ScreenFacts.handleFlip_animating cards scr' Ha').
    split; [now destruct (currentCard cards scr')|].
    now destruct (UseFlashcardGestures.tapOnEnd _ _).
  - intros scr' now Hcd. split.
    + now apply ScreenFacts.handleSwipeLeft_cooldown.
    + now apply ScreenFacts.handleSwipeRight_cooldown.
Qed.

Lemma flips_gated_by_animation_only_witness :
  isAnimating (initial deck3) = false
  /\ is_Some (currentCard deck3 (initial deck3))
  /\ run deck3 390 [CardPress 1000; CardPress 1100] (initial deck3)
     = initial deck3.
Proof.
  assert (H1 : isAnimating (initial deck3) = false) by reflexivity.
  assert (H2 : is_Some (currentCard deck3 (initial deck3))) by (eexists; reflexivity).
  split; [exact H1|]. split; [exact H2|].
  exact (proj1 (proj2 (flips_gated_by_animation_only deck3 390 (initial deck3)
                         1000 1100 H1 H2))).
Defined.



(** C9 — saving a progress record for a deck id and then loading the
    progress of that deck id returns the record saved (hence the same
    currentCardIndex, correctAnswers, totalAnswers and totalStudyTime), when
    the storage calls succeed; a save under another deck id in between does
    not change what is loaded; and what the auto-save of useFlashcards
    stores loads back with the session's index and counters. *)
Theorem progress_round_trip (deckId other : string)
    (progress other_progress : FlashcardProgress.t) (s : Storage.t)
    (now : Z) (h : UseFlashcards.t) :
  Storage.available s = true ->
  Storage.available (UseFlashcards.storage h) = true ->
  deckId ≠ other ->
  FlashcardUtils.loadProgress deckId
    (FlashcardUtils.saveProgress deckId progress s) = Some progress
  /\ FlashcardUtils.loadProgress deckId
       (FlashcardUtils.saveProgress other other_progress
          (FlashcardUtils.saveProgress deckId progress s)) = Some progress
  /\ exists loaded,
       FlashcardUtils.loadProgress deckId
         (UseFlashcards.storage
            (UseFlashcards.autoSaveProgress deckId true now h)) = Some loaded
       /\ FlashcardProgress.currentCardIndex loaded
          = currentCardIndex (UseFlashcards.state h)
       /\ FlashcardProgress.correctAnswers loaded
          = UseFlashcards.correctAnswers (UseFlashcards.session h)
       /\ FlashcardProgress.totalAnswers loaded
          = UseFlashcards.totalAnswers (UseFlashcards.session h)
       /\ FlashcardProgress.totalStudyTime loaded
          = (now - UseFlashcards.startTime (UseFlashcards.session h)) / 1000.
Proof.
  intros Ha Hh Hne. split; [|split].
  - now apply StorageFacts.loadProgress_saveProgress.
  - rewrite StorageFacts.loadProgress_saveProgress_ne by assumption.
    now apply StorageFacts.loadProgress_saveProgress.
  - eexists. unfold UseFlashcards.autoSaveProgress. simpl.
    rewrite StorageFacts.loadProgress_saveProgress by assumption.
    repeat split.
Qed.

Lemma progress_round_trip_witness :
  Storage.available storage0 = true
  /\ "deck" ≠ "other"
  /\ FlashcardUtils.loadProgress "deck"
       (FlashcardUtils.saveProgress "deck" progress1 storage0) = Some progress1.
Proof.
  assert (H1 : Storage.available storage0 = true) by reflexivity.
  assert (H2 : "deck" ≠ "other") by discriminate.
  split; [exact H1|]. split; [exact H2|].
  exact (proj1 (progress_round_trip "deck" "other" progress1 progress1 storage0
                  0 hook0 H1 H1 H2)).
Defined.

(** C10 — for every index i with i < 0 or i ≥ cards.length, goToCard(i)
    returns the state it was given: currentCardIndex, isFlipped, isComplete
    and progress are what they were, in useFlashcardState and in
    useFlashcards (where the session record and the storage are untouched as
    well); no error is signalled. *)
Theorem goToCard_out_of_range (cards : list Flashcard) (fresh : bool)
    (i : Z) (st : FlashcardState) (deck_id : string) (now : Z)
    (nowISO : string) (h : UseFlashcards.t) :
  i < 0 \/ UseFlashcardState.cards_length cards <= i ->
  UseFlashcardState.goToCard cards fresh i st = st
  /\ UseFlashcards.goToCard deck_id cards i now nowISO h = h.
Proof.
  intros Hi. split.
  - now apply SessionFacts.goToCard_invalid.
  - now apply UseFlashcardsFacts.goToCard_rejected.
Qed.

Lemma goToCard_out_of_range_witness :
  (3 < 0 \/ UseFlashcardState.cards_length deck3 <= 3)
  /\ UseFlashcardState.goToCard deck3 true 3 (UseFlashcardState.mounted deck3)
     = UseFlashcardState.mounted deck3.
Proof.
  assert (H : 3 < 0 \/ UseFlashcardState.cards_length deck3 <= 3)
    by (right; unfold UseFlashcardState.cards_length; simpl; lia).
  split; [exact H|].
  exact (proj1 (goToCard_out_of_range deck3 true 3
                  (UseFlashcardState.mounted deck3) "deck" 0 "" hook0 H)).
Defined.

(** * Further properties of the cited files *)

(** ** flashcardUtils: shuffling and selecting cards *)

(** X1 — shuffleCards returns a rearrangement of the cards it is given:
    the same cards, each as many times as before, hence as many cards; this
    holds whatever values in [0, 1) Math.random() produces. *)
Theorem shuffleCards_Permutation (random : nat -> Q)
    (cards : list Flashcard) :
  FlashcardUtils.unit_random random ->
  exists shuffled,
    FlashcardUtils.shuffleCards random cards = Some shuffled
    /\ shuffled ≡ₚ cards
    /\ length shuffled = length cards
    /\ (forall card, card ∈ shuffled <-> card ∈ cards).
Proof.
  intros Hr.
  destruct (ShuffleFacts.shuffleCards_Some random cards Hr) as (sh & Hs & Hp).
  exists sh. split; [exact Hs|]. split; [exact Hp|]. split.
  - now rewrite Hp.
  - intros card. now rewrite Hp.
Qed.

Lemma shuffleCards_Permutation_witness :
  FlashcardUtils.unit_random (fun n => if Nat.even n then 1 # 2 else 9 # 10)
  /\ exists shuffled,
       FlashcardUtils.shuffleCards
         (fun n => if Nat.even n then 1 # 2 else 9 # 10) deck3 = Some shuffled
       /\ shuffled ≡ₚ deck3.
Proof.
  assert (H : FlashcardUtils.unit_random
                (fun n => if Nat.even n then 1 # 2 else 9 # 10)).
  { intros n. destruct (Nat.even n); split; reflexivity || discriminate. }
  split; [exact H|].
  destruct (shuffleCards_Permutation _ deck3 H) as (sh & Hs & Hp & _).
  exists sh. split; assumption.
Defined.

(** X2 — getRandomCards(cards, count) with count ≥ 0 returns
    min(count, cards.length) cards, all taken from the deck and none more
    often than the deck holds it; a negative count is passed to slice as an
    end counted from the back, so max(cards.length + count, 0) cards come
    back. *)
Theorem getRandomCards_subset (random : nat -> Q) (cards : list Flashcard)
    (count : Z) :
  FlashcardUtils.unit_random random ->
  exists picked,
    FlashcardUtils.getRandomCards random cards count = Some picked
    /\ picked ⊆+ cards
    /\ (0 <= count ->
        Z.of_nat (length picked) = Z.min count (Z.of_nat (length cards)))
    /\ (count < 0 ->
        Z.of_nat (length picked)
        = Z.max (Z.of_nat (length cards) + count) 0).
Proof.
  intros Hr.
  destruct (ShuffleFacts.shuffleCards_Some random cards Hr) as (sh & Hs & Hp).
  assert (Hl : length sh = length cards) by now rewrite Hp.
  unfold FlashcardUtils.getRandomCards. rewrite Hs.
  destruct (Z.of_nat (length cards) <=? count) eqn:Hc; reflect_tests.
  - exists sh. split; [reflexivity|]. split; [now rewrite Hp|]. split; lia.
  - exists (FlashcardUtils.slice0 count sh). split; [reflexivity|]. split.
    + rewrite <- Hp. apply sublist_submseteq. unfold FlashcardUtils.slice0.
      apply sublist_take.
    + rewrite ShuffleFacts.length_slice0, Hl.
      split; intros Hn; destruct (count <? 0) eqn:E; reflect_tests; lia.
Qed.

Lemma getRandomCards_subset_witness :
  FlashcardUtils.unit_random (fun _ => 0%Q)
  /\ exists picked,
       FlashcardUtils.getRandomCards (fun _ => 0%Q) deck3 2 = Some picked
       /\ picked ⊆+ deck3.
Proof.
  assert (H : FlashcardUtils.unit_random (fun _ => 0%Q))
    by (intros n; split; reflexivity || discriminate).
  split; [exact H|].
  destruct (getRandomCards_subset _ deck3 2 H) as (pk & Hs & Hp & _).
  exists pk. split; assumption.
Defined.

(** ** flashcardUtils: difficulty classes *)

Module DifficultyFacts.
Import FlashcardUtils.

Lemma filterByDifficulty_In cards difficulty card :
  In card (filterByDifficulty cards difficulty) <->
  In card cards
  /\ match difficulty with
     | easy => Z.of_nat (String.length (explanation card)) < 200
     | medium => 200 <= Z.of_nat (String.length (explanation card)) < 400
     | hard => 400 <= Z.of_nat (String.length (explanation card))
     end.
Proof.
  unfold filterByDifficulty. rewrite filter_In.
  destruct difficulty; reflect_tests; reflexivity.
Qed.

Lemma filterByDifficulty_partition cards :
  filterByDifficulty cards easy ++ filterByDifficulty cards medium
    ++ filterByDifficulty cards hard ≡ₚ cards.
Proof.
  induction cards as [|card cards IH]; [reflexivity|].
  unfold filterByDifficulty in *. cbn [List.filter].
  destruct (Z.of_nat (String.length (explanation card)) <? 200) eqn:E1;
    destruct (200 <=? Z.of_nat (String.length (explanation card))) eqn:E2;
    destruct (Z.of_nat (String.length (explanation card)) <? 400) eqn:E3;
    destruct (400 <=? Z.of_nat (String.length (explanation card))) eqn:E4;
    reflect_tests; try lia; cbn [andb app].
  - now rewrite IH.
  - rewrite <- Permutation_middle. now rewrite IH.
  - rewrite app_assoc, <- Permutation_middle, <- app_assoc. now rewrite IH.
Qed.

End DifficultyFacts.

(** X3 — the three difficulty classes of filterByDifficulty split the
    deck: the easy, medium and hard cards together are the deck, card for
    card, and no card falls into two classes. *)
Theorem difficulty_classes_partition (cards : list Flashcard) :
  FlashcardUtils.filterByDifficulty cards FlashcardUtils.easy
    ++ FlashcardUtils.filterByDifficulty cards FlashcardUtils.medium
    ++ FlashcardUtils.filterByDifficulty cards FlashcardUtils.hard ≡ₚ cards
  /\ (length (FlashcardUtils.filterByDifficulty cards FlashcardUtils.easy)
      + length (FlashcardUtils.filterByDifficulty cards FlashcardUtils.medium)
      + length (FlashcardUtils.filterByDifficulty cards FlashcardUtils.hard)
      = length cards)%nat
  /\ (forall card d1 d2,
        In card (FlashcardUtils.filterByDifficulty cards d1) ->
        In card (FlashcardUtils.filterByDifficulty cards d2) -> d1 = d2).
Proof.
  pose proof (DifficultyFacts.filterByDifficulty_partition cards) as Hp.
  split; [exact Hp|]. split.
  - apply Permutation_length in Hp. rewrite !length_app in Hp. lia.
  - intros card d1 d2 H1 H2.
    apply DifficultyFacts.filterByDifficulty_In in H1 as [_ H1].
    apply DifficultyFacts.filterByDifficulty_In in H2 as [_ H2].
    destruct d1, d2; (reflexivity || lia).
Qed.

(** ** flashcardUtils: the next card *)

Module NextCardFacts.
Import FlashcardUtils.

Lemma drawOtherIndex_spec draws cur total j :
  Forall (fun r => (0 <= r)%Q /\ (r < 1)%Q) draws -> 0 < total ->
  drawOtherIndex draws cur total = Some j ->
  0 <= j < total /\ j ≠ cur.
Proof.
  intros Hd Hpos.
  induction Hd as [|r rest [Hr0 Hr1] _ IH];
    cbn [drawOtherIndex]; [discriminate|].
  destruct (Z.eqb_spec (JS.Math_floor (r * inject_Z total)) cur) as [He|He];
    [exact IH|].
  intros Hj.
  assert (j = JS.Math_floor (r * inject_Z total)) as -> by congruence.
  split; [|exact He]. now apply ShuffleFacts.random_index.
Qed.

(** The loop ends at the first draw that gives another index. *)
Lemma drawOtherIndex_first skipped r rest cur total :
  Forall (fun q => JS.Math_floor (q * inject_Z total) = cur) skipped ->
  JS.Math_floor (r * inject_Z total) ≠ cur ->
  drawOtherIndex (skipped ++ r :: rest) cur total
  = Some (JS.Math_floor (r * inject_Z total)).
Proof.
  intros Hs Hr. induction Hs as [|q skipped Hq _ IH]; cbn [drawOtherIndex app].
  - apply Z.eqb_neq in Hr. now rewrite Hr.
  - apply Z.eqb_eq in Hq. now rewrite Hq.
Qed.

End NextCardFacts.

(** X4 — getNextCardIndex never answers with the current index, and an
    index it answers with is a card of the deck: in 'sequential' and
    'spaced' mode it is currentIndex + 1 when that is below totalCards and
    null otherwise; in 'random' mode it is null for a deck of at most one
    card and otherwise another index in [0, totalCards). *)
Theorem getNextCardIndex_other_card (draws : list Q)
    (currentIndex totalCards : Z) (studyMode : StudyMode)
    (answer : option Z) :
  Forall (fun r => (0 <= r)%Q /\ (r < 1)%Q) draws ->
  0 <= currentIndex ->
  FlashcardUtils.getNextCardIndex draws currentIndex totalCards studyMode
  = Some answer ->
  match answer with
  | Some nextIndex =>
      0 <= nextIndex < totalCards /\ nextIndex ≠ currentIndex
      /\ (studyMode ≠ random -> nextIndex = currentIndex + 1)
  | None =>
      (studyMode = random /\ totalCards <= 1)
      \/ (studyMode ≠ random /\ totalCards - 1 <= currentIndex)
  end.
Proof.
  intros Hd Hc. unfold FlashcardUtils.getNextCardIndex.
  destruct studyMode.
  - destruct (currentIndex <? totalCards - 1) eqn:Hlt; intros [= <-];
      reflect_tests; [|right; split; [discriminate | lia]].
    split; [lia|]. split; [lia|]. reflexivity.
  - destruct (totalCards <=? 1) eqn:Hle; reflect_tests.
    + intros [= <-]. left. split; [reflexivity | exact Hle].
    + destruct (FlashcardUtils.drawOtherIndex draws currentIndex totalCards)
        as [j|] eqn:Hj; [|discriminate].
      intros [= <-].
      apply NextCardFacts.drawOtherIndex_spec in Hj; [|assumption|lia].
      destruct Hj as [Hj1 Hj2]. split; [lia|]. split; [assumption|].
      congruence.
  - destruct (currentIndex <? totalCards - 1) eqn:Hlt; intros [= <-];
      reflect_tests; [|right; split; [discriminate | lia]].
    split; [lia|]. split; [lia|]. reflexivity.
Qed.

Lemma getNextCardIndex_other_card_witness :
  Forall (fun r => (0 <= r)%Q /\ (r < 1)%Q) [1 # 2; 9 # 10]
  /\ 0 <= 1
  /\ FlashcardUtils.getNextCardIndex [1 # 2; 9 # 10] 1 3 random = Some (Some 2)
  /\ 0 <= 2 < 3.
Proof.
  assert (H1 : Forall (fun r => (0 <= r)%Q /\ (r < 1)%Q) [1 # 2; 9 # 10])
    by (repeat constructor; discriminate).
  assert (H2 : 0 <= 1) by lia.
  assert (H3 : FlashcardUtils.getNextCardIndex [1 # 2; 9 # 10] 1 3 random
               = Some (Some 2)) by reflexivity.
  split; [exact H1|]. split; [exact H2|]. split; [exact H3|].
  exact (proj1 (getNextCardIndex_other_card _ 1 3 random (Some 2) H1 H2 H3)).
Defined.

(** ** flashcardUtils: completed decks, reset and statistics *)

Module CompletedFacts.
Import FlashcardUtils.

Lemma includes_In (l : list string) (x : string) :
  includes l x = true <-> In x l.
Proof.
  unfold includes. rewrite existsb_exists. split.
  - intros (y & Hy & He). apply String.eqb_eq in He. now subst.
  - intros Hx. exists x. split; [exact Hx | apply String.eqb_refl].
Qed.

Lemma includes_false (l : list string) (x : string) :
  includes l x = false <-> ~ In x l.
Proof. rewrite <- includes_In. now destruct (includes l x). Qed.

Lemma includes_app (l1 l2 : list string) (x : string) :
  includes (l1 ++ l2) x = includes l1 x || includes l2 x.
Proof. unfold includes. apply existsb_app. Qed.

(** The list of completed decks after [markDeckCompleted]. *)
Lemma getCompletedDecks_mark deckId s :
  Storage.available s = true ->
  getCompletedDecks (markDeckCompleted deckId s)
  = if includes (getCompletedDecks s) deckId then getCompletedDecks s
    else getCompletedDecks s ++ [deckId].
Proof.
  intros Ha.
  unfold getCompletedDecks, markDeckCompleted, Storage.get,
    Storage.set_completed_decks.
  rewrite Ha. destruct (includes _ deckId) eqn:Hi; simpl; rewrite ?Ha, ?Hi;
    reflexivity.
Qed.

Lemma isDeckCompleted_list deckId s :
  isDeckCompleted deckId s = includes (getCompletedDecks s) deckId.
Proof.
  unfold isDeckCompleted, getCompletedDecks, Storage.get.
  now destruct (Storage.available s).
Qed.

Lemma markDeckCompleted_available deckId s :
  Storage.available (markDeckCompleted deckId s) = Storage.available s.
Proof. apply StorageFacts.markDeckCompleted_statistics. Qed.

Lemma markDeckCompleted_progress deckId s :
  Storage.flashcard_progress (markDeckCompleted deckId s)
  = Storage.flashcard_progress s.
Proof.
  unfold markDeckCompleted, Storage.get, Storage.set_completed_decks.
  destruct (Storage.available s) eqn:Ha; [|reflexivity].
  destruct (includes _ deckId); [reflexivity | now simpl].
Qed.

(** The tables after [resetDeckProgress] when storage answers. *)
Lemma resetDeckProgress_available deckId s :
  Storage.available s = true ->
  resetDeckProgress deckId s
  = Storage.mk true
      (Some (delete deckId (or_empty (Storage.flashcard_progress s))))
      (Some (filter (fun x => x ≠ deckId)
               (default [] (Storage.completed_decks s))))
      (Storage.deck_statistics s).
Proof.
  intros Ha.
  unfold resetDeckProgress, Storage.get, Storage.set_flashcard_progress,
    Storage.set_completed_decks.
  rewrite Ha. reflexivity.
Qed.

Lemma loadProgress_table deckId s :
  Storage.available s = true ->
  loadProgress deckId s = or_empty (Storage.flashcard_progress s) !! deckId.
Proof.
  intros Ha. unfold loadProgress, Storage.get. rewrite Ha.
  destruct (Storage.flashcard_progress s); [reflexivity|].
  symmetry. apply lookup_empty.
Qed.

Lemma In_filter_ne (l : list string) (x d : string) :
  In x (filter (fun y => y ≠ d) l) <-> In x l /\ x ≠ d.
Proof. rewrite <- !list_elem_of_In, list_elem_of_filter. tauto. Qed.

End CompletedFacts.

Module TableFacts.
Import FlashcardUtils CompletedFacts.

Lemma markDeckCompleted_noop deckId s :
  isDeckCompleted deckId s = true -> markDeckCompleted deckId s = s.
Proof.
  unfold isDeckCompleted, markDeckCompleted, Storage.get.
  destruct (Storage.available s); [|reflexivity].
  intros Hi. now rewrite Hi.
Qed.

Lemma isDeckCompleted_mark deckId other s :
  Storage.available s = true ->
  isDeckCompleted other (markDeckCompleted deckId s)
  = isDeckCompleted other s || String.eqb other deckId.
Proof.
  intros Ha. rewrite !isDeckCompleted_list, getCompletedDecks_mark by assumption.
  destruct (includes (getCompletedDecks s) deckId) eqn:Hi.
  - destruct (String.eqb_spec other deckId) as [->|Hne].
    + now rewrite Hi.
    + now rewrite orb_false_r.
  - rewrite includes_app. f_equal. simpl. now rewrite orb_false_r.
Qed.

Lemma isDeckCompleted_reset deckId other s :
  Storage.available s = true ->
  isDeckCompleted other (resetDeckProgress deckId s)
  = isDeckCompleted other s && negb (String.eqb other deckId).
Proof.
  intros Ha. rewrite resetDeckProgress_available by assumption.
  unfold isDeckCompleted, Storage.get. rewrite Ha. simpl.
  apply eq_true_iff_eq.
  rewrite andb_true_iff, negb_true_iff, !includes_In, In_filter_ne.
  now rewrite String.eqb_neq.
Qed.

Lemma loadProgress_reset deckId other s :
  Storage.available s = true ->
  loadProgress other (resetDeckProgress deckId s)
  = if String.eqb other deckId then None else loadProgress other s.
Proof.
  intros Ha. rewrite (loadProgress_table other s Ha).
  rewrite resetDeckProgress_available by assumption.
  unfold loadProgress, Storage.get. simpl.
  destruct (String.eqb_spec other deckId) as [->|Hne].
  - apply lookup_delete_eq.
  - now apply lookup_delete_ne.
Qed.

Lemma loadDeckStatistics_reset deckId other s :
  loadDeckStatistics other (resetDeckProgress deckId s)
  = loadDeckStatistics other s.
Proof.
  destruct (Storage.available s) eqn:Ha.
  - rewrite resetDeckProgress_available by assumption.
    unfold loadDeckStatistics, Storage.get. simpl. now rewrite Ha.
  - unfold resetDeckProgress, Storage.get. now rewrite Ha.
Qed.

Lemma saveDeckStatistics_other_tables deckId stats s :
  Storage.flashcard_progress (saveDeckStatistics deckId stats s)
  = Storage.flashcard_progress s
  /\ Storage.completed_decks (saveDeckStatistics deckId stats s)
     = Storage.completed_decks s
  /\ Storage.available (saveDeckStatistics deckId stats s)
     = Storage.available s.
Proof.
  unfold saveDeckStatistics, Storage.get, Storage.set_deck_statistics.
  destruct (Storage.available s) eqn:Ha; simpl; auto.
Qed.

Lemma saveProgress_other_tables deckId progress s :
  Storage.deck_statistics (saveProgress deckId progress s)
  = Storage.deck_statistics s
  /\ Storage.completed_decks (saveProgress deckId progress s)
     = Storage.completed_decks s
  /\ Storage.available (saveProgress deckId progress s)
     = Storage.available s.
Proof.
  unfold saveProgress, Storage.get, Storage.set_flashcard_progress.
  destruct (Storage.available s) eqn:Ha; simpl; auto.
Qed.

End TableFacts.

(** X5 — markDeckCompleted is an idempotent add to the list of completed
    decks: afterwards isDeckCompleted answers true for the deck, marking a
    second time changes nothing, a list without duplicates stays without
    duplicates, and the answer for every other deck, the saved progress and
    the statistics are as before. *)
Theorem markDeckCompleted_idempotent (deckId other : string) (s : Storage.t) :
  Storage.available s = true ->
  other ≠ deckId ->
  FlashcardUtils.isDeckCompleted deckId
    (FlashcardUtils.markDeckCompleted deckId s) = true
  /\ FlashcardUtils.markDeckCompleted deckId
       (FlashcardUtils.markDeckCompleted deckId s)
     = FlashcardUtils.markDeckCompleted deckId s
  /\ (NoDup (FlashcardUtils.getCompletedDecks s) ->
      NoDup (FlashcardUtils.getCompletedDecks
               (FlashcardUtils.markDeckCompleted deckId s)))
  /\ FlashcardUtils.isDeckCompleted other
       (FlashcardUtils.markDeckCompleted deckId s)
     = FlashcardUtils.isDeckCompleted other s
  /\ (forall d, FlashcardUtils.loadProgress d
                  (FlashcardUtils.markDeckCompleted deckId s)
                = FlashcardUtils.loadProgress d s)
  /\ (forall d, FlashcardUtils.loadDeckStatistics d
                  (FlashcardUtils.markDeckCompleted deckId s)
                = FlashcardUtils.loadDeckStatistics d s).
Proof.
  intros Ha Hne.
  assert (Hm : FlashcardUtils.isDeckCompleted deckId
                 (FlashcardUtils.markDeckCompleted deckId s) = true).
  { rewrite TableFacts.isDeckCompleted_mark by assumption.
    rewrite String.eqb_refl. apply orb_true_r. }
  split; [exact Hm|]. split; [now apply TableFacts.markDeckCompleted_noop|].
  split; [|split; [|split]].
  - intros Hnd. rewrite CompletedFacts.getCompletedDecks_mark by assumption.
    destruct (FlashcardUtils.includes _ deckId) eqn:Hi; [exact Hnd|].
    apply NoDup_app. split; [exact Hnd|]. split; [|apply NoDup_singleton].
    intros x Hx Hx'. apply list_elem_of_singleton in Hx'. subst x.
    apply CompletedFacts.includes_false in Hi. apply Hi.
    now apply list_elem_of_In.
  - rewrite TableFacts.isDeckCompleted_mark by assumption.
    apply String.eqb_neq in Hne. rewrite Hne. apply orb_false_r.
  - intros d. unfold FlashcardUtils.loadProgress, Storage.get.
    now rewrite CompletedFacts.markDeckCompleted_progress,
      CompletedFacts.markDeckCompleted_available.
  - intros d. apply StorageFacts.loadDeckStatistics_markDeckCompleted.
Qed.

Lemma markDeckCompleted_idempotent_witness :
  Storage.available storage0 = true
  /\ "other" ≠ "deck"
  /\ FlashcardUtils.isDeckCompleted "deck"
       (FlashcardUtils.markDeckCompleted "deck" storage0) = true.
Proof.
  assert (H1 : Storage.available storage0 = true) by reflexivity.
  assert (H2 : "other" ≠ "deck") by discriminate.
  split; [exact H1|]. split; [exact H2|].
  exact (proj1 (markDeckCompleted_idempotent "deck" "other" storage0 H1 H2)).
Defined.

(** X6 — resetDeckProgress forgets one deck and only that deck: afterwards
    the deck has no saved progress (also right after a save) and is no
    longer listed as completed, every other deck keeps its saved progress
    and its completed mark, and the statistics of all decks, the reset one
    included, are untouched. *)
Theorem resetDeckProgress_forgets_one_deck (deckId other : string)
    (progress : FlashcardProgress.t) (s : Storage.t) :
  Storage.available s = true ->
  other ≠ deckId ->
  FlashcardUtils.loadProgress deckId
    (FlashcardUtils.resetDeckProgress deckId s) = None
  /\ FlashcardUtils.loadProgress deckId
       (FlashcardUtils.resetDeckProgress deckId
          (FlashcardUtils.saveProgress deckId progress s)) = None
  /\ FlashcardUtils.isDeckCompleted deckId
       (FlashcardUtils.resetDeckProgress deckId
          (FlashcardUtils.markDeckCompleted deckId s)) = false
  /\ FlashcardUtils.loadProgress other
       (FlashcardUtils.resetDeckProgress deckId s)
     = FlashcardUtils.loadProgress other s
  /\ FlashcardUtils.isDeckCompleted other
       (FlashcardUtils.resetDeckProgress deckId s)
     = FlashcardUtils.isDeckCompleted other s
  /\ (forall d, FlashcardUtils.loadDeckStatistics d
                  (FlashcardUtils.resetDeckProgress deckId s)
                = FlashcardUtils.loadDeckStatistics d s).
Proof.
  intros Ha Hne. pose proof Hne as Hb. apply String.eqb_neq in Hb.
  split; [|split; [|split; [|split; [|split]]]].
  - rewrite TableFacts.loadProgress_reset by assumption.
    now rewrite String.eqb_refl.
  - rewrite TableFacts.loadProgress_reset.
    + now rewrite String.eqb_refl.
    + now rewrite (proj2 (proj2 (TableFacts.saveProgress_other_tables _ _ _))).
  - rewrite TableFacts.isDeckCompleted_reset.
    + rewrite String.eqb_refl. apply andb_false_r.
    + now rewrite CompletedFacts.markDeckCompleted_available.
  - rewrite TableFacts.loadProgress_reset by assumption. now rewrite Hb.
  - rewrite TableFacts.isDeckCompleted_reset by assumption.
    rewrite Hb. apply andb_true_r.
  - intros d. apply TableFacts.loadDeckStatistics_reset.
Qed.

Lemma resetDeckProgress_forgets_one_deck_witness :
  Storage.available storage0 = true
  /\ "other" ≠ "deck"
  /\ FlashcardUtils.loadProgress "deck"
       (FlashcardUtils.resetDeckProgress "deck"
          (FlashcardUtils.saveProgress "deck" progress1 storage0)) = None.
Proof.
  assert (H1 : Storage.available storage0 = true) by reflexivity.
  assert (H2 : "other" ≠ "deck") by discriminate.
  split; [exact H1|]. split; [exact H2|].
  exact (proj1 (proj2 (resetDeckProgress_forgets_one_deck "deck" "other"
                         progress1 storage0 H1 H2))).
Defined.

(** X7 — the statistics table keeps the last record written for a deck, a
    write for one deck does not change the record of another, and the three
    tables do not interfere: saving statistics changes neither the saved
    progress nor the completed decks, and saving progress changes neither
    the statistics nor the completed decks. *)
Theorem statistics_last_write_wins (deckId other : string)
    (first second other_stats : DeckStatistics.t)
    (progress : FlashcardProgress.t) (s : Storage.t) :
  Storage.available s = true ->
  other ≠ deckId ->
  FlashcardUtils.loadDeckStatistics deckId
    (FlashcardUtils.saveDeckStatistics deckId second
       (FlashcardUtils.saveDeckStatistics deckId first s)) = Some second
  /\ FlashcardUtils.loadDeckStatistics deckId
       (FlashcardUtils.saveDeckStatistics other other_stats
          (FlashcardUtils.saveDeckStatistics deckId first s)) = Some first
  /\ (forall d,
        FlashcardUtils.loadProgress d
          (FlashcardUtils.saveDeckStatistics deckId first s)
        = FlashcardUtils.loadProgress d s
        /\ FlashcardUtils.isDeckCompleted d
             (FlashcardUtils.saveDeckStatistics deckId first s)
           = FlashcardUtils.isDeckCompleted d s
        /\ FlashcardUtils.loadDeckStatistics d
             (FlashcardUtils.saveProgress deckId progress s)
           = FlashcardUtils.loadDeckStatistics d s
        /\ FlashcardUtils.isDeckCompleted d
             (FlashcardUtils.saveProgress deckId progress s)
           = FlashcardUtils.isDeckCompleted d s).
Proof.
  intros Ha Hne.
  destruct (TableFacts.saveDeckStatistics_other_tables deckId first s)
    as (Hp & Hc & Hav).
  destruct (TableFacts.saveProgress_other_tables deckId progress s)
    as (Hs' & Hc' & Hav').
  assert (Ha1 : Storage.available
                  (FlashcardUtils.saveDeckStatistics deckId first s) = true)
    by now rewrite Hav.
  split; [|split].
  - now apply StorageFacts.loadDeckStatistics_saveDeckStatistics.
  - rewrite (StorageFacts.saveDeckStatistics_available other) by assumption.
    unfold FlashcardUtils.loadDeckStatistics at 1, Storage.get. simpl.
    rewrite lookup_insert_ne by assumption.
    rewrite StorageFacts.saveDeckStatistics_available by assumption. simpl.
    apply lookup_insert_eq.
  - intros d.
    unfold FlashcardUtils.loadProgress, FlashcardUtils.isDeckCompleted,
      FlashcardUtils.loadDeckStatistics, Storage.get.
    now rewrite Hp, Hc, Hav, Hs', Hc', Hav'.
Qed.

Lemma statistics_last_write_wins_witness :
  Storage.available storage0 = true
  /\ "other" ≠ "deck"
  /\ FlashcardUtils.loadDeckStatistics "deck"
       (FlashcardUtils.saveDeckStatistics "deck" prior_statistics
          (FlashcardUtils.saveDeckStatistics "deck" prior_statistics storage0))
     = Some prior_statistics.
Proof.
  assert (H1 : Storage.available storage0 = true) by reflexivity.
  assert (H2 : "other" ≠ "deck") by discriminate.
  split; [exact H1|]. split; [exact H2|].
  exact (proj1 (statistics_last_write_wins "deck" "other" prior_statistics
                  prior_statistics prior_statistics progress1 storage0 H1 H2)).
Defined.

(** ** useFlashcards: answers, scores and the session life cycle *)

Module ScoreFacts.
Import UseFlashcards.

Lemma calculateScore_bounds (correct total : Z) :
  0 <= correct <= total ->
  0 <= FlashcardUtils.calculateScore correct total <= 100.
Proof. apply PercentFacts.calculateProgress_bounds. Qed.

Lemma answerAll_session answers h :
  totalAnswers (session (answerAll answers h))
  = totalAnswers (session h) + Z.of_nat (length answers)
  /\ correctAnswers (session (answerAll answers h))
     = correctAnswers (session h)
       + Z.of_nat (length (List.filter (fun b => b) answers))
  /\ startTime (session (answerAll answers h)) = startTime (session h)
  /\ state (answerAll answers h) = state h
  /\ storage (answerAll answers h) = storage h.
Proof.
  revert h. unfold answerAll.
  induction answers as [|b answers IH]; intros h; simpl fold_left.
  - simpl. repeat split; lia.
  - destruct (IH (markAnswer b h)) as (H1 & H2 & H3 & H4 & H5).
    rewrite H1, H2, H3, H4, H5. unfold markAnswer. simpl.
    destruct b; simpl; repeat split; lia.
Qed.

Lemma filter_length_le (answers : list bool) :
  (length (List.filter (fun b => b) answers) <= length answers)%nat.
Proof.
  induction answers as [|b answers IH]; simpl; [lia|].
  destruct b; simpl; lia.
Qed.

(** The rounded average of integers lies between them. *)
Lemma rounded_mean_between (a t s : Z) :
  0 <= t ->
  Z.min a s
  <= JS.Math_round (inject_Z (a * t + s) / inject_Z (t + 1))
  <= Z.max a s.
Proof.
  intros Ht. rewrite PercentFacts.Math_round_quotient by lia. split.
  - apply Z.div_le_lower_bound; [lia|].
    assert (Z.min a s * t <= a * t) by (apply Z.mul_le_mono_nonneg_r; lia).
    assert (Z.min a s <= s) by lia. nia.
  - enough ((2 * (a * t + s) + (t + 1)) / (2 * (t + 1)) < Z.max a s + 1) by lia.
    apply Z.div_lt_upper_bound; [lia|].
    assert (a * t <= Z.max a s * t) by (apply Z.mul_le_mono_nonneg_r; lia).
    assert (s <= Z.max a s) by lia. nia.
Qed.

End ScoreFacts.

(** X8 — after resetDeck, markAnswer counts: once a list of answers has
    been marked, totalAnswers is the number of answers, correctAnswers the
    number of correct ones, so 0 ≤ correctAnswers ≤ totalAnswers and the
    score calculateScore gives lies in [0,100]; marking answers moves
    neither the card nor the storage. *)
Theorem markAnswer_counts (deck_id : string) (cards : list Flashcard)
    (autoSave : bool) (now : Z) (nowISO : string) (h : UseFlashcards.t)
    (answers : list bool) :
  let fresh := UseFlashcards.resetDeck deck_id cards autoSave now nowISO h in
  let answered := UseFlashcards.answerAll answers fresh in
  let total := UseFlashcards.totalAnswers (UseFlashcards.session answered) in
  let correct := UseFlashcards.correctAnswers (UseFlashcards.session answered) in
  total = Z.of_nat (length answers)
  /\ correct = Z.of_nat (length (List.filter (fun b => b) answers))
  /\ 0 <= correct <= total
  /\ 0 <= FlashcardUtils.calculateScore correct total <= 100
  /\ UseFlashcards.state answered = UseFlashcards.state fresh
  /\ UseFlashcards.storage answered = UseFlashcards.storage fresh.
Proof.
  intros fresh answered total correct.
  destruct (ScoreFacts.answerAll_session answers fresh)
    as (H1 & H2 & _ & H4 & H5).
  assert (Hs : UseFlashcards.session fresh = UseFlashcards.mkSession now now 0 0).
  { unfold fresh, UseFlashcards.resetDeck, UseFlashcards.commit,
      UseFlashcards.completionEffect, UseFlashcards.progressEffect.
    split_tests; reflexivity. }
  rewrite Hs in H1, H2. simpl in H1, H2.
  pose proof (ScoreFacts.filter_length_le answers) as Hle.
  assert (Hb : 0 <= correct <= total) by (unfold correct, total, answered; lia).
  split; [exact H1|]. split; [exact H2|]. split; [exact Hb|].
  split; [now apply ScoreFacts.calculateScore_bounds|].
  split; assumption.
Qed.

(** X9 — the averageScore the completion effect writes is a running
    average that stays a percentage: with a stored record whose
    timesCompleted is ≥ 0, the new averageScore lies between the stored
    averageScore and the score of the session, hence in [0,100] when both
    are; with no stored record the deck is recorded as completed once with
    the session's score and study time. *)
Theorem averageScore_between (deck_id : string) (now : Z) (nowISO : string)
    (se : UseFlashcards.FlashcardSession) (prior : DeckStatistics.t) :
  0 <= DeckStatistics.timesCompleted prior ->
  0 <= DeckStatistics.averageScore prior <= 100 ->
  0 <= UseFlashcards.correctAnswers se <= UseFlashcards.totalAnswers se ->
  let score :=
    FlashcardUtils.calculateScore (UseFlashcards.correctAnswers se)
      (UseFlashcards.totalAnswers se) in
  let merged :=
    UseFlashcards.mergedStatistics deck_id now nowISO se (Some prior) in
  let first := UseFlashcards.mergedStatistics deck_id now nowISO se None in
  Z.min (DeckStatistics.averageScore prior) score
  <= DeckStatistics.averageScore merged
  <= Z.max (DeckStatistics.averageScore prior) score
  /\ 0 <= DeckStatistics.averageScore merged <= 100
  /\ DeckStatistics.timesCompleted first = 1
  /\ DeckStatistics.averageScore first = score
  /\ DeckStatistics.totalStudyTime first
     = (now - UseFlashcards.startTime se) / 1000.
Proof.
  intros Ht Ha Hc score merged first.
  pose proof (ScoreFacts.calculateScore_bounds _ _ Hc) as Hs.
  pose proof (ScoreFacts.rounded_mean_between
                (DeckStatistics.averageScore prior)
                (DeckStatistics.timesCompleted prior) score Ht) as Hm.
  fold score in Hs.
  assert (He : DeckStatistics.averageScore merged
               = JS.Math_round
                   (inject_Z (DeckStatistics.averageScore prior
                              * DeckStatistics.timesCompleted prior + score)
                    / inject_Z (DeckStatistics.timesCompleted prior + 1)))
    by reflexivity.
  rewrite He. split; [exact Hm|]. split; [lia|]. repeat split.
Qed.

Lemma averageScore_between_witness :
  0 <= DeckStatistics.timesCompleted prior_statistics
  /\ 0 <= DeckStatistics.averageScore prior_statistics <= 100
  /\ 0 <= 7 <= 10
  /\ 0 <= DeckStatistics.averageScore
            (UseFlashcards.mergedStatistics "deck" 100000 "now"
               (UseFlashcards.mkSession 0 0 10 7) (Some prior_statistics))
       <= 100.
Proof.
  assert (H1 : 0 <= DeckStatistics.timesCompleted prior_statistics)
    by (simpl; lia).
  assert (H2 : 0 <= DeckStatistics.averageScore prior_statistics <= 100)
    by (simpl; lia).
  assert (H3 : 0 <= 7 <= 10) by lia.
  split; [exact H1|]. split; [exact H2|]. split; [exact H3|].
  exact (proj1 (proj2 (averageScore_between "deck" 100000 "now"
                         (UseFlashcards.mkSession 0 0 10 7) prior_statistics
                         H1 H2 H3))).
Defined.

(** X10 — resetDeck of useFlashcards with autoSave on, from any state
    (a completed session included), gives index 0, face down, not complete,
    progress 0 and a session with zero answers started now; in storage the
    deck has no saved progress left and is no longer listed as completed,
    while the DeckStatistics of every deck, the completions counted so far
    included, stay as they were. *)
Theorem resetDeck_keeps_statistics (deck_id : string)
    (cards : list Flashcard) (now : Z) (nowISO : string)
    (h : UseFlashcards.t) :
  Storage.available (UseFlashcards.storage h) = true ->
  let h' := UseFlashcards.resetDeck deck_id cards true now nowISO h in
  UseFlashcards.state h' = mkState 0 false false 0
  /\ UseFlashcards.session h' = UseFlashcards.mkSession now now 0 0
  /\ FlashcardUtils.loadProgress deck_id (UseFlashcards.storage h') = None
  /\ FlashcardUtils.isDeckCompleted deck_id (UseFlashcards.storage h') = false
  /\ (forall d,
        FlashcardUtils.loadDeckStatistics d (UseFlashcards.storage h')
        = FlashcardUtils.loadDeckStatistics d (UseFlashcards.storage h)).
Proof.
  intros Ha h'.
  assert (Hh : h' = UseFlashcards.mk (mkState 0 false false 0)
                      (UseFlashcards.mkSession now now 0 0)
                      (UseFlashcards.studyMode h)
                      (FlashcardUtils.resetDeckProgress deck_id
                         (UseFlashcards.storage h))).
  { unfold h', UseFlashcards.resetDeck, UseFlashcards.commit,
      UseFlashcards.completionEffect, UseFlashcards.progressEffect.
    pose proof (UseFlashcardsFacts.len_nonneg cards).
    split_tests; simpl in *; reflect_tests; try lia;
      rewrite ?UseFlashcardsProgress.calculateProgress_zero; reflexivity. }
  rewrite Hh. simpl. split; [reflexivity|]. split; [reflexivity|]. split.
  - rewrite TableFacts.loadProgress_reset by assumption.
    now rewrite String.eqb_refl.
  - split.
    + rewrite TableFacts.isDeckCompleted_reset by assumption.
      rewrite String.eqb_refl. apply andb_false_r.
    + intros d. apply TableFacts.loadDeckStatistics_reset.
Qed.

Lemma resetDeck_keeps_statistics_witness :
  Storage.available (UseFlashcards.storage last_card_hook) = true
  /\ FlashcardUtils.loadDeckStatistics "deck"
       (UseFlashcards.storage
          (UseFlashcards.resetDeck "deck" deck3 true 5 "now" last_card_hook))
     = Some prior_statistics.
Proof.
  assert (H : Storage.available (UseFlashcards.storage last_card_hook) = true)
    by reflexivity.
  split; [exact H|].
  exact (proj2 (proj2 (proj2 (proj2
           (resetDeck_keeps_statistics "deck" deck3 5 "now" last_card_hook H))))
           "deck").
Defined.

(** X11 — what the auto-save stored is what the next mount restores: the
    saved currentCardIndex comes back, with the matching rounded progress,
    when it is below the number of cards; a session saved in the Complete
    state (index = cards.length) is not restored and the deck starts again
    at index 0.  The card is face down and not complete either way. *)
Theorem restore_after_autosave (deck_id : string) (cards : list Flashcard)
    (now : Z) (h : UseFlashcards.t)
    (se : UseFlashcards.FlashcardSession) (mode : StudyMode) :
  Storage.available (UseFlashcards.storage h) = true ->
  let saved :=
    UseFlashcards.storage (UseFlashcards.autoSaveProgress deck_id true now h) in
  let restored :=
    UseFlashcards.restoreProgress deck_id cards
      (UseFlashcards.mk UseFlashcards.initialState se mode saved) in
  currentCardIndex (UseFlashcards.state restored)
  = (if currentCardIndex (UseFlashcards.state h)
        <? UseFlashcards.cards_length cards
     then currentCardIndex (UseFlashcards.state h) else 0)
  /\ UseFlashcards.rounded cards restored
  /\ isFlipped (UseFlashcards.state restored) = false
  /\ isComplete (UseFlashcards.state restored) = false.
Proof.
  intros Ha saved restored.
  unfold restored, UseFlashcards.restoreProgress, saved,
    UseFlashcards.autoSaveProgress, UseFlashcards.rounded.
  cbn [UseFlashcards.storage].
  rewrite StorageFacts.loadProgress_saveProgress by assumption.
  cbn [FlashcardProgress.currentCardIndex].
  destruct (currentCardIndex (UseFlashcards.state h)
            <? UseFlashcards.cards_length cards); simpl.
  - repeat split; reflexivity.
  - rewrite UseFlashcardsProgress.calculateProgress_zero.
    repeat split; reflexivity.
Qed.

Lemma restore_after_autosave_witness :
  Storage.available (UseFlashcards.storage last_card_hook) = true
  /\ currentCardIndex
       (UseFlashcards.state
          (UseFlashcards.restoreProgress "deck" deck3
             (UseFlashcards.mk UseFlashcards.initialState session0 sequential
                (UseFlashcards.storage
                   (UseFlashcards.autoSaveProgress "deck" true 9
                      last_card_hook)))))
     = 2.
Proof.
  assert (H : Storage.available (UseFlashcards.storage last_card_hook) = true)
    by reflexivity.
  split; [exact H|].
  exact (proj1 (restore_after_autosave "deck" deck3 9 last_card_hook session0
                  sequential H)).
Defined.

(** ** flashcardUtils: the study streak *)

Module StreakFacts.
Import StudyStreak.

(** The streak read back after an update that storage accepted. *)
Lemma getStudyStreak_update today s :
  available s = true ->
  getStudyStreak (updateStudyStreak today s)
  = let streak := getStudyStreak s in
    if bool_decide (lastStudyDate streak = Some today) then streak
    else
      let current :=
        if bool_decide (lastStudyDate streak = Some (today - 1))
        then currentStreak streak + 1 else 1 in
      mk current (Z.max (longestStreak streak) current) (Some today).
Proof.
  intros Ha. unfold updateStudyStreak. cbv zeta.
  destruct (bool_decide (lastStudyDate (getStudyStreak s) = Some today));
    [reflexivity|].
  rewrite Ha. unfold getStudyStreak at 1. reflexivity.
Qed.

Lemma updateStudyStreak_available today s :
  available (updateStudyStreak today s) = available s.
Proof.
  unfold updateStudyStreak. cbv zeta.
  destruct (bool_decide _); [reflexivity|].
  destruct (available s) eqn:Ha; [reflexivity | exact Ha].
Qed.

Lemma studyDaily_available n day s :
  available (studyDaily n day s) = available s.
Proof.
  revert day. induction n as [|n IH]; intros day; simpl; [reflexivity|].
  now rewrite updateStudyStreak_available.
Qed.

End StreakFacts.

(** X12 — updateStudyStreak on the day of the last study changes nothing,
    so two updates on one day count once; an update on the day after the
    last study adds one to currentStreak, an update after a gap or with no
    streak stored sets it to 1; afterwards lastStudyDate is today,
    longestStreak is at least currentStreak and at least what it was. *)
Theorem updateStudyStreak_rules (today : Z) (s : StudyStreak.Store) :
  StudyStreak.available s = true ->
  let before := StudyStreak.getStudyStreak s in
  let after :=
    StudyStreak.getStudyStreak (StudyStreak.updateStudyStreak today s) in
  StudyStreak.updateStudyStreak today (StudyStreak.updateStudyStreak today s)
  = StudyStreak.updateStudyStreak today s
  /\ StudyStreak.lastStudyDate after = Some today
  /\ (StudyStreak.lastStudyDate before = Some today -> after = before)
  /\ (StudyStreak.lastStudyDate before = Some (today - 1) ->
      StudyStreak.currentStreak after = StudyStreak.currentStreak before + 1)
  /\ (StudyStreak.lastStudyDate before ≠ Some today ->
      StudyStreak.lastStudyDate before ≠ Some (today - 1) ->
      StudyStreak.currentStreak after = 1)
  /\ StudyStreak.longestStreak before <= StudyStreak.longestStreak after
  /\ (StudyStreak.lastStudyDate before ≠ Some today
      \/ StudyStreak.currentStreak before <= StudyStreak.longestStreak before ->
      StudyStreak.currentStreak after <= StudyStreak.longestStreak after).
Proof.
  intros Ha before after.
  assert (Haft : after
                 = if bool_decide (StudyStreak.lastStudyDate before = Some today)
                   then before
                   else
                     let current :=
                       if bool_decide (StudyStreak.lastStudyDate before
                                       = Some (today - 1))
                       then StudyStreak.currentStreak before + 1 else 1 in
                     StudyStreak.mk current
                       (Z.max (StudyStreak.longestStreak before) current)
                       (Some today))
    by (apply StreakFacts.getStudyStreak_update; exact Ha).
  assert (Hlast : StudyStreak.lastStudyDate after = Some today).
  { rewrite Haft. case_bool_decide as Hd; [exact Hd | reflexivity]. }
  split.
  - unfold StudyStreak.updateStudyStreak at 1. cbv zeta.
    fold after. rewrite Hlast. now rewrite bool_decide_eq_true_2.
  - split; [exact Hlast|]. rewrite Haft. cbv zeta.
    case_bool_decide as Hd; [|case_bool_decide as Hy]; simpl.
    + repeat split; try lia; try congruence.
      * intros Hy. rewrite Hy in Hd. injection Hd. lia.
      * intros [Hn | Hle]; [congruence | exact Hle].
    + repeat split; try lia; congruence.
    + repeat split; try lia; congruence.
Qed.

Lemma updateStudyStreak_rules_witness :
  StudyStreak.available streak_store = true
  /\ StudyStreak.lastStudyDate
       (StudyStreak.getStudyStreak
          (StudyStreak.updateStudyStreak 100 streak_store))
     = Some 100.
Proof.
  assert (H : StudyStreak.available streak_store = true) by reflexivity.
  split; [exact H|].
  exact (proj1 (proj2 (updateStudyStreak_rules 100 streak_store H))).
Defined.

(** X13 — studying on n consecutive days, starting with no streak stored,
    gives a currentStreak and a longestStreak of n, with lastStudyDate the
    last of those days. *)
Theorem studyDaily_counts_days (n : nat) (day : Z) (s : StudyStreak.Store) :
  StudyStreak.available s = true ->
  StudyStreak.study_streak s = None ->
  n ≠ 0%nat ->
  StudyStreak.getStudyStreak (StudyStreak.studyDaily n day s)
  = StudyStreak.mk (Z.of_nat n) (Z.of_nat n) (Some day).
Proof.
  intros Ha Hn Hpos. revert day.
  induction n as [|k IH]; intros day; [congruence|].
  cbn [StudyStreak.studyDaily].
  rewrite StreakFacts.getStudyStreak_update
    by now rewrite StreakFacts.studyDaily_available.
  cbv zeta. destruct k as [|k].
  - cbn [StudyStreak.studyDaily]. unfold StudyStreak.getStudyStreak.
    rewrite Ha, Hn. simpl. reflexivity.
  - rewrite (IH ltac:(discriminate) (day - 1)). simpl StudyStreak.lastStudyDate.
    rewrite bool_decide_eq_false_2 by (intros [= He]; lia).
    rewrite bool_decide_eq_true_2 by reflexivity.
    cbn [StudyStreak.currentStreak StudyStreak.longestStreak].
    f_equal; lia.
Qed.

Lemma studyDaily_counts_days_witness :
  StudyStreak.available (StudyStreak.mkStore true None) = true
  /\ StudyStreak.study_streak (StudyStreak.mkStore true None) = None
  /\ 3%nat ≠ 0%nat
  /\ StudyStreak.getStudyStreak
       (StudyStreak.studyDaily 3 100 (StudyStreak.mkStore true None))
     = StudyStreak.mk 3 3 (Some 100).
Proof.
  assert (H1 : StudyStreak.available (StudyStreak.mkStore true None) = true)
    by reflexivity.
  assert (H2 : StudyStreak.study_streak (StudyStreak.mkStore true None) = None)
    by reflexivity.
  assert (H3 : 3%nat ≠ 0%nat) by discriminate.
  split; [exact H1|]. split; [exact H2|]. split; [exact H3|].
  exact (studyDaily_counts_days 3 100 _ H1 H2 H3).
Defined.

(** ** The selectors *)

Module DisplayFacts.
Import UseFlashcardState.

Lemma getCurrentCard_Some cards st :
  0 <= currentCardIndex st < cards_length cards ->
  is_Some (getCurrentCard cards st).
Proof.
  intros [H0 Hl]. unfold getCurrentCard.
  apply Z.ltb_lt in Hl as Hl'. rewrite Hl'.
  destruct (currentCardIndex st <? 0) eqn:Hn; reflect_tests; [lia|].
  apply lookup_lt_is_Some_2. unfold cards_length in Hl. lia.
Qed.

Lemma getCurrentCard_None cards st :
  cards_length cards <= currentCardIndex st -> getCurrentCard cards st = None.
Proof.
  intros Hl. unfold getCurrentCard.
  apply Z.ltb_ge in Hl. now rewrite Hl.
Qed.

End DisplayFacts.

(** X15 — the selectors of useFlashcardState on a deck that is not empty:
    getCurrentCard returns a card exactly while the session is not complete
    and null once it is; on the last card canGoNext is false although
    nextCard still moves on, to the Complete state; when canGoNext holds,
    nextCard shows the card at index + 1; isFirstCard is the negation of
    canGoPrevious, and when canGoPrevious holds previousCard shows the card
    at index - 1. *)
Theorem selectors_agree_with_actions (cards : list Flashcard) (fresh : bool)
    (st : FlashcardState) :
  UseFlashcardState.reachable cards fresh st ->
  cards ≠ [] ->
  let len := UseFlashcardState.cards_length cards in
  (UseFlashcardState.getCurrentCard cards st = None <-> isComplete st = true)
  /\ (isComplete st = false ->
      UseFlashcardState.getCurrentCard cards st
      = cards !! Z.to_nat (currentCardIndex st)
      /\ is_Some (UseFlashcardState.getCurrentCard cards st))
  /\ (UseFlashcardState.isLastCard cards st = true ->
      UseFlashcardState.canGoNext cards st = false
      /\ isComplete (UseFlashcardState.nextCard cards fresh st) = true)
  /\ (UseFlashcardState.canGoNext cards st = true ->
      currentCardIndex (UseFlashcardState.nextCard cards fresh st)
      = currentCardIndex st + 1
      /\ is_Some (UseFlashcardState.getCurrentCard cards
                    (UseFlashcardState.nextCard cards fresh st)))
  /\ UseFlashcardState.isFirstCard st
     = negb (UseFlashcardState.canGoPrevious st)
  /\ (UseFlashcardState.canGoPrevious st = true ->
      currentCardIndex (UseFlashcardState.previousCard cards fresh st)
      = currentCardIndex st - 1
      /\ is_Some (UseFlashcardState.getCurrentCard cards
                    (UseFlashcardState.previousCard cards fresh st))).
Proof.
  intros Hr Hne len.
  pose proof (SessionFacts.reachable_in_bounds cards fresh st Hr) as Hb.
  pose proof (SessionFacts.reachable_complete_iff cards fresh st Hne Hr)
    as [Hc1 Hc2].
  pose proof (SessionFacts.cards_length_pos cards Hne) as Hpos.
  unfold UseFlashcardState.in_bounds in Hb. fold len in Hb, Hc1, Hc2, Hpos.
  assert (Hnc : isComplete st = false -> currentCardIndex st < len).
  { intros Hf. destruct (Z.eq_dec (currentCardIndex st) len) as [He|He];
      [rewrite (Hc1 He) in Hf; discriminate | lia]. }
  pose proof (SessionFacts.step_index cards fresh NextCard st) as Hnx.
  pose proof (SessionFacts.step_index cards fresh PreviousCard st) as Hpv.
  simpl in Hnx, Hpv. fold len in Hnx.
  split; [|split; [|split; [|split; [|split]]]].
  - split.
    + intros Hn. destruct (isComplete st) eqn:Hf; [reflexivity|].
      destruct (DisplayFacts.getCurrentCard_Some cards st) as [c Hc];
        [specialize (Hnc eq_refl); fold len; lia | congruence].
    + intros Ht. apply DisplayFacts.getCurrentCard_None.
      fold len. rewrite (Hc2 Ht). lia.
  - intros Hf. specialize (Hnc Hf). split.
    + unfold UseFlashcardState.getCurrentCard. fold len.
      apply Z.ltb_lt in Hnc as Hlt. rewrite Hlt.
      destruct (currentCardIndex st <? 0) eqn:Hn; reflect_tests;
        [lia | reflexivity].
    + apply DisplayFacts.getCurrentCard_Some. fold len. lia.
  - unfold UseFlashcardState.isLastCard, UseFlashcardState.canGoNext.
    fold len. intros Hl. reflect_tests. split; [reflect_tests; lia|].
    apply (SessionFacts.reachable_complete_iff cards fresh _ Hne
             (UseFlashcardState.reach_step cards fresh NextCard st Hr)).
    simpl. rewrite Hnx. fold len.
    destruct (currentCardIndex st <? len - 1) eqn:E; reflect_tests;
      [lia | reflexivity].
  - unfold UseFlashcardState.canGoNext. fold len. intros Hg.
    rewrite Hg in Hnx. reflect_tests. split; [exact Hnx|].
    apply DisplayFacts.getCurrentCard_Some. rewrite Hnx. fold len. lia.
  - unfold UseFlashcardState.isFirstCard, UseFlashcardState.canGoPrevious.
    destruct (currentCardIndex st =? 0) eqn:E1;
      destruct (0 <? currentCardIndex st) eqn:E2; reflect_tests;
      (reflexivity || lia).
  - unfold UseFlashcardState.canGoPrevious. intros Hg.
    rewrite Hg in Hpv. reflect_tests. split; [exact Hpv|].
    apply DisplayFacts.getCurrentCard_Some. rewrite Hpv. fold len. lia.
Qed.

Lemma selectors_agree_with_actions_witness :
  UseFlashcardState.reachable deck3 true (UseFlashcardState.mounted deck3)
  /\ deck3 ≠ []
  /\ UseFlashcardState.isFirstCard (UseFlashcardState.mounted deck3)
     = negb (UseFlashcardState.canGoPrevious (UseFlashcardState.mounted deck3)).
Proof.
  assert (H1 : UseFlashcardState.reachable deck3 true
                 (UseFlashcardState.mounted deck3)) by constructor.
  assert (H2 : deck3 ≠ []) by discriminate.
  split; [exact H1|]. split; [exact H2|].
  exact (proj1 (proj2 (proj2 (proj2 (proj2
           (selectors_agree_with_actions deck3 true _ H1 H2)))))).
Defined.

(** ** useFlashcardGestures: the card while it is dragged *)

Module DragFacts.




End DragFacts.



(** ** The flashcards screen: what gestures can reach *)

Module ReachFacts.
Import FlashcardsScreen.

Section Facts.

Variable cards : list Flashcard.
Variable SCREEN_WIDTH : Q.

Local Abbreviation len := (UseFlashcardState.cards_length cards).


Lemma setGestureIsAnimating_on_card b scr :
  on_card cards scr -> on_card cards (setGestureIsAnimating b scr).
Proof. intros H. exact H. Qed.







End Facts.
End ReachFacts.



(** ** The session actions composed *)

(** X18 — in useFlashcardState, previousCard undoes nextCard: from a state
    that shows a card, nextCard followed by previousCard shows the same card
    again, face down, with the same progress and with isComplete false; this
    also holds on the last card, where nextCard completes the session in
    between. *)
Theorem previousCard_undoes_nextCard (cards : list Flashcard) (fresh : bool)
    (st : FlashcardState) :
  UseFlashcardState.reachable cards fresh st ->
  cards ≠ [] ->
  isComplete st = false ->
  let back := UseFlashcardState.previousCard cards fresh
                (UseFlashcardState.nextCard cards fresh st) in
  currentCardIndex back = currentCardIndex st
  /\ isFlipped back = false
  /\ isComplete back = false
  /\ (progress back == progress st)%Q
  /\ UseFlashcardState.getCurrentCard cards back
     = UseFlashcardState.getCurrentCard cards st.
Proof.
  intros Hr Hne Hf back.
  set (len := UseFlashcardState.cards_length cards).
  pose proof (SessionFacts.cards_length_pos cards Hne) as Hpos.
  pose proof (SessionFacts.reachable_in_bounds cards fresh st Hr) as Hb.
  pose proof (SessionFacts.reachable_complete_iff cards fresh st Hne Hr)
    as [Hc1 _].
  unfold UseFlashcardState.in_bounds in Hb. fold len in Hb, Hc1, Hpos.
  assert (Hlt : currentCardIndex st < len).
  { destruct (Z.eq_dec (currentCardIndex st) len) as [He|He];
      [rewrite (Hc1 He) in Hf; discriminate | lia]. }
  set (next := UseFlashcardState.nextCard cards fresh st).
  assert (Hrn : UseFlashcardState.reachable cards fresh next)
    by exact (UseFlashcardState.reach_step cards fresh NextCard st Hr).
  assert (Hrb : UseFlashcardState.reachable cards fresh back)
    by exact (UseFlashcardState.reach_step cards fresh PreviousCard next Hrn).
  assert (Hn : currentCardIndex next = currentCardIndex st + 1).
  { pose proof (SessionFacts.step_index cards fresh NextCard st) as Hi.
    simpl in Hi. fold len in Hi. unfold next. rewrite Hi.
    destruct (currentCardIndex st <? len - 1) eqn:E; reflect_tests; lia. }
  assert (Hi : currentCardIndex back = currentCardIndex st).
  { pose proof (SessionFacts.step_index cards fresh PreviousCard next) as Hi.
    simpl in Hi. unfold back. fold next. rewrite Hi, Hn.
    destruct (0 <? currentCardIndex st + 1) eqn:E; reflect_tests; lia. }
  split; [exact Hi|]. split.
  { apply (SessionFacts.step_resets_flip cards fresh PreviousCard next).
    change (currentCardIndex back ≠ currentCardIndex next). lia. }
  split.
  { pose proof (SessionFacts.reachable_complete_iff cards fresh back Hne Hrb)
      as [_ Hc2].
    destruct (isComplete back); [|reflexivity].
    specialize (Hc2 eq_refl). fold len in Hc2. lia. }
  split.
  { pose proof (ProgressFacts.reachable_synced cards fresh back Hrb) as Hsb.
    pose proof (ProgressFacts.reachable_synced cards fresh st Hr) as Hss.
    unfold UseFlashcardState.synced in Hsb, Hss.
    rewrite Hsb, Hss, Hi. reflexivity. }
  unfold UseFlashcardState.getCurrentCard. rewrite Hi. reflexivity.
Qed.

Lemma previousCard_undoes_nextCard_witness :
  UseFlashcardState.reachable deck3 true (UseFlashcardState.mounted deck3)
  /\ deck3 ≠ []
  /\ isComplete (UseFlashcardState.mounted deck3) = false
  /\ currentCardIndex
       (UseFlashcardState.previousCard deck3 true
          (UseFlashcardState.nextCard deck3 true
             (UseFlashcardState.mounted deck3)))
     = currentCardIndex (UseFlashcardState.mounted deck3).
Proof.
  assert (H1 : UseFlashcardState.reachable deck3 true
                 (UseFlashcardState.mounted deck3)) by constructor.
  assert (H2 : deck3 ≠ []) by discriminate.
  assert (H3 : isComplete (UseFlashcardState.mounted deck3) = false)
    by reflexivity.
  split; [exact H1|]. split; [exact H2|]. split; [exact H3|].
  exact (proj1 (previousCard_undoes_nextCard deck3 true _ H1 H2 H3)).
Defined.

(** X19 — in useFlashcardState, goToCard with an index inside the deck
    shows that card from any state of the session, the Complete state
    included: the index is the one asked for, the card is face down,
    isComplete is false, the progress is the double (index / length) * 100,
    within 2^-45 of the exact percentage, and getCurrentCard returns the
    card at that index. *)
Theorem goToCard_shows_card (cards : list Flashcard) (fresh : bool)
    (index : Z) (st : FlashcardState) :
  UseFlashcardState.reachable cards fresh st ->
  0 <= index < UseFlashcardState.cards_length cards ->
  let st' := UseFlashcardState.goToCard cards fresh index st in
  currentCardIndex st' = index
  /\ isFlipped st' = false
  /\ isComplete st' = false
  /\ (progress st'
      == Double.mul
           (Double.div (inject_Z index)
              (inject_Z (UseFlashcardState.cards_length cards))) 100)%Q
  /\ (Qabs (progress st'
            - inject_Z index / inject_Z (UseFlashcardState.cards_length cards)
              * 100)
      <= Double.pow2 (-45))%Q
  /\ UseFlashcardState.getCurrentCard cards st' = cards !! Z.to_nat index
  /\ is_Some (UseFlashcardState.getCurrentCard cards st').
Proof.
  intros Hr Hi st'.
  set (len := UseFlashcardState.cards_length cards) in *.
  assert (Hne : cards ≠ []).
  { intros ->. unfold len, UseFlashcardState.cards_length in Hi.
    simpl in Hi. lia. }
  assert (Hr' : UseFlashcardState.reachable cards fresh st')
    by exact (UseFlashcardState.reach_step cards fresh (GoToCard index) st Hr).
  assert (Hidx : currentCardIndex st' = index).
  { pose proof (SessionFacts.step_index cards fresh (GoToCard index) st) as H.
    simpl in H. fold len in H. unfold st'. rewrite H.
    destruct ((0 <=? index) && (index <? len)) eqn:E; reflect_tests;
      [reflexivity | lia]. }
  split; [exact Hidx|]. split.
  { unfold st', UseFlashcardState.goToCard, UseFlashcardState.dispatch,
      UseFlashcardState.goToCard_update. fold len.
    destruct ((0 <=? index) && (index <? len)) eqn:E; reflect_tests; [|lia].
    now rewrite SessionFacts.commit_isFlipped. }
  split.
  { pose proof (SessionFacts.reachable_complete_iff cards fresh st' Hne Hr')
      as [_ Hc2].
    destruct (isComplete st'); [|reflexivity].
    specialize (Hc2 eq_refl). fold len in Hc2. lia. }
  split.
  { pose proof (ProgressFacts.reachable_synced cards fresh st' Hr') as Hs.
    unfold UseFlashcardState.synced in Hs. rewrite Hs, Hidx.
    unfold UseFlashcardState.progress_of_index. fold len.
    destruct (0 <? len) eqn:E; reflect_tests; [reflexivity | lia]. }
  split.
  { pose proof (ProgressFacts.reachable_synced cards fresh st' Hr') as Hs.
    unfold UseFlashcardState.synced in Hs. rewrite Hs, Hidx.
    apply ProgressFacts.progress_of_index_error; fold len; lia. }
  split.
  { unfold UseFlashcardState.getCurrentCard. fold len. rewrite Hidx.
    destruct (index <? len) eqn:E1; destruct (index <? 0) eqn:E2;
      reflect_tests; (reflexivity || lia). }
  apply DisplayFacts.getCurrentCard_Some. fold len. lia.
Qed.

Lemma goToCard_shows_card_witness :
  UseFlashcardState.reachable deck3 true
    (UseFlashcardState.advance deck3 true 3 (UseFlashcardState.mounted deck3))
  /\ 0 <= 1 < UseFlashcardState.cards_length deck3
  /\ currentCardIndex
       (UseFlashcardState.goToCard deck3 true 1
          (UseFlashcardState.advance deck3 true 3
             (UseFlashcardState.mounted deck3))) = 1.
Proof.
  assert (H1 : UseFlashcardState.reachable deck3 true
                 (UseFlashcardState.advance deck3 true 3
                    (UseFlashcardState.mounted deck3)))
    by apply SessionFacts.advance_reachable.
  assert (H2 : 0 <= 1 < UseFlashcardState.cards_length deck3)
    by (vm_compute; split; discriminate || reflexivity).
  split; [exact H1|]. split; [exact H2|].
  exact (proj1 (goToCard_shows_card deck3 true 1 _ H1 H2)).
Defined.

(** X20 — in useFlashcardState, resetDeck brings any state back to the one
    the hook mounts with: index 0, card face down, isComplete false and
    progress 0, for every deck, the empty one included. *)
Theorem resetDeck_restores_mounted_state (cards : list Flashcard)
    (fresh : bool) (st : FlashcardState) :
  let st' := UseFlashcardState.resetDeck cards fresh st in
  let m := UseFlashcardState.mounted cards in
  currentCardIndex st' = 0 /\ currentCardIndex m = 0
  /\ isFlipped st' = false /\ isFlipped m = false
  /\ isComplete st' = false /\ isComplete m = false
  /\ (progress st' == 0)%Q /\ (progress m == 0)%Q.
Proof.
  intros st' m.
  pose proof (SessionFacts.cards_length_nonneg cards) as Hl.
  assert (Hnc : forall prev,
             isComplete (UseFlashcardState.commit cards fresh prev
                           (mkState 0 false false 0)) = false).
  { intros prev. apply not_true_is_false.
    rewrite SessionFacts.commit_isComplete. simpl.
    intros [Ht | (Hge & Hp & _)]; [discriminate | lia]. }
  assert (Hm : m = mkState 0 false false
                 (UseFlashcardState.progress_of_index cards 0)).
  { unfold m, UseFlashcardState.mounted, UseFlashcardState.completionEffect,
      UseFlashcardState.progressEffect, UseFlashcardState.initialState,
      UseFlashcardState.progress_of_index. simpl.
    destruct (UseFlashcardState.cards_length cards <=? 0) eqn:E1;
      destruct (0 <? UseFlashcardState.cards_length cards) eqn:E2;
      reflect_tests; simpl; (reflexivity || lia). }
  unfold st', UseFlashcardState.resetDeck, UseFlashcardState.dispatch,
    UseFlashcardState.resetDeck_update.
  rewrite SessionFacts.commit_index, SessionFacts.commit_isFlipped, Hnc,
    ProgressFacts.commit_progress, Hm. simpl.
  repeat (split; [reflexivity|]). split.
  - destruct (currentCardIndex st =? 0); [reflexivity|].
    apply ProgressFacts.progress_of_index_zero.
  - apply ProgressFacts.progress_of_index_zero.
Qed.

(** ** useFlashcards: a completed session *)

(** X21 — in useFlashcards the statistics of a completion are written
    once: while isComplete is true, flipCard, nextCard and markAnswer leave
    the storage as it is and the flag set, although each of them replaces
    the session object and so makes the completion effect run again. *)
Theorem completion_is_counted_once (deck_id : string)
    (cards : list Flashcard) (draws : list Q) (now : Z) (nowISO : string)
    (isCorrect : bool) (h : UseFlashcards.t) :
  isComplete (UseFlashcards.state h) = true ->
  UseFlashcards.storage (UseFlashcards.flipCard deck_id cards now nowISO h)
  = UseFlashcards.storage h
  /\ isComplete
       (UseFlashcards.state (UseFlashcards.flipCard deck_id cards now nowISO h))
     = true
  /\ UseFlashcards.storage (UseFlashcards.markAnswer isCorrect h)
     = UseFlashcards.storage h
  /\ (forall h',
        UseFlashcards.nextCard deck_id cards draws now nowISO h = Some h' ->
        UseFlashcards.storage h' = UseFlashcards.storage h
        /\ isComplete (UseFlashcards.state h') = true).
Proof.
  intros Hc.
  assert (Hk : forall prev next,
             isComplete (UseFlashcards.state next) = true ->
             UseFlashcards.storage
               (UseFlashcards.commit deck_id cards now nowISO prev next)
             = UseFlashcards.storage next
             /\ isComplete
                  (UseFlashcards.state
                     (UseFlashcards.commit deck_id cards now nowISO prev next))
                = true).
  { intros prev next Hn.
    unfold UseFlashcards.commit, UseFlashcards.completionEffect,
      UseFlashcards.progressEffect.
    destruct (negb (currentCardIndex (UseFlashcards.state prev)
                    =? currentCardIndex (UseFlashcards.state next)));
      simpl; rewrite Hn, !andb_false_r; simpl; auto. }
  split; [|split; [|split]].
  - unfold UseFlashcards.flipCard. refine (proj1 (Hk _ _ _)). exact Hc.
  - unfold UseFlashcards.flipCard. refine (proj2 (Hk _ _ _)). exact Hc.
  - reflexivity.
  - intros h'. unfold UseFlashcards.nextCard.
    destruct (FlashcardUtils.getNextCardIndex draws
                (currentCardIndex (UseFlashcards.state h))
                (UseFlashcards.cards_length cards) (UseFlashcards.studyMode h))
      as [[nextIndex|]|]; [| |discriminate];
      intros Hs; inversion Hs as [Hh]; refine (Hk _ _ _); exact Hc.
Qed.

Lemma completion_is_counted_once_witness :
  isComplete (UseFlashcards.state hook_complete3) = true
  /\ UseFlashcards.storage
       (UseFlashcards.flipCard "deck" deck3 5000 "later" hook_complete3)
     = UseFlashcards.storage hook_complete3.
Proof.
  assert (H : isComplete (UseFlashcards.state hook_complete3) = true)
    by reflexivity.
  split; [exact H|].
  exact (proj1 (completion_is_counted_once "deck" deck3 [] 5000 "later" true
                  hook_complete3 H)).
Defined.

(** X22 — the shuffleCards action of useFlashcards rearranges the cards of
    the deck and goes back to index 0 with the card face down; it leaves
    the session counters, the study mode and the storage as they are and
    does not touch isComplete.  The progress becomes 0 when it was the
    rounded percentage of the index before.  After a completed session on
    a deck that is not empty, the hook therefore shows the first card with
    isComplete still true. *)
Theorem shuffle_action_keeps_completion (cards : list Flashcard)
    (random : nat -> Q) (h : UseFlashcards.t) :
  FlashcardUtils.unit_random random ->
  exists shuffled h',
    UseFlashcards.shuffleCards cards random h = Some (shuffled, h')
    /\ shuffled ≡ₚ cards
    /\ currentCardIndex (UseFlashcards.state h') = 0
    /\ isFlipped (UseFlashcards.state h') = false
    /\ isComplete (UseFlashcards.state h')
       = isComplete (UseFlashcards.state h)
    /\ UseFlashcards.session h' = UseFlashcards.session h
    /\ UseFlashcards.studyMode h' = UseFlashcards.studyMode h
    /\ UseFlashcards.storage h' = UseFlashcards.storage h
    /\ (UseFlashcards.rounded cards h ->
        (progress (UseFlashcards.state h') == 0)%Q
        /\ UseFlashcards.rounded shuffled h')
    /\ (isComplete (UseFlashcards.state h) = true -> cards ≠ [] ->
        ~ UseFlashcards.complete_iff shuffled h'
        /\ is_Some (shuffled !! Z.to_nat
                      (currentCardIndex (UseFlashcards.state h')))).
Proof.
  intros Hr.
  destruct (ShuffleFacts.shuffleCards_Some random cards Hr) as (sh & Hs & Hp).
  assert (Hl : length sh = length cards) by now rewrite Hp.
  unfold UseFlashcards.shuffleCards. rewrite Hs.
  eexists sh, _. split; [reflexivity|]. split; [exact Hp|].
  destruct (Z.eqb_spec (currentCardIndex (UseFlashcards.state h)) 0)
    as [He|He]; simpl.
  - repeat (split; [reflexivity|]). split.
    + unfold UseFlashcards.rounded. simpl. intros Hrd.
      rewrite He, UseFlashcardsProgress.calculateProgress_zero in Hrd.
      split; [exact Hrd|].
      rewrite UseFlashcardsProgress.calculateProgress_zero. exact Hrd.
    + intros Hc Hne. split.
      * unfold UseFlashcards.complete_iff, UseFlashcards.cards_length. simpl.
        intros [_ Hc2]. specialize (Hc2 Hc).
        destruct cards; [congruence|]. rewrite Hl in Hc2. simpl in Hc2. lia.
      * apply lookup_lt_is_Some. rewrite Hl.
        destruct cards; [congruence | simpl; lia].
  - repeat (split; [reflexivity|]). split.
    + unfold UseFlashcards.rounded. simpl. intros _.
      rewrite !UseFlashcardsProgress.calculateProgress_zero.
      split; reflexivity.
    + intros Hc Hne. split.
      * unfold UseFlashcards.complete_iff, UseFlashcards.cards_length. simpl.
        intros [_ Hc2]. specialize (Hc2 Hc).
        destruct cards; [congruence|]. rewrite Hl in Hc2. simpl in Hc2. lia.
      * apply lookup_lt_is_Some. rewrite Hl.
        destruct cards; [congruence | simpl; lia].
Qed.

Lemma shuffle_action_keeps_completion_witness :
  FlashcardUtils.unit_random (fun _ => 0%Q)
  /\ exists shuffled h',
       UseFlashcards.shuffleCards deck3 (fun _ => 0%Q) hook_complete3
       = Some (shuffled, h')
       /\ currentCardIndex (UseFlashcards.state h') = 0
       /\ isComplete (UseFlashcards.state h') = true.
Proof.
  assert (H : FlashcardUtils.unit_random (fun _ => 0%Q))
    by (intros n; split; reflexivity || discriminate).
  split; [exact H|].
  destruct (shuffle_action_keeps_completion deck3 _ hook_complete3 H)
    as (sh & h' & Hs & _ & Hi & _ & Hc & _).
  exists sh, h'. split; [exact Hs|]. split; [exact Hi|].
  rewrite Hc. reflexivity.
Defined.
